(** * The chat session store of [@n8n/chat] (plugins/chat.ts)

    A shallow embedding of the [ChatPlugin] store: the in-memory map from
    session id to message list, the conversation registry, the active and
    current session pointers, the [waitingForResponse] flag and the two
    [localStorage] keys, together with the five asynchronous operations
    [sendMessage], [switchSession], [loadConversation], [loadPreviousSession]
    and [startNewSession].

    Asynchronous functions are embedded in a resumption monad: an operation
    runs synchronously up to its [await] on a backend call, where it hands
    back the store and a continuation holding its local variables.  Whatever
    happens to the store while the call is in flight is visible to the
    continuation, exactly as reads of [ref.value] after an [await] see the
    live value. *)

From Stdlib Require Import ZArith String List Sorted Permutation Lia.
From Stdlib Require DecimalString DecimalPos.
From stdpp Require Import base option gmap strings list fin_maps pretty.

Local Open Scope string_scope.
Local Open Scope list_scope.
Local Open Scope Z_scope.

(** ** Data model *)

(** [sender: 'user' | 'bot'] *)
Inductive Sender : Set := user | bot.

Definition Sender_eqb (a b : Sender) : bool :=
  match a, b with
  | user, user | bot, bot => true
  | _, _ => false
  end.

(** A browser [File]; the store only passes files through. *)
Definition File : Set := string.

(** Timestamps.  The source keeps [new Date().toISOString()] strings and
    compares them through [new Date(s).getTime()]; the two conversions are
    inverse to each other, so a timestamp is kept as its epoch
    milliseconds. *)
Definition Timestamp : Set := Z.

Module ChatMessage.
Record t : Set := mk {
    id : string;
    text : string;
    sender : Sender;
    files : option (list File);
    createdAt : Timestamp
  }.
End ChatMessage.

Module ConversationMeta.
Record MessageCount : Set := mkCount { user : nat; bot : nat }.
Record t : Set := mk {
    id : string;
    name : string;
    lastUpdated : Timestamp;
    messageCount : MessageCount
  }.
End ConversationMeta.

(** The part of [ChatOptions] the store reads; every field is optional. *)
Module ChatOptions.
Record t : Set := mk {
    initialMessages : option (list string);
    loadPreviousSession : option bool;
    agentId : option string
  }.
End ChatOptions.

(** Backend replies.  [api.sendMessage] resolves to an object with optional
    [output] and [text] strings and possibly further keys.  [None] is a
    field that is absent or nullish; a key that is present with a nullish
    value counts among the [otherKeys]. *)
Module SendMessageResponse.
Record t : Set := mk {
    output : option string;
    text : option string;
    otherKeys : list string
  }.
End SendMessageResponse.

(** A history record: [{ id: string; kwargs: { content: string } }]. *)
Module LoadedMessage.
Record Kwargs : Set := mkKwargs { content : string }.
Record t : Set := mk { id : string; kwargs : Kwargs }.
End LoadedMessage.

(** [api.loadPreviousSession] resolves to [{ data?: ... }] or to nothing. *)
Module LoadPreviousSessionResponse.
Record t : Set := mk { data : option (list LoadedMessage.t) }.
End LoadPreviousSessionResponse.

(** ** Exceptions *)

Inductive Error : Set :=
| SyntaxError            (* JSON.parse on malformed text *)
| TypeError              (* JSON.stringify on a value it cannot serialise *)
| Rejected (reason : string). (* a backend promise that rejects *)

Inductive Exc (A : Type) : Type :=
| Ok (a : A)
| Raise (e : Error).
Arguments Ok {A} a.
Arguments Raise {A} e.

(** ** The store *)

Record World : Type := mkWorld {
  conversations : list ConversationMeta.t;
  sessions : gmap string (list ChatMessage.t);
  currentSessionId : option string;
  activeSessionId : option string;
  agentId : option string;
  waitingForResponse : bool;
  (** the cached value of the [computed] ref [initialMessages]: [None]
      until the ref is first read *)
  initialMessages_cache : option (list ChatMessage.t);
  localStorage : gmap string string;
  (** how many times [uuidv4()] and [new Date()] were called so far *)
  uuid_count : nat;
  clock_count : nat
}.

Definition set_conversations (v : list ConversationMeta.t) (w : World) : World :=
  mkWorld v (sessions w) (currentSessionId w) (activeSessionId w) (agentId w)
          (waitingForResponse w) (initialMessages_cache w) (localStorage w)
          (uuid_count w) (clock_count w).

Definition set_sessions (v : gmap string (list ChatMessage.t)) (w : World) : World :=
  mkWorld (conversations w) v (currentSessionId w) (activeSessionId w) (agentId w)
          (waitingForResponse w) (initialMessages_cache w) (localStorage w)
          (uuid_count w) (clock_count w).

Definition set_currentSessionId (v : option string) (w : World) : World :=
  mkWorld (conversations w) (sessions w) v (activeSessionId w) (agentId w)
          (waitingForResponse w) (initialMessages_cache w) (localStorage w)
          (uuid_count w) (clock_count w).

Definition set_activeSessionId (v : option string) (w : World) : World :=
  mkWorld (conversations w) (sessions w) (currentSessionId w) v (agentId w)
          (waitingForResponse w) (initialMessages_cache w) (localStorage w)
          (uuid_count w) (clock_count w).

Definition set_waitingForResponse (v : bool) (w : World) : World :=
  mkWorld (conversations w) (sessions w) (currentSessionId w) (activeSessionId w)
          (agentId w) v (initialMessages_cache w) (localStorage w)
          (uuid_count w) (clock_count w).

Definition set_initialMessages_cache (v : option (list ChatMessage.t)) (w : World) : World :=
  mkWorld (conversations w) (sessions w) (currentSessionId w) (activeSessionId w)
          (agentId w) (waitingForResponse w) v (localStorage w)
          (uuid_count w) (clock_count w).

Definition set_localStorage (v : gmap string string) (w : World) : World :=
  mkWorld (conversations w) (sessions w) (currentSessionId w) (activeSessionId w)
          (agentId w) (waitingForResponse w) (initialMessages_cache w) v
          (uuid_count w) (clock_count w).

Definition set_uuid_count (v : nat) (w : World) : World :=
  mkWorld (conversations w) (sessions w) (currentSessionId w) (activeSessionId w)
          (agentId w) (waitingForResponse w) (initialMessages_cache w)
          (localStorage w) v (clock_count w).

Definition set_clock_count (v : nat) (w : World) : World :=
  mkWorld (conversations w) (sessions w) (currentSessionId w) (activeSessionId w)
          (agentId w) (waitingForResponse w) (initialMessages_cache w)
          (localStorage w) (uuid_count w) v.

(** ** The environment of the plugin

    What [install] closes over and the library functions it calls:
    the options, the two storage keys of [@n8n/chat/constants], [uuidv4],
    the clock behind [new Date()], [toLocaleString], [JSON], and the caching
    of Vue's [computed]. *)
Record Env : Type := {
  options : ChatOptions.t;
  localStorageSessionIdKey : string;
  localStorageSessionConversationKeys : string;
  (** the [n]-th value returned by [uuidv4()] *)
  uuid_of : nat -> string;
  (** the [n]-th reading of the clock by [new Date()] *)
  clock_of : nat -> Timestamp;
  (** [date.toLocaleString('en-US', {...})] *)
  toLocaleString : Timestamp -> string;
  (** [JSON.parse] at the type the source gives it, [ConversationMeta[]] *)
  JSON_parse : string -> Exc (list ConversationMeta.t);
  (** [JSON.stringify(conversations)] *)
  JSON_stringify : list ConversationMeta.t -> string;
  (** [JSON.stringify(sendMessageResponse, null, 2)] *)
  JSON_stringify_response : SendMessageResponse.t -> Exc string;
  (** Vue's [computed]: whether a read of the ref [initialMessages] on this
      store runs the getter again although a value is cached.  The getter
      reads nothing reactive, and what Vue does with the cached value of
      such a ref is not fixed by the source. *)
  computed_stale : World -> bool
}.

(** ** The resumption monad of [async] functions *)

(** The arguments of a backend call in flight ([options] is the closed-over
    constant of the environment). *)
Record SendCall : Set := mkSendCall {
  send_text : string;
  send_files : list File;
  send_sessionId : string
}.

Record HistoryCall : Set := mkHistoryCall { history_sessionId : string }.

(** How far an operation got: it returned, it threw, or it is suspended at
    an [await] on a backend call.  A suspended operation carries the store
    as it left it and its continuation; the continuation is later given the
    settled promise and the store as it is then. *)
Inductive Outcome (A : Type) : Type :=
| Returned (a : A) (w : World)
| Thrown (e : Error) (w : World)
| AwaitSend (c : SendCall) (w : World)
            (k : Exc SendMessageResponse.t -> World -> Outcome A)
| AwaitHistory (c : HistoryCall) (w : World)
               (k : Exc (option LoadPreviousSessionResponse.t) -> World -> Outcome A).
Arguments Returned {A} a w.
Arguments Thrown {A} e w.
Arguments AwaitSend {A} c w k.
Arguments AwaitHistory {A} c w k.

Definition Async (A : Type) : Type := World -> Outcome A.

Definition ret {A} (a : A) : Async A := fun w => Returned a w.

Definition throw {A} (e : Error) : Async A := fun w => Thrown e w.

Fixpoint bind_outcome {A B} (o : Outcome A) (f : A -> Async B) : Outcome B :=
  match o with
  | Returned a w => f a w
  | Thrown e w => Thrown e w
  | AwaitSend c w k => AwaitSend c w (fun r w' => bind_outcome (k r w') f)
  | AwaitHistory c w k => AwaitHistory c w (fun r w' => bind_outcome (k r w') f)
  end.

Definition bind {A B} (m : Async A) (f : A -> Async B) : Async B :=
  fun w => bind_outcome (m w) f.

(** [try { body } catch (e) { handler }] *)
Fixpoint catch_outcome {A} (o : Outcome A) (h : Error -> Async A) : Outcome A :=
  match o with
  | Returned a w => Returned a w
  | Thrown e w => h e w
  | AwaitSend c w k => AwaitSend c w (fun r w' => catch_outcome (k r w') h)
  | AwaitHistory c w k => AwaitHistory c w (fun r w' => catch_outcome (k r w') h)
  end.

Definition try_catch {A} (body : Async A) (handler : Error -> Async A) : Async A :=
  fun w => catch_outcome (body w) handler.

Declare Scope async_scope.
Delimit Scope async_scope with async.
Notation "x <- c ;; k" := (bind c (fun x => k))
  (at level 100, c at next level, right associativity) : async_scope.
Notation "c ;;; k" := (bind c (fun _ => k))
  (at level 100, right associativity) : async_scope.

Definition read {A} (f : World -> A) : Async A := fun w => Returned (f w) w.

Definition modify (f : World -> World) : Async unit := fun w => Returned tt (f w).

Definition lift_exc {A} (r : Exc A) : Async A :=
  match r with
  | Ok a => ret a
  | Raise e => throw e
  end.

(** [await api.sendMessage(text, files, sessionId, options)] *)
Definition api_sendMessage (text : string) (files : list File) (sessionId : string)
  : Async SendMessageResponse.t :=
  fun w => AwaitSend (mkSendCall text files sessionId) w (fun r w' => lift_exc r w').

(** [await api.loadPreviousSession(sessionId, options)] *)
Definition api_loadPreviousSession (sessionId : string)
  : Async (option LoadPreviousSessionResponse.t) :=
  fun w => AwaitHistory (mkHistoryCall sessionId) w (fun r w' => lift_exc r w').

(** ** JavaScript helpers *)

(** Truthiness of a [string | null]: [null] and [''] are falsy. *)
Definition truthy (v : option string) : bool :=
  match v with
  | Some s => negb (String.eqb s "")
  | None => false
  end.

(** [haystack.includes(needle)] *)
Fixpoint includes (needle haystack : string) : bool :=
  String.prefix needle haystack ||
  match haystack with
  | EmptyString => false
  | String _ rest => includes needle rest
  end.

(** [array.find(p)]: the first element satisfying [p] is [List.find]; an
    assignment to a field of the object it returns updates that element of
    the array in place. *)
Fixpoint update_first {A} (p : A -> bool) (f : A -> A) (l : list A) : list A :=
  match l with
  | [] => []
  | x :: r => if p x then f x :: r else x :: update_first p f r
  end.

(** [array.sort(compare)].  The sort of the language is stable, and for a
    comparator that orders by a key there is exactly one stable result; it
    is computed here by insertion from the right. *)
Fixpoint sort_insert {A} (compare : A -> A -> Z) (x : A) (l : list A) : list A :=
  match l with
  | [] => [x]
  | y :: r => if compare x y <=? 0 then x :: y :: r else y :: sort_insert compare x r
  end.

Fixpoint sort {A} (compare : A -> A -> Z) (l : list A) : list A :=
  match l with
  | [] => []
  | x :: r => sort_insert compare x (sort compare r)
  end.

(** ** The plugin: [ChatPlugin.install] *)

Section ChatPlugin.

Variable E : Env.

Local Open Scope async_scope.

(** [uuidv4()] *)
Definition uuidv4 : Async string :=
  fun w => Returned (uuid_of E (uuid_count w)) (set_uuid_count (S (uuid_count w)) w).

(** [new Date()], kept as the instant it denotes *)
Definition new_Date : Async Timestamp :=
  fun w => Returned (clock_of E (clock_count w)) (set_clock_count (S (clock_count w)) w).

Definition localStorage_getItem (key : string) : Async (option string) :=
  read (fun w => localStorage w !! key).

Definition localStorage_setItem (key value : string) : Async unit :=
  modify (fun w => set_localStorage (<[key := value]> (localStorage w)) w).

(** [sessions.value.set(key, value)] *)
Definition sessions_set (key : string) (value : list ChatMessage.t) : Async unit :=
  modify (fun w => set_sessions (<[key := value]> (sessions w)) w).

(** A read of [activeSessionId.value] at a place where the type checker has
    narrowed it to [string].  No operation ever assigns [null] to the ref
    again (see [active_never_cleared]), so the second branch is dead. *)
Definition activeSessionId_value : Async string :=
  fun w => match activeSessionId w with
           | Some s => Returned s w
           | None => Thrown TypeError w
           end.

Definition generateConversationName : Async string :=
  now <- new_Date ;;
  ret (toLocaleString E now).

Definition getStoredConversations : Async (list ConversationMeta.t) :=
  try_catch
    (stored <- localStorage_getItem (localStorageSessionConversationKeys E) ;;
     match stored with
     | Some s => if truthy stored then lift_exc (JSON_parse E s) else ret []
     | None => ret []
     end)
    (fun error => ret []).

Definition updateStoredConversations (conversations : list ConversationMeta.t)
  : Async unit :=
  localStorage_setItem (localStorageSessionConversationKeys E)
                       (JSON_stringify E conversations).

(** [messages]: the list of the active session, or the empty list *)
Definition messages (w : World) : list ChatMessage.t :=
  match activeSessionId w with
  | Some s => if truthy (Some s) then default [] (sessions w !! s) else []
  | None => []
  end.

(** The getter of the computed ref [initialMessages]. *)
Fixpoint initialMessages_getter (texts : list string) : Async (list ChatMessage.t) :=
  match texts with
  | [] => ret []
  | text :: rest =>
      id <- uuidv4 ;;
      now <- new_Date ;;
      ms <- initialMessages_getter rest ;;
      ret (ChatMessage.mk id text bot None now :: ms)
  end.

(** [initialMessages.value]: the getter runs on the first read, and on a
    later read when Vue holds the cached value to be stale. *)
Definition initialMessages_value : Async (list ChatMessage.t) :=
  cached <- read initialMessages_cache ;;
  stale <- read (computed_stale E) ;;
  let evaluate : Async (list ChatMessage.t) :=
    ms <- initialMessages_getter (default [] (ChatOptions.initialMessages (options E))) ;;
    modify (set_initialMessages_cache (Some ms)) ;;;
    ret ms in
  match cached with
  | Some ms => if stale then evaluate else ret ms
  | None => evaluate
  end.

Definition is_sender (s : Sender) (m : ChatMessage.t) : bool :=
  Sender_eqb (ChatMessage.sender m) s.

Definition conversation_is (sessionId : string) (c : ConversationMeta.t) : bool :=
  String.eqb (ConversationMeta.id c) sessionId.

(** [(a, b) => new Date(b.lastUpdated).getTime() - new Date(a.lastUpdated).getTime()] *)
Definition by_lastUpdated (a b : ConversationMeta.t) : Z :=
  ConversationMeta.lastUpdated b - ConversationMeta.lastUpdated a.

(** [sendMessageResponse.output ?? sendMessageResponse.text ?? ''] *)
Definition response_text (r : SendMessageResponse.t) : string :=
  match SendMessageResponse.output r with
  | Some s => s
  | None => match SendMessageResponse.text r with
            | Some s => s
            | None => ""
            end
  end.

(** [Object.keys(sendMessageResponse)] *)
Definition Object_keys (r : SendMessageResponse.t) : list string :=
  match SendMessageResponse.output r with Some _ => ["output"] | None => [] end ++
  match SendMessageResponse.text r with Some _ => ["text"] | None => [] end ++
  SendMessageResponse.otherKeys r.

(** The two [nextTick] callbacks that emit ['scrollToBottom'] on the event
    bus touch nothing of the store and are left out. *)
Definition sendMessage (text : string) (files : list File) : Async unit :=
  active <- read activeSessionId ;;
  if negb (truthy active) then ret tt else
  id <- uuidv4 ;;
  createdAt <- new_Date ;;
  let sentMessage := ChatMessage.mk id text user (Some files) createdAt in
  (* Update the specific session's messages *)
  key <- activeSessionId_value ;;
  sessionMessages <- read (fun w => default [] (sessions w !! key)) ;;
  let updatedMessages := sessionMessages ++ [sentMessage] in
  key <- activeSessionId_value ;;
  sessions_set key updatedMessages ;;;
  modify (set_waitingForResponse true) ;;;
  sessionId <- activeSessionId_value ;;
  sendMessageResponse <- api_sendMessage text files sessionId ;;
  let textMessage := response_text sendMessageResponse in
  textMessage <-
    (if String.eqb textMessage "" && (0 <? length (Object_keys sendMessageResponse))%nat
     then try_catch (lift_exc (JSON_stringify_response E sendMessageResponse))
                    (fun e => ret textMessage)
     else ret textMessage) ;;
  id <- uuidv4 ;;
  createdAt <- new_Date ;;
  let receivedMessage := ChatMessage.mk id textMessage bot None createdAt in
  (* Update messages with bot response *)
  let finalMessages := updatedMessages ++ [receivedMessage] in
  key <- activeSessionId_value ;;
  sessions_set key finalMessages ;;;
  (* Check if this session should be added to conversations *)
  let messageStats :=
    ConversationMeta.mkCount (length (List.filter (is_sender user) finalMessages))
                             (length (List.filter (is_sender bot) finalMessages)) in
  (if (0 <? ConversationMeta.user messageStats)%nat
      && (0 <? ConversationMeta.bot messageStats)%nat
   then
     key <- activeSessionId_value ;;
     existingConversation <- read (fun w => List.find (conversation_is key) (conversations w)) ;;
     match existingConversation with
     | Some _ =>
         (* Update existing conversation *)
         lastUpdated <- new_Date ;;
         modify (fun w => set_conversations
           (update_first (conversation_is key)
              (fun c => ConversationMeta.mk (ConversationMeta.id c) (ConversationMeta.name c)
                                            lastUpdated messageStats)
              (conversations w)) w)
     | None =>
         (* Add new conversation *)
         id <- activeSessionId_value ;;
         name <- generateConversationName ;;
         lastUpdated <- new_Date ;;
         modify (fun w => set_conversations
           (conversations w ++ [ConversationMeta.mk id name lastUpdated messageStats]) w)
     end ;;;
     (* Sort conversations by last updated *)
     modify (fun w => set_conversations (sort by_lastUpdated (conversations w)) w) ;;;
     (* Store updated conversations *)
     cs <- read conversations ;;
     updateStoredConversations cs
   else ret tt) ;;;
  modify (set_waitingForResponse false).

(** [`${options.agentId ? options.agentId + '-' : ''}${sessionId}`] *)
Definition history_key (sessionId : string) : string :=
  String.append
    (match ChatOptions.agentId (options E) with
     | Some a => if truthy (Some a) then String.append a "-" else ""
     | None => ""
     end)
    sessionId.

(** [(previousMessagesResponse?.data || []).map((message, index) => ...)] *)
Definition history_messages (previousMessagesResponse : option LoadPreviousSessionResponse.t)
           (timestamp : Timestamp) : list ChatMessage.t :=
  imap (fun index message =>
          ChatMessage.mk (pretty index)
                         (LoadedMessage.content (LoadedMessage.kwargs message))
                         (if includes "HumanMessage" (LoadedMessage.id message)
                          then user else bot)
                         None
                         timestamp)
       (default [] (previousMessagesResponse ≫= LoadPreviousSessionResponse.data)).

Definition switchSession (sessionId : string) : Async (option string) :=
  modify (set_activeSessionId (Some sessionId)) ;;;
  modify (set_currentSessionId (Some sessionId)) ;;;
  has <- read (fun w => bool_decide (is_Some (sessions w !! sessionId))) ;;
  if negb has then
    sessions_set sessionId [] ;;;
    modify (set_waitingForResponse true) ;;;
    previousMessagesResponse <- api_loadPreviousSession (history_key sessionId) ;;
    modify (set_waitingForResponse false) ;;;
    timestamp <- new_Date ;;
    let sessionMessages := history_messages previousMessagesResponse timestamp in
    sessions_set sessionId sessionMessages ;;;
    ret (Some sessionId)
  else
    ret None.

Definition loadConversation (conversationId : string) : Async unit :=
  switchSession conversationId ;;;
  conversation <- read (fun w => List.find (conversation_is conversationId) (conversations w)) ;;
  match conversation with
  | Some _ =>
      (* Update last accessed time *)
      lastUpdated <- new_Date ;;
      modify (fun w => set_conversations
        (update_first (conversation_is conversationId)
           (fun c => ConversationMeta.mk (ConversationMeta.id c) (ConversationMeta.name c)
                                         lastUpdated (ConversationMeta.messageCount c))
           (conversations w)) w) ;;;
      cs <- read conversations ;;
      updateStoredConversations cs
  | None => ret tt
  end.

Definition startNewSession : Async unit :=
  newSessionId <- uuidv4 ;;
  modify (set_activeSessionId (Some newSessionId)) ;;;
  modify (set_currentSessionId (Some newSessionId)) ;;;
  (* Initialize empty message list for new session *)
  seed <- initialMessages_value ;;
  sessions_set newSessionId seed ;;;
  (* Update localStorage *)
  localStorage_setItem (localStorageSessionIdKey E) newSessionId.

(** [return await switchSession(sessionId)] is the [bind] with [ret]. *)
Definition loadPreviousSession : Async (option string) :=
  if negb (default false (ChatOptions.loadPreviousSession (options E))) then ret None else
  (* If no valid previous session, start a new one *)
  let otherwise : Async (option string) := startNewSession ;;; ret None in
  sessionId <- localStorage_getItem (localStorageSessionIdKey E) ;;
  match sessionId with
  | Some s =>
      if truthy sessionId then
        (* Check if this session exists in our conversations *)
        storedConversations <- getStoredConversations ;;
        match List.find (conversation_is s) storedConversations with
        | Some _ =>
            (* Load stored conversations into state *)
            modify (set_conversations storedConversations) ;;;
            (* Load the specific session *)
            r <- switchSession s ;;
            ret r
        | None => otherwise
        end
      else otherwise
  | None => otherwise
  end.

Definition getCurrentSessionId (w : World) : option string := currentSessionId w.

(** The refs as [install] creates them, over a given [localStorage]. *)
Definition fresh_refs (storage : gmap string string) : World :=
  mkWorld [] ∅ None None None false None storage 0 0.

(** The body of [install]: the registry is loaded from storage. *)
Definition install : Async unit :=
  cs <- getStoredConversations ;;
  modify (set_conversations cs).

End ChatPlugin.

(** ** Running operations *)

(** The store an outcome leaves behind. *)
Definition world_of {A} (o : Outcome A) : World :=
  match o with
  | Returned _ w | Thrown _ w | AwaitSend _ w _ | AwaitHistory _ w _ => w
  end.

(** The backend settles the pending call of a suspended operation with [r]
    while the store is [w']. *)
Definition resume_send {A} (o : Outcome A) (r : Exc SendMessageResponse.t) (w' : World)
  : Outcome A :=
  match o with
  | AwaitSend _ _ k => k r w'
  | _ => o
  end.

Definition resume_history {A} (o : Outcome A)
           (r : Exc (option LoadPreviousSessionResponse.t)) (w' : World) : Outcome A :=
  match o with
  | AwaitHistory _ _ k => k r w'
  | _ => o
  end.

(** An operation that runs to normal completion with nothing else touching
    the store in between: each backend call it awaits resolves, and it is
    resumed on the store it left. *)
Inductive completes {A} : Outcome A -> A -> World -> Prop :=
| completes_returned a w : completes (Returned a w) a w
| completes_send c w k r a w' :
    completes (k (Ok r) w) a w' -> completes (AwaitSend c w k) a w'
| completes_history c w k r a w' :
    completes (k (Ok r) w) a w' -> completes (AwaitHistory c w k) a w'.

(** [R] relates the store at the start of every synchronous stretch of the
    operation to the store at its end, whatever the backend answers and
    whatever store the operation is resumed on. *)
Fixpoint segments {A} (R : World -> World -> Prop) (w0 : World) (o : Outcome A) : Prop :=
  match o with
  | Returned _ w | Thrown _ w => R w0 w
  | AwaitSend _ w k => R w0 w /\ forall r w', segments R w' (k r w')
  | AwaitHistory _ w k => R w0 w /\ forall r w', segments R w' (k r w')
  end.

(** Two outcomes that behave alike: same result or same pending call on the
    same store, and continuations that behave alike on every input. *)
Fixpoint outcome_equiv {A} (o1 o2 : Outcome A) : Prop :=
  match o1, o2 with
  | Returned a1 w1, Returned a2 w2 => a1 = a2 /\ w1 = w2
  | Thrown e1 w1, Thrown e2 w2 => e1 = e2 /\ w1 = w2
  | AwaitSend c1 w1 k1, AwaitSend c2 w2 k2 =>
      c1 = c2 /\ w1 = w2 /\ forall r w', outcome_equiv (k1 r w') (k2 r w')
  | AwaitHistory c1 w1 k1, AwaitHistory c2 w2 k2 =>
      c1 = c2 /\ w1 = w2 /\ forall r w', outcome_equiv (k1 r w') (k2 r w')
  | _, _ => False
  end.

(** The operations the store exposes. *)
Inductive Operation : Set :=
| SendMessage (text : string) (files : list File)
| SwitchSession (sessionId : string)
| LoadConversation (conversationId : string)
| LoadPreviousSession
| StartNewSession.

Definition run (E : Env) (op : Operation) : Async unit :=
  match op with
  | SendMessage text files => sendMessage E text files
  | SwitchSession sessionId => bind (switchSession E sessionId) (fun _ => ret tt)
  | LoadConversation conversationId => loadConversation E conversationId
  | LoadPreviousSession => bind (loadPreviousSession E) (fun _ => ret tt)
  | StartNewSession => startNewSession E
  end.

(** *** The event loop

    Operations may overlap: a user action can start an operation while the
    backend call of another one is still in flight.  A configuration is the
    store together with the suspended operations. *)

Inductive Pending : Type :=
| PendingSend (c : SendCall) (k : Exc SendMessageResponse.t -> World -> Outcome unit)
| PendingHistory (c : HistoryCall)
                 (k : Exc (option LoadPreviousSessionResponse.t) -> World -> Outcome unit).

Definition suspended (o : Outcome unit) : list Pending :=
  match o with
  | AwaitSend c _ k => [PendingSend c k]
  | AwaitHistory c _ k => [PendingHistory c k]
  | Returned _ _ | Thrown _ _ => []
  end.

Definition Config : Type := World * list Pending.

(** One task of the event loop: a call of a store operation, or the
    settlement (resolution or rejection) of a backend call in flight. *)
Inductive step (E : Env) : Config -> Config -> Prop :=
| step_call w ps op :
    step E (w, ps) (world_of (run E op w), suspended (run E op w) ++ ps)
| step_send_settles w ps i c k r :
    ps !! i = Some (PendingSend c k) ->
    step E (w, ps) (world_of (k r w), suspended (k r w) ++ delete i ps)
| step_history_settles w ps i c k r :
    ps !! i = Some (PendingHistory c k) ->
    step E (w, ps) (world_of (k r w), suspended (k r w) ++ delete i ps).

(** Configurations reached from the installation of the plugin over some
    [localStorage]. *)
Inductive reachable (E : Env) : Config -> Prop :=
| reachable_installed storage :
    reachable E (world_of (install E (fresh_refs storage)), [])
| reachable_step cfg cfg' :
    reachable E cfg -> step E cfg cfg' -> reachable E cfg'.

(** Stores reached when the operations are called one after the other,
    each running to normal completion before the next one starts. *)
Inductive reachable_in_sequence (E : Env) : World -> Prop :=
| in_sequence_installed storage :
    reachable_in_sequence E (world_of (install E (fresh_refs storage)))
| in_sequence_call w op w' :
    reachable_in_sequence E w -> completes (run E op w) tt w' ->
    reachable_in_sequence E w'.

(** *** Ids a caller can hold

    [uuidv4] is a library function: that the value it returns is not in the
    session map follows from its never returning an id twice only if nobody
    hands the store an id that [uuidv4] has yet to return. *)

(** The ids a caller of the store can hold when [uuidv4] has been called
    [n] times: those it has returned so far, and the strings it never
    returns (ids of earlier page loads, ids chosen by the embedding page). *)
Definition known_id (E : Env) (n : nat) (s : string) : Prop :=
  (exists i, (i < n)%nat /\ s = uuid_of E i) \/ (forall i, uuid_of E i <> s).



(** Every id the store holds is one a caller can hold: the keys of the
    session map, the active session, the last-session id in storage. *)
Definition ids_known (E : Env) (w : World) : Prop :=
  (forall s, is_Some (sessions w !! s) -> known_id E (uuid_count w) s) /\
  (forall s, activeSessionId w = Some s -> known_id E (uuid_count w) s) /\
  (forall s, localStorage w !! localStorageSessionIdKey E = Some s ->
             known_id E (uuid_count w) s).

(** A stretch that starts when [uuidv4] has been called [n] times or more
    on a store whose ids are known ends on such a store. *)
Definition keeps_ids_known (E : Env) (n : nat) (a b : World) : Prop :=
  (n <= uuid_count a)%nat -> ids_known E a ->
  ids_known E b /\ (uuid_count a <= uuid_count b)%nat.

(** ** Properties of the store *)

(** [needle] occurs in [haystack]. *)
Definition is_substring (needle haystack : string) : Prop :=
  exists before after, haystack = String.append before (String.append needle after).

(** The registry is sorted by [lastUpdated], most recent first. *)
Definition recency_sorted (l : list ConversationMeta.t) : Prop :=
  StronglySorted
    (fun a b => (ConversationMeta.lastUpdated b <= ConversationMeta.lastUpdated a)%Z) l.

(** No two summaries of the registry share a session id. *)
Definition unique_ids (l : list ConversationMeta.t) : Prop :=
  NoDup (map ConversationMeta.id l).

(** The registry holds a summary of session [sessionId]. *)
Definition has_summary (w : World) (sessionId : string) : Prop :=
  exists c, In c (conversations w) /\ ConversationMeta.id c = sessionId.

(** The in-memory list of session [sessionId] holds a message of each
    sender. *)
Definition has_exchange (w : World) (sessionId : string) : Prop :=
  exists l, sessions w !! sessionId = Some l /\
            (exists m, In m l /\ ChatMessage.sender m = user) /\
            (exists m, In m l /\ ChatMessage.sender m = bot).

(** The registry in memory is the one [getStoredConversations] reads from
    [localStorage]. *)
Definition stored_in_sync (E : Env) (w : World) : Prop :=
  getStoredConversations E w = Returned (conversations w) w.

(** The page is reloaded: the plugin is installed anew over the
    [localStorage] the store has written. *)
Definition reloaded (E : Env) (w : World) : World :=
  world_of (install E (fresh_refs (localStorage w))).

(** What a suspended operation does when its backend call is rejected with
    [e] while the store is [w']. *)
Definition rejected {A} (o : Outcome A) (e : Error) (w' : World) : Outcome A :=
  match o with
  | AwaitSend _ _ k => k (Raise e) w'
  | AwaitHistory _ _ k => k (Raise e) w'
  | Returned _ _ | Thrown _ _ => o
  end.

(** *** Closed forms

    What the operations compute, written out; each is proved to be what the
    operation does in the section on running the operations. *)

(** Bot messages for [texts] that take their ids from [uuidv4] calls number
    [uc], [uc + 1], ... and their timestamps from clock readings number
    [cc], [cc + 1], ... *)
Definition stamped (E : Env) (uc cc : nat) (texts : list string) : list ChatMessage.t :=
  imap (fun i text =>
          ChatMessage.mk (uuid_of E (uc + i)) text bot None (clock_of E (cc + i)))
       texts.

(** The value of [initialMessages] that [startNewSession], called on [w],
    finds cached and not stale, if any: Vue decides on the store as it is
    when the ref is read, after the id was drawn and the two pointers were
    set. *)
Definition reused_seed (E : Env) (w : World) : option (list ChatMessage.t) :=
  match initialMessages_cache w with
  | Some ms =>
      if computed_stale E
           (set_currentSessionId (Some (uuid_of E (uuid_count w)))
              (set_activeSessionId (Some (uuid_of E (uuid_count w)))
                 (set_uuid_count (S (uuid_count w)) w)))
      then None else Some ms
  | None => None
  end.

(** The text of the bot reply that [sendMessage] builds from a response. *)
Definition reply_text (E : Env) (response : SendMessageResponse.t) : string :=
  let textMessage := response_text response in
  if String.eqb textMessage "" && (0 <? length (Object_keys response))%nat
  then match JSON_stringify_response E response with
       | Ok s => s
       | Raise _ => textMessage
       end
  else textMessage.

(** The message counts [sendMessage] records for a list of messages. *)
Definition count_senders (l : list ChatMessage.t) : ConversationMeta.MessageCount :=
  ConversationMeta.mkCount (length (List.filter (is_sender user) l))
                           (length (List.filter (is_sender bot) l)).

(** The registry after [sendMessage] has recorded an exchange of session
    [sessionId], the clock having been read [cc] times before. *)
Definition registry_after_exchange (E : Env) (sessionId : string)
           (stats : ConversationMeta.MessageCount) (cc : nat)
           (registry : list ConversationMeta.t) : list ConversationMeta.t :=
  sort by_lastUpdated
    match List.find (conversation_is sessionId) registry with
    | Some _ =>
        update_first (conversation_is sessionId)
          (fun c => ConversationMeta.mk (ConversationMeta.id c) (ConversationMeta.name c)
                                        (clock_of E cc) stats)
          registry
    | None =>
        registry ++ [ConversationMeta.mk sessionId (toLocaleString E (clock_of E cc))
                                         (clock_of E (S cc)) stats]
    end.

(** The store after [loadConversation] has refreshed the summary of
    [conversationId], if the registry has one. *)
Definition refreshed (E : Env) (conversationId : string) (w : World) : World :=
  match List.find (conversation_is conversationId) (conversations w) with
  | Some _ =>
      let registry :=
        update_first (conversation_is conversationId)
          (fun c => ConversationMeta.mk (ConversationMeta.id c) (ConversationMeta.name c)
                                        (clock_of E (clock_count w))
                                        (ConversationMeta.messageCount c))
          (conversations w) in
      set_localStorage
        (<[localStorageSessionConversationKeys E := JSON_stringify E registry]>
           (localStorage w))
        (set_conversations registry (set_clock_count (S (clock_count w)) w))
  | None => w
  end.

(** The continuation of a suspended operation keeps to [R]. *)
Definition pending_keeps (R : World -> World -> Prop) (p : Pending) : Prop :=
  match p with
  | PendingSend _ k => forall r w', segments R w' (k r w')
  | PendingHistory _ k => forall r w', segments R w' (k r w')
  end.

(** How a resumed operation leaves [waitingForResponse]: cleared when it
    returns; it does not await a second time. *)
Definition flag_cleared {A} (o : Outcome A) : Prop :=
  match o with
  | Returned _ w3 => waitingForResponse w3 = false
  | Thrown _ _ => True
  | AwaitSend _ _ _ | AwaitHistory _ _ _ => False
  end.

(** The use an operation started on [w] makes of [waitingForResponse]: an
    operation that returns without a backend call leaves the flag as it
    found it; an operation that awaits a backend call has the flag set
    while the call is in flight and, on whatever store it is resumed, either
    returns with the flag cleared or throws; it does return when the call
    resolves (and the active session pointer is set, as it is ever after
    its first assignment). *)
Definition flag_discipline {A} (w : World) (o : Outcome A) : Prop :=
  match o with
  | Returned _ w' => waitingForResponse w' = waitingForResponse w
  | Thrown _ _ => False
  | AwaitSend _ w1 k =>
      waitingForResponse w1 = true /\
      forall r w2,
        flag_cleared (k r w2) /\
        (forall v, r = Ok v -> is_Some (activeSessionId w2) ->
                   exists a w3, k r w2 = Returned a w3)
  | AwaitHistory _ w1 k =>
      waitingForResponse w1 = true /\
      forall r w2,
        flag_cleared (k r w2) /\
        (forall v, r = Ok v -> is_Some (activeSessionId w2) ->
                   exists a w3, k r w2 = Returned a w3)
  end.

(** The backend answers the pending call of a suspended operation before
    anything else touches the store. *)
Definition answered_send {A} (o : Outcome A) (r : SendMessageResponse.t) : Outcome A :=
  resume_send o (Ok r) (world_of o).

Definition answered_history {A} (o : Outcome A)
           (r : option LoadPreviousSessionResponse.t) : Outcome A :=
  resume_history o (Ok r) (world_of o).

(** C10 read literally: whenever an operation of the store has completed
    normally, the flag is false. *)
Definition flag_false_after_every_operation (E : Env) : Prop :=
  forall cfg op w',
    reachable E cfg -> completes (run E op cfg.1) tt w' ->
    waitingForResponse w' = false.

(** C3 as the specification words it: in every reachable store, the
    registry has a summary of a session exactly when the in-memory list of
    the session holds a message of each sender. *)
Definition summary_iff_exchange (E : Env) : Prop :=
  forall cfg,
    reachable E cfg ->
    forall sessionId, has_summary cfg.1 sessionId <-> has_exchange cfg.1 sessionId.

(** C4 as the specification words it, for the seeded messages: every
    message that a call of [startNewSession] seeds has an id that [uuidv4]
    generated during the call and a timestamp that was read off the clock
    during the call. *)
Definition seeds_stamped_in_each_call (E : Env) : Prop :=
  forall cfg,
    reachable E cfg ->
    forall w' sessionId seed,
      startNewSession E cfg.1 = Returned tt w' ->
      activeSessionId w' = Some sessionId ->
      sessions w' !! sessionId = Some seed ->
      forall m,
        In m seed ->
        (exists i, (uuid_count cfg.1 <= i < uuid_count w')%nat
                   /\ ChatMessage.id m = uuid_of E i) /\
        (exists j, (clock_count cfg.1 <= j < clock_count w')%nat
                   /\ ChatMessage.createdAt m = clock_of E j).

(** ** The conversation switcher (components/ConversationSwitcher.vue)

    The component that uses the store: it shows the name of the current
    conversation, lists the registry, and calls [startNewSession] and
    [loadConversation]. *)

(** The state of the component: whether the dropdown is open. *)
Record Switcher : Set := mkSwitcher { isOpen : bool }.

(** The button of the current conversation: [isOpen = !isOpen]. *)
Definition toggle (sw : Switcher) : Switcher := mkSwitcher (negb (isOpen sw)).

(** The computed [currentConversationName].  [conversations] is a ref of
    the store holding an array, so [!conversations?.value] is false. *)
Definition currentConversationName (w : World) : string :=
  match currentSessionId w with
  | Some s =>
      if truthy (Some s) then
        match List.find (conversation_is s) (conversations w) with
        | Some currentConv => ConversationMeta.name currentConv
        | None => "New Chat"
        end
      else "New Chat"
  | None => "New Chat"
  end.

(** [:class="{ active: conv.id === currentSessionId }"] *)
Definition item_active (w : World) (conv : ConversationMeta.t) : bool :=
  match currentSessionId w with
  | Some s => String.eqb (ConversationMeta.id conv) s
  | None => false
  end.

(** [{{ conv.messageCount.user + conv.messageCount.bot }} messages] *)
Definition item_count (conv : ConversationMeta.t) : nat :=
  (ConversationMeta.user (ConversationMeta.messageCount conv)
   + ConversationMeta.bot (ConversationMeta.messageCount conv))%nat.

(** The two handlers close the dropdown and then await the store; both
    operations are always provided by this store.  The first component is
    the component after the synchronous part, the second the awaited
    operation. *)
Definition handleNewChat (E : Env) (sw : Switcher) : Switcher * Async unit :=
  (mkSwitcher false, startNewSession E).

Definition handleLoadConversation (E : Env) (id : string) (sw : Switcher)
  : Switcher * Async unit :=
  (mkSwitcher false, loadConversation E id).

(** ** A concrete environment for the examples *)

Definition example_options : ChatOptions.t :=
  ChatOptions.mk (Some ["Hi there!"; "How can I help?"]) (Some true) None.

Definition example_registry : list ConversationMeta.t :=
  [ConversationMeta.mk "s-1" "Jan 1, 2025, 9:00 AM" 500 (ConversationMeta.mkCount 1 1)].

(** A stand-in for [JSON] in the examples: [parse] knows the texts of the
    empty registry and of [example_registry] and rejects every other text,
    [stringify] writes the ids. *)
Definition example_parse (s : string) : Exc (list ConversationMeta.t) :=
  if String.eqb s "[]" then Ok []
  else if String.eqb s "[s-1]" then Ok example_registry
  else Raise SyntaxError.

Definition example_stringify (l : list ConversationMeta.t) : string :=
  String.append "[" (String.append (String.concat "," (map ConversationMeta.id l)) "]").

Definition example_stringify_response (r : SendMessageResponse.t) : Exc string :=
  if bool_decide ("cyclic" ∈ SendMessageResponse.otherKeys r) then Raise TypeError
  else Ok (String.append "{" (String.append (String.concat "," (Object_keys r)) "}")).

(** The environment of the examples; its [computed] keeps the value of the
    first evaluation. *)
Definition example_env : Env := {|
  options := example_options;
  localStorageSessionIdKey := "n8n-chat/sessionId";
  localStorageSessionConversationKeys := "n8n-chat/conversations";
  uuid_of := fun n => String.append "uuid-" (pretty n);
  clock_of := fun n => 1000 * Z.of_nat (S n);
  toLocaleString := fun t => String.append "t=" (pretty t);
  JSON_parse := example_parse;
  JSON_stringify := example_stringify;
  JSON_stringify_response := example_stringify_response;
  computed_stale := fun _ => false
|}.




(** The store of a first-time visitor. *)
Definition example_installed : World :=
  world_of (install example_env (fresh_refs ∅)).

(** A history with a message of each sender. *)
Definition example_history : option LoadPreviousSessionResponse.t :=
  Some (LoadPreviousSessionResponse.mk
          (Some [LoadedMessage.mk "HumanMessage-1" (LoadedMessage.mkKwargs "hey");
                 LoadedMessage.mk "AIMessage-2" (LoadedMessage.mkKwargs "hello")])).

(** [switchSession("s-9")], answered with that history. *)
Definition example_history_loaded : World :=
  world_of (answered_history (run example_env (SwitchSession "s-9") example_installed)
                             example_history).

(** [startNewSession()], twice in a row. *)
Definition example_first_session : World :=
  world_of (startNewSession example_env example_installed).

Definition example_second_session : World :=
  world_of (startNewSession example_env example_first_session).

Definition example_reply (text : string) : SendMessageResponse.t :=
  SendMessageResponse.mk None (Some text) [].

(** [sendMessage("hi")] in the first session, and while its backend call is
    in flight the user starts a new session; then the reply arrives. *)
Definition example_send_in_flight : Outcome unit :=
  sendMessage example_env "hi" [] example_first_session.

Definition example_navigated_away : World :=
  world_of (startNewSession example_env (world_of example_send_in_flight)).

Definition example_late_reply : World :=
  world_of (resume_send example_send_in_flight (Ok (example_reply "hello"))
                        example_navigated_away).

(** [sendMessage("hi")] in the first session, and the backend rejects the
    call. *)
Definition example_send_rejected : World :=
  world_of (rejected example_send_in_flight (Rejected "503")
                     (world_of example_send_in_flight)).

(** Two sessions with one exchange each, one after the other, and then
    [loadConversation] on the first one. *)
Definition example_first_exchange : World :=
  world_of (answered_send (sendMessage example_env "hi" [] example_first_session)
                          (example_reply "hello")).

Definition example_second_exchange : World :=
  world_of (answered_send
              (sendMessage example_env "yo" []
                 (world_of (startNewSession example_env example_first_exchange)))
              (example_reply "hey")).

Definition example_first_reopened : World :=
  world_of (loadConversation example_env "uuid-0" example_second_exchange).

(** A second session, started after the first one has had its exchange. *)
Definition example_second_started : World :=
  world_of (startNewSession example_env example_first_exchange).

(** A store whose active session is ["s-1"]. *)
Definition example_open_session : World :=
  set_activeSessionId (Some "s-1") (fresh_refs ∅).

(** A reply without [output] and [text] that [JSON.stringify] rejects. *)
Definition example_unserialisable : SendMessageResponse.t :=
  SendMessageResponse.mk None None ["cyclic"].

(** The refs of a visitor whose browser holds a registry with one summary
    and the id of that session as the last one. *)
Definition example_returning_visitor : World :=
  fresh_refs {[ "n8n-chat/conversations" := "[s-1]"; "n8n-chat/sessionId" := "s-1" ]}.

(** Registries can be numbered. *)
#[global] Instance MessageCount_eq_dec : EqDecision ConversationMeta.MessageCount.
Proof. solve_decision. Defined.

#[global] Instance ConversationMeta_eq_dec : EqDecision ConversationMeta.t.
Proof. solve_decision. Defined.

#[global] Instance ConversationMeta_countable : Countable ConversationMeta.t.
Proof.
  apply (inj_countable'
           (fun c => (ConversationMeta.id c, ConversationMeta.name c,
                      ConversationMeta.lastUpdated c,
                      ConversationMeta.user (ConversationMeta.messageCount c),
                      ConversationMeta.bot (ConversationMeta.messageCount c)))
           (fun t => match t with
                     | (i, n, l, u, b) =>
                         ConversationMeta.mk i n l (ConversationMeta.mkCount u b)
                     end)).
  by intros [i n l [u b]].
Defined.

(** A second stand-in for [JSON], faithful on every registry: [stringify]
    writes the number of the registry in decimal after a ['#'], [parse] reads
    it back. *)
Definition codec_stringify (l : list ConversationMeta.t) : string :=
  String.append "#" (DecimalString.NilEmpty.string_of_uint (Pos.to_uint (encode l))).

Definition codec_parse (s : string) : Exc (list ConversationMeta.t) :=
  match s with
  | String _ digits =>
      match DecimalString.NilEmpty.uint_of_string digits with
      | Some d =>
          match Pos.of_uint d with
          | Npos p => match decode p with Some l => Ok l | None => Raise SyntaxError end
          | N0 => Raise SyntaxError
          end
      | None => Raise SyntaxError
      end
  | EmptyString => Raise SyntaxError
  end.

Definition codec_env : Env := {|
  options := example_options;
  localStorageSessionIdKey := "n8n-chat/sessionId";
  localStorageSessionConversationKeys := "n8n-chat/conversations";
  uuid_of := fun n => String.append "uuid-" (pretty n);
  clock_of := fun n => 1000 * Z.of_nat (S n);
  toLocaleString := fun t => String.append "t=" (pretty t);
  JSON_parse := codec_parse;
  JSON_stringify := codec_stringify;
  JSON_stringify_response := example_stringify_response;
  computed_stale := fun _ => false
|}.

(** A first-time visitor of a page with that environment starts a session
    and sends a message; the backend has not answered yet. *)
Definition codec_installed : World :=
  world_of (install codec_env (fresh_refs ∅)).

Definition codec_started : World :=
  world_of (run codec_env StartNewSession codec_installed).

Definition codec_send_in_flight : Config :=
  (world_of (run codec_env (SendMessage "hi" []) codec_started),
   suspended (run codec_env (SendMessage "hi" []) codec_started) ++ []).

(** * Verification *)

(** ** Strings *)

Lemma prefix_append (needle haystack : string) :
  String.prefix needle haystack = true <->
  exists after, haystack = String.append needle after.
Proof.
  revert haystack. induction needle as [|a needle IH]; intros haystack.
  - split; [intros _; by exists haystack | intros _; by destruct haystack].
  - destruct haystack as [|b haystack]; simpl.
    + split; [done | intros [after H]; discriminate H].
    + destruct (Ascii.ascii_dec a b) as [->|Hab].
      * rewrite IH. split; intros [after H]; exists after; [by rewrite H | by injection H].
      * split; [done | intros [after H]; injection H as H1 H2; done].
Qed.

Lemma includes_unfold (needle haystack : string) :
  includes needle haystack =
  String.prefix needle haystack ||
  match haystack with
  | EmptyString => false
  | String _ rest => includes needle rest
  end.
Proof. by destruct haystack. Qed.

Lemma includes_is_substring (needle haystack : string) :
  includes needle haystack = true <-> is_substring needle haystack.
Proof.
  unfold is_substring. split.
  - induction haystack as [|c rest IH]; rewrite includes_unfold;
      intros [H|H]%orb_true_iff.
    + apply prefix_append in H as [after H]. by exists "", after.
    + done.
    + apply prefix_append in H as [after H]. by exists "", after.
    + destruct (IH H) as (before & after & ->). by exists (String c before), after.
  - intros (before & after & ->).
    induction before as [|c before IH]; rewrite includes_unfold; apply orb_true_iff.
    + left. apply prefix_append. by exists after.
    + right. exact IH.
Qed.

(** ** Sorting and in-place updates of the registry *)

Lemma sort_insert_Permutation {A} (compare : A -> A -> Z) x l :
  Permutation (sort_insert compare x l) (x :: l).
Proof.
  induction l as [|y r IH]; simpl; [done|].
  destruct (compare x y <=? 0); [done|].
  rewrite IH. apply perm_swap.
Qed.

Lemma sort_Permutation {A} (compare : A -> A -> Z) l :
  Permutation (sort compare l) l.
Proof.
  induction l as [|x r IH]; simpl; [done|].
  rewrite sort_insert_Permutation. by constructor.
Qed.

Lemma sort_insert_recency_sorted x l :
  recency_sorted l -> recency_sorted (sort_insert by_lastUpdated x l).
Proof.
  unfold recency_sorted.
  induction 1 as [|y r Hr IH Hy]; simpl.
  - repeat constructor.
  - unfold by_lastUpdated at 1. destruct (Z.leb_spec (ConversationMeta.lastUpdated y - ConversationMeta.lastUpdated x) 0) as [Hle|Hgt].
    + constructor; [by constructor|].
      constructor; [lia|].
      eapply Forall_impl; [exact Hy|]. simpl. intros; lia.
    + constructor; [exact IH|].
      eapply Permutation_Forall; [symmetry; apply sort_insert_Permutation|].
      constructor; [lia | exact Hy].
Qed.

Lemma sort_recency_sorted l : recency_sorted (sort by_lastUpdated l).
Proof.
  induction l as [|x r IH]; simpl; [constructor|].
  by apply sort_insert_recency_sorted.
Qed.

Lemma sort_unique_ids l : unique_ids l -> unique_ids (sort by_lastUpdated l).
Proof.
  unfold unique_ids. intros H.
  eapply NoDup_Permutation_proper; [|exact H].
  apply Permutation_map, sort_Permutation.
Qed.

Lemma sort_In l (c : ConversationMeta.t) : In c (sort by_lastUpdated l) <-> In c l.
Proof.
  split; apply Permutation_in; [|symmetry]; apply sort_Permutation.
Qed.

Lemma update_first_ids p (f : ConversationMeta.t -> ConversationMeta.t) l :
  (forall c, ConversationMeta.id (f c) = ConversationMeta.id c) ->
  map ConversationMeta.id (update_first p f l) = map ConversationMeta.id l.
Proof.
  intros Hf. induction l as [|x r IH]; simpl; [done|].
  destruct (p x); simpl; [by rewrite Hf | by rewrite IH].
Qed.

Lemma find_conversation_Some sessionId l c :
  List.find (conversation_is sessionId) l = Some c ->
  In c l /\ ConversationMeta.id c = sessionId.
Proof.
  intros H. apply find_some in H as [Hin Hid].
  split; [done|]. by apply String.eqb_eq.
Qed.

Lemma find_conversation_None sessionId l :
  List.find (conversation_is sessionId) l = None ->
  ~ In sessionId (map ConversationMeta.id l).
Proof.
  intros H [c [Hid Hin]]%in_map_iff.
  pose proof (find_none _ _ H c Hin) as Hc.
  unfold conversation_is in Hc. rewrite Hid, String.eqb_refl in Hc. done.
Qed.

(** ** Running the operations *)

(** Unfolds the monad and the accessors of the store, and nothing else. *)
Ltac async_simpl :=
  cbn beta iota zeta delta
    [bind bind_outcome catch_outcome try_catch ret throw read modify lift_exc
     uuidv4 new_Date localStorage_getItem localStorage_setItem sessions_set
     activeSessionId_value generateConversationName updateStoredConversations
     api_sendMessage api_loadPreviousSession
     set_conversations set_sessions set_currentSessionId set_activeSessionId
     set_waitingForResponse set_initialMessages_cache set_localStorage
     set_uuid_count set_clock_count
     conversations sessions currentSessionId activeSessionId agentId
     waitingForResponse initialMessages_cache localStorage uuid_count clock_count
     world_of resume_send resume_history suspended negb].

(** The same by full evaluation, for goals without continuations. *)
Ltac async_eval :=
  cbv beta iota zeta delta
    [bind bind_outcome catch_outcome try_catch ret throw read modify lift_exc
     uuidv4 new_Date localStorage_getItem localStorage_setItem sessions_set
     activeSessionId_value generateConversationName updateStoredConversations
     api_sendMessage api_loadPreviousSession
     set_conversations set_sessions set_currentSessionId set_activeSessionId
     set_waitingForResponse set_initialMessages_cache set_localStorage
     set_uuid_count set_clock_count
     conversations sessions currentSessionId activeSessionId agentId
     waitingForResponse initialMessages_cache localStorage uuid_count clock_count
     world_of resume_send resume_history suspended negb].

Lemma truthy_Some s : truthy (Some s) = true <-> s <> "".
Proof.
  simpl. destruct (String.eqb_spec s ""); simpl; split; congruence.
Qed.

Section Runs.

Variable E : Env.

(** What [getStoredConversations] returns on a given [localStorage]. *)
Lemma getStoredConversations_run w :
  exists stored,
    getStoredConversations E w = Returned stored w /\
    stored =
      match localStorage w !! localStorageSessionConversationKeys E with
      | Some s =>
          if String.eqb s "" then []
          else match JSON_parse E s with Ok parsed => parsed | Raise _ => [] end
      | None => []
      end.
Proof.
  unfold getStoredConversations. async_simpl.
  destruct (localStorage w !! _) as [s|]; [|by eexists].
  simpl. destruct (String.eqb s ""); simpl; [by eexists|].
  destruct (JSON_parse E s); async_eval; by eexists.
Qed.

Lemma initialMessages_getter_run texts w :
  initialMessages_getter E texts w =
  Returned (stamped E (uuid_count w) (clock_count w) texts)
           (set_clock_count (clock_count w + length texts)
              (set_uuid_count (uuid_count w + length texts) w)).
Proof.
  revert w. induction texts as [|text rest IH]; intros w.
  - destruct w. simpl. async_eval. by rewrite !Nat.add_0_r.
  - simpl. async_simpl. unfold bind at 1. rewrite IH. destruct w. async_eval.
    unfold stamped. simpl. rewrite !Nat.add_0_r, !Nat.add_succ_r.
    do 2 f_equal.
    apply imap_ext. intros i x _. simpl. by rewrite !Nat.add_succ_r.
Qed.

Lemma initialMessages_value_cached w ms :
  initialMessages_cache w = Some ms -> computed_stale E w = false ->
  initialMessages_value E w = Returned ms w.
Proof.
  intros H Hfresh. unfold initialMessages_value. async_simpl. by rewrite H, Hfresh.
Qed.

Lemma initialMessages_value_first w :
  initialMessages_cache w = None \/ computed_stale E w = true ->
  let texts := default [] (ChatOptions.initialMessages (options E)) in
  let ms := stamped E (uuid_count w) (clock_count w) texts in
  initialMessages_value E w =
  Returned ms
    (set_initialMessages_cache (Some ms)
       (set_clock_count (clock_count w + length texts)
          (set_uuid_count (uuid_count w + length texts) w))).
Proof.
  intros H. unfold initialMessages_value. async_simpl.
  assert (Hgetter :
    bind (initialMessages_getter E (default [] (ChatOptions.initialMessages (options E))))
         (fun ms => bind (modify (set_initialMessages_cache (Some ms))) (fun _ => ret ms)) w
    = Returned (stamped E (uuid_count w) (clock_count w)
                        (default [] (ChatOptions.initialMessages (options E))))
        (set_initialMessages_cache
           (Some (stamped E (uuid_count w) (clock_count w)
                          (default [] (ChatOptions.initialMessages (options E)))))
           (set_clock_count
              (clock_count w + length (default [] (ChatOptions.initialMessages (options E))))
              (set_uuid_count
                 (uuid_count w
                  + length (default [] (ChatOptions.initialMessages (options E)))) w)))).
  { unfold bind at 1. rewrite initialMessages_getter_run. by async_eval. }
  destruct (initialMessages_cache w) as [ms|]; [|exact Hgetter].
  destruct H as [H|H]; [discriminate H|]. rewrite H. exact Hgetter.
Qed.

Lemma reused_seed_cached w ms :
  reused_seed E w = Some ms -> initialMessages_cache w = Some ms.
Proof.
  unfold reused_seed. destruct (initialMessages_cache w); [|done].
  by destruct (computed_stale E _).
Qed.

Lemma startNewSession_run w :
  let newSessionId := uuid_of E (uuid_count w) in
  let texts := default [] (ChatOptions.initialMessages (options E)) in
  let seed := match reused_seed E w with
              | Some ms => ms
              | None => stamped E (S (uuid_count w)) (clock_count w) texts
              end in
  let drawn := match reused_seed E w with
               | Some _ => 0%nat
               | None => length texts
               end in
  startNewSession E w =
  Returned tt
    (mkWorld (conversations w) (<[newSessionId := seed]> (sessions w))
             (Some newSessionId) (Some newSessionId) (agentId w)
             (waitingForResponse w) (Some seed)
             (<[localStorageSessionIdKey E := newSessionId]> (localStorage w))
             (S (uuid_count w) + drawn) (clock_count w + drawn)).
Proof.
  destruct w as [cs ss cur act ag wt ic ls uc cc].
  unfold startNewSession, reused_seed. async_simpl. unfold bind at 1.
  destruct ic as [ms|]; [destruct (computed_stale E _) eqn:Hstale|].
  - rewrite initialMessages_value_first by (by right). by async_eval.
  - rewrite (initialMessages_value_cached _ ms) by done. async_eval.
    by rewrite !Nat.add_0_r.
  - rewrite initialMessages_value_first by (by left). by async_eval.
Qed.

Lemma switchSession_hit sessionId w :
  is_Some (sessions w !! sessionId) ->
  switchSession E sessionId w =
  Returned None (set_currentSessionId (Some sessionId)
                   (set_activeSessionId (Some sessionId) w)).
Proof.
  intros H. destruct w as [cs ss cur act ag wt ic ls uc cc]. simpl in H.
  unfold switchSession. async_simpl.
  rewrite bool_decide_eq_true_2 by done. by async_eval.
Qed.

Lemma switchSession_miss sessionId w :
  sessions w !! sessionId = None ->
  exists k,
    switchSession E sessionId w =
    AwaitHistory (mkHistoryCall (history_key E sessionId))
      (set_waitingForResponse true
         (set_sessions (<[sessionId := []]> (sessions w))
            (set_currentSessionId (Some sessionId)
               (set_activeSessionId (Some sessionId) w)))) k /\
    (forall e w2, k (Raise e) w2 = Thrown e w2) /\
    (forall response w2,
        k (Ok response) w2 =
        Returned (Some sessionId)
          (set_sessions
             (<[sessionId := history_messages response (clock_of E (clock_count w2))]>
                (sessions w2))
             (set_clock_count (S (clock_count w2))
                (set_waitingForResponse false w2)))).
Proof.
  intros H. destruct w as [cs ss cur act ag wt ic ls uc cc]. simpl in H.
  unfold switchSession. async_simpl.
  rewrite bool_decide_eq_false_2 by (rewrite H; by intros [? ?]).
  async_simpl. eexists. split; [reflexivity|]. split.
  - intros e w2. reflexivity.
  - intros response [cs2 ss2 cur2 act2 ag2 wt2 ic2 ls2 uc2 cc2]. reflexivity.
Qed.

Lemma count_senders_exchange l sent received :
  ChatMessage.sender sent = user -> ChatMessage.sender received = bot ->
  ((0 <? ConversationMeta.user (count_senders ((l ++ [sent]) ++ [received])))%nat
   && (0 <? ConversationMeta.bot (count_senders ((l ++ [sent]) ++ [received])))%nat)
  = true.
Proof.
  intros Hs Hr. unfold count_senders. simpl.
  rewrite !List.filter_app, !length_app. simpl.
  unfold is_sender. rewrite Hs, Hr. simpl.
  apply andb_true_iff. split; apply Nat.ltb_lt; lia.
Qed.

Lemma sendMessage_inactive text files w :
  truthy (activeSessionId w) = false ->
  sendMessage E text files w = Returned tt w.
Proof.
  intros H. unfold sendMessage. async_simpl. by rewrite H.
Qed.

Lemma sendMessage_run text files w a :
  activeSessionId w = Some a -> a <> "" ->
  let sentMessage :=
    ChatMessage.mk (uuid_of E (uuid_count w)) text user (Some files)
                   (clock_of E (clock_count w)) in
  let updatedMessages := default [] (sessions w !! a) ++ [sentMessage] in
  exists k,
    sendMessage E text files w =
    AwaitSend (mkSendCall text files a)
      (set_waitingForResponse true
         (set_sessions (<[a := updatedMessages]> (sessions w))
            (set_clock_count (S (clock_count w))
               (set_uuid_count (S (uuid_count w)) w)))) k /\
    (forall e w2, k (Raise e) w2 = Thrown e w2) /\
    (forall response w2,
        activeSessionId w2 = None -> exists w3, k (Ok response) w2 = Thrown TypeError w3) /\
    (forall response w2 s2,
        activeSessionId w2 = Some s2 ->
        let receivedMessage :=
          ChatMessage.mk (uuid_of E (uuid_count w2)) (reply_text E response) bot None
                         (clock_of E (clock_count w2)) in
        let finalMessages := updatedMessages ++ [receivedMessage] in
        let registry :=
          registry_after_exchange E s2 (count_senders finalMessages)
                                  (S (clock_count w2)) (conversations w2) in
        k (Ok response) w2 =
        Returned tt
          (mkWorld registry (<[s2 := finalMessages]> (sessions w2))
                   (currentSessionId w2) (Some s2) (agentId w2) false
                   (initialMessages_cache w2)
                   (<[localStorageSessionConversationKeys E := JSON_stringify E registry]>
                      (localStorage w2))
                   (S (uuid_count w2))
                   (match List.find (conversation_is s2) (conversations w2) with
                    | Some _ => S (S (clock_count w2))
                    | None => S (S (S (clock_count w2)))
                    end))).
Proof.
  intros Ha Hne. destruct w as [cs ss cur act ag wt ic ls uc cc]. simpl in Ha. subst act.
  unfold sendMessage. async_simpl.
  apply truthy_Some in Hne. rewrite Hne. async_simpl.
  eexists. split; [reflexivity|]. split; [reflexivity|].
  assert (Htext : forall response,
    (if String.eqb (response_text response) "" && (0 <? length (Object_keys response))%nat
     then try_catch (lift_exc (JSON_stringify_response E response))
                    (fun _ => ret (response_text response))
     else ret (response_text response))
    = ret (reply_text E response)).
  { intros response. unfold reply_text. simpl.
    destruct (_ && _); [|done].
    unfold try_catch, lift_exc. by destruct (JSON_stringify_response E response). }
  split.
  { intros response [cs2 ss2 cur2 act2 ag2 wt2 ic2 ls2 uc2 cc2] Hs2.
    simpl in Hs2. subst act2. async_simpl. rewrite Htext. async_simpl. by eexists. }
  intros response [cs2 ss2 cur2 act2 ag2 wt2 ic2 ls2 uc2 cc2] s2 Hs2.
  simpl in Hs2. subst act2. async_simpl.
  set (updated := default [] (ss !! a) ++ _).
  rewrite Htext. async_simpl.
  unfold registry_after_exchange.
  set (received := ChatMessage.mk _ _ _ _ _).
  fold (count_senders (updated ++ [received])).
  unfold updated at 1 2. rewrite count_senders_exchange by done.
  fold updated. async_simpl.
  destruct (List.find (conversation_is s2) cs2); by async_eval.
Qed.

(** [sendMessage] resumed on a store without active session throws before
    it touches the session map, the registry or the storage. *)
Lemma sendMessage_resumed_null text files w a c w1 k :
  activeSessionId w = Some a -> a <> "" ->
  sendMessage E text files w = AwaitSend c w1 k ->
  forall response w2,
    activeSessionId w2 = None ->
    exists w3, k (Ok response) w2 = Thrown TypeError w3 /\
               conversations w3 = conversations w2 /\
               localStorage w3 = localStorage w2 /\
               sessions w3 = sessions w2 /\
               activeSessionId w3 = None /\
               uuid_count w3 = S (uuid_count w2).
Proof.
  intros Ha Hne. destruct w as [cs ss cur act ag wt ic ls uc cc]. simpl in Ha. subst act.
  unfold sendMessage. async_simpl.
  apply truthy_Some in Hne. rewrite Hne. async_simpl.
  intros [= <- <- <-].
  intros response [cs2 ss2 cur2 act2 ag2 wt2 ic2 ls2 uc2 cc2] Hs2.
  simpl in Hs2. subst act2. async_simpl.
  destruct (_ && _); async_simpl.
  - unfold try_catch, lift_exc.
    destruct (JSON_stringify_response E response); async_eval; by eexists.
  - async_eval. by eexists.
Qed.

Lemma loadConversation_refresh conversationId (r : option string) w :
  bind_outcome (Returned r w)
    (fun _ =>
       bind (read (fun w => List.find (conversation_is conversationId) (conversations w)))
         (fun conversation =>
            match conversation with
            | Some _ =>
                bind (new_Date E) (fun lastUpdated =>
                bind (modify (fun w => set_conversations
                        (update_first (conversation_is conversationId)
                           (fun c => ConversationMeta.mk
                                       (ConversationMeta.id c) (ConversationMeta.name c)
                                       lastUpdated (ConversationMeta.messageCount c))
                           (conversations w)) w)) (fun _ =>
                bind (read conversations) (fun cs =>
                updateStoredConversations E cs)))
            | None => ret tt
            end))
  = Returned tt (refreshed E conversationId w).
Proof.
  destruct w as [cs ss cur act ag wt ic ls uc cc].
  unfold refreshed. async_simpl.
  destruct (List.find (conversation_is conversationId) cs); by async_eval.
Qed.

Lemma loadConversation_hit conversationId w :
  is_Some (sessions w !! conversationId) ->
  loadConversation E conversationId w =
  Returned tt (refreshed E conversationId
                 (set_currentSessionId (Some conversationId)
                    (set_activeSessionId (Some conversationId) w))).
Proof.
  intros H. unfold loadConversation. unfold bind at 1.
  rewrite switchSession_hit by done. apply loadConversation_refresh.
Qed.

Lemma loadConversation_miss conversationId w :
  sessions w !! conversationId = None ->
  exists k,
    loadConversation E conversationId w =
    AwaitHistory (mkHistoryCall (history_key E conversationId))
      (set_waitingForResponse true
         (set_sessions (<[conversationId := []]> (sessions w))
            (set_currentSessionId (Some conversationId)
               (set_activeSessionId (Some conversationId) w)))) k /\
    (forall e w2, k (Raise e) w2 = Thrown e w2) /\
    (forall response w2,
        k (Ok response) w2 =
        Returned tt
          (refreshed E conversationId
             (set_sessions
                (<[conversationId :=
                     history_messages response (clock_of E (clock_count w2))]>
                   (sessions w2))
                (set_clock_count (S (clock_count w2))
                   (set_waitingForResponse false w2))))).
Proof.
  intros H. destruct (switchSession_miss conversationId w H) as (k & Hk & Herr & Hok).
  unfold loadConversation. unfold bind at 1. rewrite Hk. simpl bind_outcome.
  eexists. split; [reflexivity|]. split.
  - intros e w2. simpl. by rewrite Herr.
  - intros response w2. simpl. rewrite Hok. apply loadConversation_refresh.
Qed.

Lemma outcome_equiv_refl {A} (o : Outcome A) : outcome_equiv o o.
Proof. induction o; simpl; auto. Qed.

Lemma bind_ret_equiv {A} (o : Outcome A) : outcome_equiv (bind_outcome o ret) o.
Proof. induction o; simpl; auto. Qed.

End Runs.

(** ** Stretch-wise invariants

    A relation that holds across every synchronous stretch of every
    operation holds along every run of the event loop, however the
    operations overlap. *)

Section Segments.

Context (R : World -> World -> Prop) `{!PreOrder R}.

Lemma segments_start {A} w0 w1 (o : Outcome A) :
  R w0 w1 -> segments R w1 o -> segments R w0 o.
Proof.
  intros H01. destruct o; simpl.
  - intros H. by etransitivity.
  - intros H. by etransitivity.
  - intros [H Hk]. split; [by etransitivity | done].
  - intros [H Hk]. split; [by etransitivity | done].
Qed.

Lemma segments_bind_outcome {A B} (o : Outcome A) (f : A -> Async B) w :
  segments R w o -> (forall a w', segments R w' (f a w')) ->
  segments R w (bind_outcome o f).
Proof.
  intros Ho Hf. revert w Ho.
  induction o as [a w1|e w1|c w1 k IH|c w1 k IH]; intros w Ho; simpl in *.
  - eapply segments_start; [exact Ho | apply Hf].
  - exact Ho.
  - destruct Ho as [H Hk]. split; [done|]. intros r w'. apply IH, Hk.
  - destruct Ho as [H Hk]. split; [done|]. intros r w'. apply IH, Hk.
Qed.

Lemma segments_bind {A B} (m : Async A) (f : A -> Async B) w :
  segments R w (m w) -> (forall a w', segments R w' (f a w')) ->
  segments R w (bind m f w).
Proof. apply segments_bind_outcome. Qed.

Lemma segments_catch_outcome {A} (o : Outcome A) (h : Error -> Async A) w :
  segments R w o -> (forall e w', segments R w' (h e w')) ->
  segments R w (catch_outcome o h).
Proof.
  intros Ho Hh. revert w Ho.
  induction o as [a w1|e w1|c w1 k IH|c w1 k IH]; intros w Ho; simpl in *.
  - exact Ho.
  - eapply segments_start; [exact Ho | apply Hh].
  - destruct Ho as [H Hk]. split; [done|]. intros r w'. apply IH, Hk.
  - destruct Ho as [H Hk]. split; [done|]. intros r w'. apply IH, Hk.
Qed.

Lemma segments_try_catch {A} (body : Async A) (h : Error -> Async A) w :
  segments R w (body w) -> (forall e w', segments R w' (h e w')) ->
  segments R w (try_catch body h w).
Proof. apply segments_catch_outcome. Qed.

Lemma segments_ret {A} (a : A) w : segments R w (ret a w).
Proof. simpl. reflexivity. Qed.

Lemma segments_throw {A} e w : segments R w (@throw A e w).
Proof. simpl. reflexivity. Qed.

Lemma segments_read {A} (f : World -> A) w : segments R w (read f w).
Proof. simpl. reflexivity. Qed.

Lemma segments_lift_exc {A} (r : Exc A) w : segments R w (lift_exc r w).
Proof. destruct r; simpl; reflexivity. Qed.

Lemma segments_modify f w : R w (f w) -> segments R w (modify f w).
Proof. done. Qed.

Lemma segments_activeSessionId_value w : segments R w (activeSessionId_value w).
Proof. unfold activeSessionId_value. destruct (activeSessionId w); simpl; reflexivity. Qed.

Lemma segments_api_sendMessage text files sessionId w :
  segments R w (api_sendMessage text files sessionId w).
Proof. simpl. split; [reflexivity|]. intros r w'. apply segments_lift_exc. Qed.

Lemma segments_api_loadPreviousSession sessionId w :
  segments R w (api_loadPreviousSession sessionId w).
Proof. simpl. split; [reflexivity|]. intros r w'. apply segments_lift_exc. Qed.

Lemma segments_world_of {A} w (o : Outcome A) : segments R w o -> R w (world_of o).
Proof. destruct o; simpl; tauto. Qed.

End Segments.

Lemma segments_mono {A} (R R' : World -> World -> Prop) w (o : Outcome A) :
  (forall a b, R a b -> R' a b) -> segments R w o -> segments R' w o.
Proof.
  intros HR. revert w.
  induction o as [a w1|e w1|c w1 k IH|c w1 k IH]; intros w; simpl; auto.
  - intros [H Hk]. split; [auto|]. intros r w'. apply IH, Hk.
  - intros [H Hk]. split; [auto|]. intros r w'. apply IH, Hk.
Qed.

Lemma segments_suspended R w (o : Outcome unit) :
  segments R w o -> Forall (pending_keeps R) (suspended o).
Proof.
  destruct o; simpl; intros H.
  - apply Forall_nil_2.
  - apply Forall_nil_2.
  - apply Forall_cons_2; [exact (proj2 H) | apply Forall_nil_2].
  - apply Forall_cons_2; [exact (proj2 H) | apply Forall_nil_2].
Qed.

Lemma Forall_delete_list {A} (P : A -> Prop) (l : list A) i :
  Forall P l -> Forall P (delete i l).
Proof.
  intros H. eapply Forall_forall. intros x Hx.
  assert (Hsub : delete i l ⊆ l) by apply list_subseteq_delete.
  eapply Forall_forall in H; [exact H|]. by apply Hsub.
Qed.

Theorem reachable_invariant E (P : World -> Prop) :
  (forall storage, P (world_of (install E (fresh_refs storage)))) ->
  (forall op w, segments (fun a b => P a -> P b) w (run E op w)) ->
  forall cfg, reachable E cfg -> P cfg.1.
Proof.
  intros Hinit Hop cfg Hreach.
  set (R := fun a b : World => P a -> P b).
  assert (HR : PreOrder R) by (split; unfold R; [intros x; tauto | intros x y z; tauto]).
  cut (P cfg.1 /\ Forall (pending_keeps R) cfg.2); [tauto|].
  induction Hreach as [storage|cfg cfg' Hreach [IHw IHps] Hstep].
  - split; [apply Hinit | constructor].
  - destruct Hstep as [w ps op|w ps i c k r Hi|w ps i c k r Hi]; simpl in *.
    + pose proof (Hop op w) as Hseg. split.
      * by apply (segments_world_of R _ _ Hseg).
      * apply Forall_app. split; [by eapply segments_suspended | done].
    + assert (Hk : pending_keeps R (PendingSend c k)).
      { eapply Forall_lookup_1 in IHps; eauto. }
      simpl in Hk. specialize (Hk r w). split.
      * by apply (segments_world_of R _ _ Hk).
      * apply Forall_app. split;
          [by eapply segments_suspended | by apply Forall_delete_list].
    + assert (Hk : pending_keeps R (PendingHistory c k)).
      { eapply Forall_lookup_1 in IHps; eauto. }
      simpl in Hk. specialize (Hk r w). split.
      * by apply (segments_world_of R _ _ Hk).
      * apply Forall_app. split;
          [by eapply segments_suspended | by apply Forall_delete_list].
Qed.

(** ** Frame properties of the operations

    A relation [R] that tolerates the writes an operation makes holds
    across each of its stretches. *)

Ltac segments_step :=
  lazymatch goal with
  | |- segments ?R _ (bind _ _ _) => apply (segments_bind R); [|intros ? ?]
  | |- segments ?R _ (try_catch _ _ _) => apply (segments_try_catch R); [|intros ? ?]
  | |- segments ?R _ (api_sendMessage _ _ _ _) => apply (segments_api_sendMessage R)
  | |- segments ?R _ (api_loadPreviousSession _ _) =>
      apply (segments_api_loadPreviousSession R)
  | |- segments ?R _ (lift_exc _ _) => apply (segments_lift_exc R)
  | |- segments ?R _ (activeSessionId_value _) => apply (segments_activeSessionId_value R)
  | |- segments ?R _ (ret _ _) => apply (segments_ret R)
  | |- segments ?R _ (read _ _) => apply (segments_read R)
  | |- segments ?R _ (modify _ _) => apply (segments_modify R)
  | |- segments ?R _ (sessions_set _ _ _) => apply (segments_modify R)
  | |- segments ?R _ (localStorage_setItem _ _ _) => apply (segments_modify R)
  | |- segments ?R _ (localStorage_getItem _ _) => apply (segments_read R)
  | |- segments ?R _ (updateStoredConversations _ _ _) => apply (segments_modify R)
  | |- segments _ _ (generateConversationName _ _) => unfold generateConversationName
  | |- segments _ _ (uuidv4 _ _) => unfold uuidv4, segments
  | |- segments _ _ (new_Date _ _) => unfold new_Date, segments
  | |- segments _ _ ((if ?b then _ else _) _) => destruct b
  | |- segments _ _ (match ?x with Some _ => _ | None => _ end _) => destruct x
  | |- segments _ _ ((let _ := _ in _) _) => cbv zeta
  end.

Section Frames.

Variable E : Env.
Context (R : World -> World -> Prop) `{!PreOrder R}.

Hypothesis R_uuid_count : forall v w, R w (set_uuid_count v w).
Hypothesis R_clock_count : forall v w, R w (set_clock_count v w).
Hypothesis R_sessions : forall v w, R w (set_sessions v w).
Hypothesis R_waitingForResponse : forall v w, R w (set_waitingForResponse v w).
Hypothesis R_localStorage : forall v w, R w (set_localStorage v w).
Hypothesis R_currentSessionId : forall v w, R w (set_currentSessionId v w).
Hypothesis R_activeSessionId : forall s w, R w (set_activeSessionId (Some s) w).

Lemma segments_getStoredConversations w :
  segments R w (getStoredConversations E w).
Proof. unfold getStoredConversations. repeat segments_step; auto. Qed.

Lemma segments_switchSession sessionId w :
  segments R w (switchSession E sessionId w).
Proof. unfold switchSession. repeat segments_step; auto. Qed.

Lemma segments_sendMessage text files w :
  (forall v w, R w (set_conversations v w)) ->
  segments R w (sendMessage E text files w).
Proof. intros R_conversations. unfold sendMessage. repeat segments_step; auto. Qed.

Lemma segments_loadConversation conversationId w :
  (forall t w,
      R w (set_conversations
             (update_first (conversation_is conversationId)
                (fun c => ConversationMeta.mk
                            (ConversationMeta.id c) (ConversationMeta.name c)
                            t (ConversationMeta.messageCount c))
                (conversations w)) w)) ->
  segments R w (loadConversation E conversationId w).
Proof.
  intros R_refresh. unfold loadConversation.
  apply (segments_bind R); [apply segments_switchSession|]. intros _ w'.
  repeat segments_step; auto.
Qed.

Lemma segments_initialMessages_getter texts w :
  segments R w (initialMessages_getter E texts w).
Proof.
  revert w. induction texts as [|text rest IH]; intros w; simpl.
  - reflexivity.
  - repeat segments_step; auto.
Qed.

Lemma segments_startNewSession w :
  (forall v w, R w (set_initialMessages_cache v w)) ->
  segments R w (startNewSession E w).
Proof.
  intros R_cache. unfold startNewSession, initialMessages_value.
  repeat first [apply segments_initialMessages_getter | segments_step]; auto.
Qed.

Lemma segments_loadPreviousSession w :
  (forall v w, R w (set_conversations v w)) ->
  (forall w, segments R w (startNewSession E w)) ->
  segments R w (loadPreviousSession E w).
Proof.
  intros R_conversations Hstart. unfold loadPreviousSession.
  repeat first [ apply segments_getStoredConversations
               | apply segments_switchSession
               | apply Hstart
               | segments_step ]; auto.
Qed.

Lemma segments_run op w :
  (forall v w, R w (set_conversations v w)) ->
  (forall w, segments R w (startNewSession E w)) ->
  segments R w (run E op w).
Proof.
  intros R_conversations Hstart. destruct op as [text files|sessionId|conversationId| |]; simpl.
  - by apply segments_sendMessage.
  - apply (segments_bind R); [apply segments_switchSession|].
    intros _ w'. apply (segments_ret R).
  - apply segments_loadConversation. intros t w'. apply R_conversations.
  - apply (segments_bind R); [by apply segments_loadPreviousSession|].
    intros _ w'. apply (segments_ret R).
  - apply Hstart.
Qed.

End Frames.

(** ** Invariants of the store *)

Section Invariants.

Variable E : Env.

(** Once an operation has set the active session pointer, no operation sets
    it back to [null]. *)
Lemma active_never_cleared op w :
  segments (fun a b => is_Some (activeSessionId a) -> is_Some (activeSessionId b))
           w (run E op w).
Proof.
  set (R := fun a b : World => is_Some (activeSessionId a) -> is_Some (activeSessionId b)).
  assert (HR : PreOrder R) by (split; unfold R; [intros x; tauto | intros x y z; tauto]).
  apply (segments_run E R); unfold R; try (intros ? [] ?; done).
  intros w'. rewrite startNewSession_run. simpl. intros _. by eexists.
Qed.

(** [switchSession] never touches the registry. *)
Lemma switchSession_registry sessionId w :
  segments (fun a b => conversations b = conversations a) w (switchSession E sessionId w).
Proof.
  set (R := fun a b : World => conversations b = conversations a).
  assert (HR : PreOrder R) by (split; unfold R; [intros x; done | intros x y z; congruence]).
  apply (segments_switchSession E R); unfold R; by intros ? [].
Qed.

(** [loadConversation] neither adds nor removes a summary. *)
Lemma loadConversation_registry_ids conversationId w :
  segments (fun a b => map ConversationMeta.id (conversations b)
                       = map ConversationMeta.id (conversations a))
           w (loadConversation E conversationId w).
Proof.
  set (R := fun a b : World => map ConversationMeta.id (conversations b)
                               = map ConversationMeta.id (conversations a)).
  assert (HR : PreOrder R) by (split; unfold R; [intros x; done | intros x y z; congruence]).
  apply (segments_loadConversation E R); unfold R; try (by intros ? []).
  intros t []. simpl. by apply update_first_ids.
Qed.

(** The cache of [initialMessages], once filled, holds the configured texts
    as stamped by one evaluation of the getter. *)
Lemma initialMessages_cache_stamped cfg :
  reachable E cfg ->
  forall ms, initialMessages_cache cfg.1 = Some ms ->
  exists uc cc,
    ms = stamped E uc cc (default [] (ChatOptions.initialMessages (options E))).
Proof.
  set (P := fun w : World => forall ms, initialMessages_cache w = Some ms ->
    exists uc cc,
      ms = stamped E uc cc (default [] (ChatOptions.initialMessages (options E)))).
  apply (reachable_invariant E P).
  - intros storage.
    destruct (getStoredConversations_run E (fresh_refs storage)) as (stored & Hrun & _).
    unfold install, bind. rewrite Hrun. simpl. intros ms H. discriminate H.
  - intros op w.
    set (R := fun a b : World => P a -> P b).
    assert (HR : PreOrder R) by (split; unfold R; [intros x; tauto | intros x y z; tauto]).
    apply (segments_run E R); unfold R, P; try (by intros ? []).
    intros w'. rewrite startNewSession_run. simpl. intros Hw ms [= <-].
    destruct (reused_seed E w') as [ms|] eqn:Hreused; [|by eexists _, _].
    by apply Hw, (reused_seed_cached E).
Qed.

End Invariants.

(** [loadPreviousSession], unfolded. *)
Lemma loadPreviousSession_unfold (E : Env) (w : World) :
  exists stored,
    getStoredConversations E w = Returned stored w /\
    startNewSession E w = Returned tt (world_of (startNewSession E w)) /\
    loadPreviousSession E w =
    if default false (ChatOptions.loadPreviousSession (options E)) then
      match localStorage w !! localStorageSessionIdKey E with
      | Some s =>
          if truthy (Some s) then
            match List.find (conversation_is s) stored with
            | Some _ =>
                bind_outcome (switchSession E s (set_conversations stored w))
                             (fun r => ret r)
            | None => Returned None (world_of (startNewSession E w))
            end
          else Returned None (world_of (startNewSession E w))
      | None => Returned None (world_of (startNewSession E w))
      end
    else Returned None w.
Proof.
  destruct (getStoredConversations_run E w) as (stored & Hrun & _).
  exists stored. split; [exact Hrun|].
  assert (Hstart : startNewSession E w = Returned tt (world_of (startNewSession E w)))
    by (by rewrite startNewSession_run).
  split; [exact Hstart|].
  assert (Hfallback : bind (startNewSession E) (fun _ => ret None) w
                      = Returned (@None string) (world_of (startNewSession E w))).
  { unfold bind. rewrite Hstart at 1. reflexivity. }
  unfold loadPreviousSession.
  destruct (default false (ChatOptions.loadPreviousSession (options E))); [|reflexivity].
  async_simpl.
  destruct (localStorage w !! localStorageSessionIdKey E) as [s|]; [|exact Hfallback].
  destruct (truthy (Some s)); [|exact Hfallback].
  unfold bind at 1. rewrite Hrun. simpl bind_outcome.
  destruct (List.find (conversation_is s) stored); [|exact Hfallback].
  reflexivity.
Qed.

(** ** The [waitingForResponse] flag *)

Lemma flag_cleared_equiv {A} (o1 o2 : Outcome A) :
  outcome_equiv o1 o2 -> flag_cleared o2 -> flag_cleared o1.
Proof.
  destruct o1, o2; simpl; try tauto. by intros [_ ->].
Qed.

Lemma flag_discipline_equiv {A} w (o1 o2 : Outcome A) :
  outcome_equiv o1 o2 -> flag_discipline w o2 -> flag_discipline w o1.
Proof.
  destruct o1 as [a1 w1|e1 w1|c1 w1 k1|c1 w1 k1],
           o2 as [a2 w2|e2 w2|c2 w2 k2|c2 w2 k2]; simpl; try tauto.
  - by intros [_ ->].
  - intros (_ & -> & Hk) [Hflag Hres]. split; [done|]. intros r w3.
    specialize (Hk r w3). destruct (Hres r w3) as [Hc Hr]. split.
    + by eapply flag_cleared_equiv.
    + intros v Hv Hact. destruct (Hr v Hv Hact) as (a & w4 & Heq).
      rewrite Heq in Hk. destruct (k1 r w3); simpl in Hk; try done.
      destruct Hk as [-> ->]. by eexists _, _.
  - intros (_ & -> & Hk) [Hflag Hres]. split; [done|]. intros r w3.
    specialize (Hk r w3). destruct (Hres r w3) as [Hc Hr]. split.
    + by eapply flag_cleared_equiv.
    + intros v Hv Hact. destruct (Hr v Hv Hact) as (a & w4 & Heq).
      rewrite Heq in Hk. destruct (k1 r w3); simpl in Hk; try done.
      destruct Hk as [-> ->]. by eexists _, _.
Qed.

Lemma flag_cleared_void {A} (o : Outcome A) :
  flag_cleared o -> flag_cleared (bind_outcome o (fun _ => ret tt)).
Proof. by destruct o. Qed.

Lemma flag_discipline_void {A} w (o : Outcome A) :
  flag_discipline w o -> flag_discipline w (bind_outcome o (fun _ => ret tt)).
Proof.
  destruct o as [a w1|e w1|c w1 k|c w1 k]; simpl; try done.
  - intros [Hflag Hres]. split; [done|]. intros r w2.
    destruct (Hres r w2) as [Hc Hr]. split; [by apply flag_cleared_void|].
    intros v Hv Hact. destruct (Hr v Hv Hact) as (a & w3 & ->). by eexists _, _.
  - intros [Hflag Hres]. split; [done|]. intros r w2.
    destruct (Hres r w2) as [Hc Hr]. split; [by apply flag_cleared_void|].
    intros v Hv Hact. destruct (Hr v Hv Hact) as (a & w3 & ->). by eexists _, _.
Qed.

Lemma refreshed_waitingForResponse E conversationId w :
  waitingForResponse (refreshed E conversationId w) = waitingForResponse w.
Proof.
  unfold refreshed. by destruct (List.find _ _), w.
Qed.

Section Flag.

Variable E : Env.

Lemma flag_discipline_sendMessage text files w :
  flag_discipline w (sendMessage E text files w).
Proof.
  destruct (truthy (activeSessionId w)) eqn:Htruthy.
  - destruct (activeSessionId w) as [a|] eqn:Hactive; [|done].
    apply truthy_Some in Htruthy.
    destruct (sendMessage_run E text files w a Hactive Htruthy)
      as (k & -> & Herr & Hnull & Hok).
    split; [by destruct w|]. intros r w2.
    destruct r as [response|e]; [|rewrite Herr; split; [done|by intros]].
    destruct (activeSessionId w2) as [s2|] eqn:Hs2.
    + rewrite (Hok response w2 s2 Hs2). split; [done|]. intros. by eexists _, _.
    + destruct (Hnull response w2 Hs2) as (w3 & ->). split; [done|].
      intros v _ [? ?]. done.
  - by rewrite sendMessage_inactive.
Qed.

Lemma flag_discipline_switchSession sessionId w :
  flag_discipline w (switchSession E sessionId w).
Proof.
  destruct (sessions w !! sessionId) as [l|] eqn:Hl.
  - rewrite switchSession_hit by (by rewrite Hl). by destruct w.
  - destruct (switchSession_miss E sessionId w Hl) as (k & -> & Herr & Hok).
    split; [by destruct w|]. intros r w2.
    destruct r as [response|e]; [|rewrite Herr; split; [done|by intros]].
    rewrite Hok. split; [by destruct w2|]. intros. by eexists _, _.
Qed.

Lemma flag_discipline_loadConversation conversationId w :
  flag_discipline w (loadConversation E conversationId w).
Proof.
  destruct (sessions w !! conversationId) as [l|] eqn:Hl.
  - rewrite loadConversation_hit by (by rewrite Hl). simpl.
    rewrite refreshed_waitingForResponse. by destruct w.
  - destruct (loadConversation_miss E conversationId w Hl) as (k & -> & Herr & Hok).
    split; [by destruct w|]. intros r w2.
    destruct r as [response|e]; [|rewrite Herr; split; [done|by intros]].
    rewrite Hok. split; [|intros; by eexists _, _].
    simpl. rewrite refreshed_waitingForResponse. by destruct w2.
Qed.

Lemma flag_discipline_startNewSession w :
  flag_discipline w (startNewSession E w).
Proof. by rewrite startNewSession_run. Qed.

Lemma flag_discipline_loadPreviousSession w :
  flag_discipline w (loadPreviousSession E w).
Proof.
  destruct (loadPreviousSession_unfold E w) as (stored & _ & Hstart & ->).
  pose proof (flag_discipline_startNewSession w) as Hnew.
  rewrite Hstart in Hnew.
  destruct (default false (ChatOptions.loadPreviousSession (options E))); [|done].
  destruct (localStorage w !! localStorageSessionIdKey E) as [s|]; [|exact Hnew].
  destruct (truthy (Some s)); [|exact Hnew].
  destruct (List.find (conversation_is s) stored); [|exact Hnew].
  eapply flag_discipline_equiv; [apply bind_ret_equiv|].
  pose proof (flag_discipline_switchSession s (set_conversations stored w)) as H.
  by destruct w.
Qed.

Lemma flag_discipline_run op w : flag_discipline w (run E op w).
Proof.
  destruct op as [text files|sessionId|conversationId| |]; simpl.
  - apply flag_discipline_sendMessage.
  - apply flag_discipline_void, flag_discipline_switchSession.
  - apply flag_discipline_loadConversation.
  - apply flag_discipline_void, flag_discipline_loadPreviousSession.
  - apply flag_discipline_startNewSession.
Qed.

Lemma install_run storage :
  exists stored,
    install E (fresh_refs storage) = Returned tt (set_conversations stored (fresh_refs storage)).
Proof.
  destruct (getStoredConversations_run E (fresh_refs storage)) as (stored & Hrun & _).
  exists stored. unfold install, bind. by rewrite Hrun.
Qed.

Lemma flag_discipline_completes op w w' :
  waitingForResponse w = false -> completes (run E op w) tt w' ->
  waitingForResponse w' = false.
Proof.
  intros Hw Hcompletes. pose proof (flag_discipline_run op w) as Hd.
  destruct (run E op w) as [a w1|e w1|c w1 k|c w1 k]; simpl in Hd.
  - inversion Hcompletes; subst. congruence.
  - done.
  - inversion Hcompletes as [| ? ? ? r ? ? Hk |]; subst.
    destruct Hd as [_ Hd]. destruct (Hd (Ok r) w1) as [Hc _].
    destruct (k (Ok r) w1); simpl in Hc; inversion Hk; subst; done.
  - inversion Hcompletes as [| | ? ? ? r ? ? Hk]; subst.
    destruct Hd as [_ Hd]. destruct (Hd (Ok r) w1) as [Hc _].
    destruct (k (Ok r) w1); simpl in Hc; inversion Hk; subst; done.
Qed.

End Flag.

(** ** Reaching stores *)

Lemma completes_answered_send {A} (o : Outcome A) r a w' :
  answered_send o r = Returned a w' -> completes o a w'.
Proof.
  unfold answered_send. destruct o as [a1 w1|e1 w1|c w1 k|c w1 k]; simpl; intros H;
    try discriminate H.
  - injection H as -> ->. constructor.
  - apply completes_send with (r := r). rewrite H. constructor.
Qed.

Lemma completes_answered_history {A} (o : Outcome A) r a w' :
  answered_history o r = Returned a w' -> completes o a w'.
Proof.
  unfold answered_history. destruct o as [a1 w1|e1 w1|c w1 k|c w1 k]; simpl; intros H;
    try discriminate H.
  - injection H as -> ->. constructor.
  - apply completes_history with (r := r). rewrite H. constructor.
Qed.

Lemma in_sequence_returned E w op w' :
  reachable_in_sequence E w -> run E op w = Returned tt w' ->
  reachable_in_sequence E w'.
Proof.
  intros Hw Hrun. apply (in_sequence_call E w op); [done|]. rewrite Hrun. constructor.
Qed.

Lemma in_sequence_answered_send E w op r w' :
  reachable_in_sequence E w -> answered_send (run E op w) r = Returned tt w' ->
  reachable_in_sequence E w'.
Proof.
  intros Hw Hrun. apply (in_sequence_call E w op); [done|].
  by apply completes_answered_send with (r := r).
Qed.

Lemma in_sequence_answered_history E w op r w' :
  reachable_in_sequence E w -> answered_history (run E op w) r = Returned tt w' ->
  reachable_in_sequence E w'.
Proof.
  intros Hw Hrun. apply (in_sequence_call E w op); [done|].
  by apply completes_answered_history with (r := r).
Qed.

Lemma reachable_call E w ps op :
  reachable E (w, ps) ->
  reachable E (world_of (run E op w), suspended (run E op w) ++ ps).
Proof. intros H. eapply reachable_step; [exact H|]. constructor. Qed.

Lemma reachable_settle_send E w ps c k r :
  reachable E (w, PendingSend c k :: ps) ->
  reachable E (world_of (k r w), suspended (k r w) ++ ps).
Proof.
  intros H. eapply reachable_step; [exact H|].
  by apply (step_send_settles E w (PendingSend c k :: ps) 0 c k r).
Qed.

Lemma reachable_settle_history E w ps c k r :
  reachable E (w, PendingHistory c k :: ps) ->
  reachable E (world_of (k r w), suspended (k r w) ++ ps).
Proof.
  intros H. eapply reachable_step; [exact H|].
  by apply (step_history_settles E w (PendingHistory c k :: ps) 0 c k r).
Qed.

Lemma completes_reachable E (o : Outcome unit) w' ps :
  completes o tt w' ->
  reachable E (world_of o, suspended o ++ ps) -> reachable E (w', ps).
Proof.
  induction 1 as [a w|c w k r a w' _ IH|c w k r a w' _ IH]; simpl; intros Hreach.
  - exact Hreach.
  - apply IH. by apply (reachable_settle_send E w ps c k (Ok r)).
  - apply IH. by apply (reachable_settle_history E w ps c k (Ok r)).
Qed.

(** Calling the operations one after the other is one way of running the
    event loop. *)
Lemma in_sequence_reachable E w :
  reachable_in_sequence E w -> reachable E (w, []).
Proof.
  induction 1 as [storage|w op w' _ IH Hcompletes].
  - constructor.
  - eapply completes_reachable; [exact Hcompletes|]. by apply reachable_call.
Qed.

Lemma example_first_exchange_in_sequence :
  reachable_in_sequence example_env example_first_exchange.
Proof.
  apply (in_sequence_answered_send example_env example_first_session
           (SendMessage "hi" []) (example_reply "hello")); [|vm_compute; reflexivity].
  apply (in_sequence_returned example_env example_installed StartNewSession);
    [apply in_sequence_installed | vm_compute; reflexivity].
Qed.

Lemma example_first_session_reachable :
  reachable example_env (example_first_session, []).
Proof.
  apply in_sequence_reachable.
  apply (in_sequence_returned example_env example_installed StartNewSession);
    [apply in_sequence_installed|].
  vm_compute; reflexivity.
Qed.

(** * The claims *)

(** ** Persistence adapter *)

(** C8.  Loading the conversation registry from [localStorage] never
    throws: [getStoredConversations] returns normally for every stored
    value and leaves the store alone; it returns the parsed list when the
    stored text parses, and the empty list when the key is missing or
    parsing fails.  ([JSON.parse] rejects the empty text.) *)
Theorem getStoredConversations_never_throws (E : Env) (w : World)
        (JSON_parse_empty : JSON_parse E "" = Raise SyntaxError) :
  exists stored,
    getStoredConversations E w = Returned stored w /\
    (forall s parsed,
        localStorage w !! localStorageSessionConversationKeys E = Some s ->
        JSON_parse E s = Ok parsed -> stored = parsed) /\
    (localStorage w !! localStorageSessionConversationKeys E = None -> stored = []) /\
    (forall s e,
        localStorage w !! localStorageSessionConversationKeys E = Some s ->
        JSON_parse E s = Raise e -> stored = []).
Proof.
  destruct (getStoredConversations_run E w) as (stored & Hrun & Hstored).
  exists stored. split; [exact Hrun|]. split; [|split].
  - intros s parsed Hs Hparse. rewrite Hs in Hstored.
    destruct (String.eqb_spec s "") as [Heq|_].
    + rewrite Heq, JSON_parse_empty in Hparse. discriminate Hparse.
    + by rewrite Hparse in Hstored.
  - intros Hs. by rewrite Hs in Hstored.
  - intros s e Hs Hparse. rewrite Hs, Hparse in Hstored.
    by destruct (String.eqb s "").
Qed.

Lemma getStoredConversations_never_throws_witness :
  JSON_parse example_env "" = Raise SyntaxError /\
  exists stored,
    getStoredConversations example_env example_returning_visitor
    = Returned stored example_returning_visitor /\
    (forall s parsed,
        localStorage example_returning_visitor
          !! localStorageSessionConversationKeys example_env = Some s ->
        JSON_parse example_env s = Ok parsed -> stored = parsed) /\
    (localStorage example_returning_visitor
       !! localStorageSessionConversationKeys example_env = None -> stored = []) /\
    (forall s e,
        localStorage example_returning_visitor
          !! localStorageSessionConversationKeys example_env = Some s ->
        JSON_parse example_env s = Raise e -> stored = []).
Proof.
  split; [reflexivity|].
  apply (getStoredConversations_never_throws example_env example_returning_visitor).
  reflexivity.
Defined.

(** ** Session store *)

(** C5.  [switchSession] on a session that is already in memory returns
    [undefined] at once, without a backend call; it points the active and
    the current session at the id and changes nothing else, so the message
    list stays as it was, and calling it again changes nothing at all. *)
Theorem switchSession_loaded_idempotent (E : Env) (sessionId : string) (w : World)
        (l : list ChatMessage.t)
        (Hloaded : sessions w !! sessionId = Some l) :
  let w' := set_currentSessionId (Some sessionId)
              (set_activeSessionId (Some sessionId) w) in
  switchSession E sessionId w = Returned None w' /\
  sessions w' = sessions w /\
  sessions w' !! sessionId = Some l /\
  activeSessionId w' = Some sessionId /\
  currentSessionId w' = Some sessionId /\
  switchSession E sessionId w' = Returned None w'.
Proof.
  intros w'. split; [by apply switchSession_hit; rewrite Hloaded|].
  destruct w as [cs ss cur act ag wt ic ls uc cc]. simpl in *.
  repeat split; try done.
  unfold w'. rewrite switchSession_hit; [done|]. simpl. by rewrite Hloaded.
Qed.

Lemma switchSession_loaded_idempotent_witness :
  let w := set_sessions {[ "s-1" := [ChatMessage.mk "0" "hey" user None 7] ]}
                        (fresh_refs ∅) in
  sessions w !! "s-1" = Some [ChatMessage.mk "0" "hey" user None 7] /\
  let w' := set_currentSessionId (Some "s-1") (set_activeSessionId (Some "s-1") w) in
  switchSession example_env "s-1" w = Returned None w' /\
  sessions w' = sessions w /\
  sessions w' !! "s-1" = Some [ChatMessage.mk "0" "hey" user None 7] /\
  activeSessionId w' = Some "s-1" /\
  currentSessionId w' = Some "s-1" /\
  switchSession example_env "s-1" w' = Returned None w'.
Proof.
  intros w. split; [reflexivity|].
  apply (switchSession_loaded_idempotent example_env "s-1" w
           [ChatMessage.mk "0" "hey" user None 7]).
  reflexivity.
Defined.

(** C6.  [switchSession] on a session that is not in memory awaits the
    history of the session from the backend.  When it arrives, every record
    becomes one message, in order, whose text is the record's
    [kwargs.content] and whose sender is [user] exactly when the record's
    id contains ["HumanMessage"], and [bot] otherwise; that list is stored
    for the session and the session id is returned. *)
Theorem switchSession_maps_history (E : Env) (sessionId : string) (w : World)
        (Hmiss : sessions w !! sessionId = None) :
  exists w1 k,
    switchSession E sessionId w
    = AwaitHistory (mkHistoryCall (history_key E sessionId)) w1 k /\
    forall response w2,
    exists w3 loaded,
      k (Ok response) w2 = Returned (Some sessionId) w3 /\
      sessions w3 !! sessionId = Some loaded /\
      let records := default [] (response ≫= LoadPreviousSessionResponse.data) in
      length loaded = length records /\
      forall i record,
        records !! i = Some record ->
        exists m,
          loaded !! i = Some m /\
          ChatMessage.text m = LoadedMessage.content (LoadedMessage.kwargs record) /\
          (ChatMessage.sender m = user <->
           is_substring "HumanMessage" (LoadedMessage.id record)) /\
          (ChatMessage.sender m = bot <->
           ~ is_substring "HumanMessage" (LoadedMessage.id record)).
Proof.
  destruct (switchSession_miss E sessionId w Hmiss) as (k & Hk & _ & Hok).
  eexists _, k. split; [exact Hk|].
  intros response w2.
  exists (set_sessions
            (<[sessionId := history_messages response (clock_of E (clock_count w2))]>
               (sessions w2))
            (set_clock_count (S (clock_count w2)) (set_waitingForResponse false w2))),
         (history_messages response (clock_of E (clock_count w2))).
  split; [apply Hok|].
  split; [apply lookup_insert_eq|].
  unfold history_messages. split; [apply length_imap|].
  intros i record Hi. eexists. split.
  - rewrite list_lookup_imap, Hi. reflexivity.
  - simpl. split; [done|].
    rewrite <- includes_is_substring.
    destruct (includes "HumanMessage" (LoadedMessage.id record)); split; split; congruence.
Qed.

Lemma switchSession_maps_history_witness :
  let response :=
    Some (LoadPreviousSessionResponse.mk
            (Some [LoadedMessage.mk "HumanMessage-1" (LoadedMessage.mkKwargs "hey")])) in
  sessions (fresh_refs ∅) !! "unknown-id" = None /\
  exists w1 k,
    switchSession example_env "unknown-id" (fresh_refs ∅)
    = AwaitHistory (mkHistoryCall "unknown-id") w1 k /\
    exists w3,
      k (Ok response) w1 = Returned (Some "unknown-id") w3 /\
      exists m, sessions w3 !! "unknown-id" = Some [m] /\
                ChatMessage.sender m = user /\ ChatMessage.text m = "hey".
Proof.
  intros response. split; [reflexivity|].
  destruct (switchSession_maps_history example_env "unknown-id" (fresh_refs ∅) eq_refl)
    as (w1 & k & Hk & Hresume).
  exists w1, k. split; [exact Hk|].
  destruct (Hresume response w1) as (w3 & loaded & Hret & Hloaded & Hlen & Hrec).
  exists w3. split; [exact Hret|].
  destruct (Hrec 0%nat _ eq_refl) as (m & Hm & Htext & Huser & _).
  exists m. repeat split.
  - rewrite Hloaded. f_equal.
    destruct loaded as [|m' [|? ?]]; simpl in Hlen; [done| |done].
    simpl in Hm. congruence.
  - apply Huser. by exists "", "-1".
  - exact Htext.
Defined.

Lemma Object_keys_nonempty (r : SendMessageResponse.t) :
  (0 <? length (Object_keys r))%nat = true <->
  SendMessageResponse.output r <> None \/ SendMessageResponse.text r <> None
  \/ SendMessageResponse.otherKeys r <> [].
Proof.
  unfold Object_keys. destruct r as [[o|] [t|] [|x others]]; simpl;
    split; intros H; try done; auto; try discriminate.
  destruct H as [H|[H|H]]; done.
Qed.

(** C7.  The text of the bot reply of [sendMessage] is the response's
    [output], else its [text], else the empty text; when that is the empty
    text and the response object has a key, it is the JSON text of the whole
    response; and when serialising it throws, the exception is swallowed
    and the text stays empty: the call returns normally whatever
    [JSON.stringify] does. *)
Theorem sendMessage_reply_text (E : Env) (text : string) (files : list File) (w : World)
        (a : string)
        (Hactive : activeSessionId w = Some a) (Hnonempty : a <> "") :
  exists c w1 k,
    sendMessage E text files w = AwaitSend c w1 k /\
    forall response w2 s2,
      activeSessionId w2 = Some s2 ->
      exists w3 earlier reply,
        k (Ok response) w2 = Returned tt w3 /\
        sessions w3 !! s2 = Some (earlier ++ [reply]) /\
        ChatMessage.sender reply = bot /\
        let textMessage :=
          match SendMessageResponse.output response with
          | Some s => s
          | None => match SendMessageResponse.text response with
                    | Some s => s
                    | None => ""
                    end
          end in
        let has_keys :=
          SendMessageResponse.output response <> None
          \/ SendMessageResponse.text response <> None
          \/ SendMessageResponse.otherKeys response <> [] in
        (textMessage <> "" -> ChatMessage.text reply = textMessage) /\
        (textMessage = "" -> ~ has_keys -> ChatMessage.text reply = "") /\
        (textMessage = "" -> has_keys ->
         forall s, JSON_stringify_response E response = Ok s ->
                   ChatMessage.text reply = s) /\
        (textMessage = "" -> has_keys ->
         forall e, JSON_stringify_response E response = Raise e ->
                   ChatMessage.text reply = "").
Proof.
  destruct (sendMessage_run E text files w a Hactive Hnonempty)
    as (k & Hk & _ & _ & Hok).
  eexists _, _, k. split; [exact Hk|].
  intros response w2 s2 Hs2. specialize (Hok response w2 s2 Hs2). simpl in Hok.
  eexists _, _, _. split; [exact Hok|]. simpl.
  split; [apply lookup_insert_eq|]. split; [done|].
  unfold reply_text. fold (response_text response).
  pose proof (Object_keys_nonempty response) as Hkeys.
  destruct (String.eqb_spec (response_text response) "") as [Hempty|Hfull]; simpl.
  - destruct (0 <? length (Object_keys response))%nat.
    + repeat split; try done.
      * intros _ Hno. destruct Hno. by apply Hkeys.
      * intros _ _ s Hs. by rewrite Hs.
      * intros _ _ e He. by rewrite He.
    + repeat split; try done; intros _ Hyes; apply Hkeys in Hyes; done.
  - repeat split; done.
Qed.

Lemma sendMessage_reply_text_witness :
  activeSessionId example_open_session = Some "s-1" /\ "s-1" <> "" /\
  exists c w1 k,
    sendMessage example_env "hi" [] example_open_session = AwaitSend c w1 k /\
    exists w3 earlier reply,
      k (Ok example_unserialisable) w1 = Returned tt w3 /\
      sessions w3 !! "s-1" = Some (earlier ++ [reply]) /\
      ChatMessage.text reply = "".
Proof.
  assert (Hactive : activeSessionId example_open_session = Some "s-1") by reflexivity.
  assert (Hnonempty : "s-1" <> "") by discriminate.
  split; [exact Hactive|]. split; [exact Hnonempty|].
  destruct (sendMessage_run example_env "hi" [] example_open_session "s-1"
              Hactive Hnonempty) as (k0 & Hk0 & _).
  destruct (sendMessage_reply_text example_env "hi" [] example_open_session "s-1"
              Hactive Hnonempty) as (c & w1 & k & Hk & Hresume).
  exists c, w1, k. split; [exact Hk|].
  assert (Hw1 : activeSessionId w1 = Some "s-1").
  { rewrite Hk0 in Hk. by injection Hk as _ <- _. }
  destruct (Hresume example_unserialisable w1 "s-1" Hw1)
    as (w3 & earlier & reply & Hret & Hsess & _ & _ & _ & _ & Hthrows).
  exists w3, earlier, reply. split; [exact Hret|]. split; [exact Hsess|].
  apply (Hthrows eq_refl) with (e := TypeError).
  - right; right; discriminate.
  - vm_compute; reflexivity.
Defined.

(** C9.  [loadPreviousSession] does nothing and returns [undefined] when
    the option of that name is not set.  Otherwise, when [localStorage]
    holds a last session id and the persisted registry has a summary with
    that id, it loads the persisted registry into [conversations] and
    behaves as [switchSession] on that id, returning its result; in every
    other case it runs [startNewSession] and returns [undefined]. *)
Theorem loadPreviousSession_cases (E : Env) (w : World) :
  let enabled := default false (ChatOptions.loadPreviousSession (options E)) in
  let lastId := localStorage w !! localStorageSessionIdKey E in
  exists stored,
    getStoredConversations E w = Returned stored w /\
    (enabled = false -> loadPreviousSession E w = Returned None w) /\
    (enabled = true ->
     forall s, lastId = Some s -> s <> "" ->
               (exists c, In c stored /\ ConversationMeta.id c = s) ->
               outcome_equiv (loadPreviousSession E w)
                             (switchSession E s (set_conversations stored w))) /\
    (enabled = true ->
     lastId = None \/ lastId = Some ""
     \/ (exists s, lastId = Some s /\
                   ~ exists c, In c stored /\ ConversationMeta.id c = s) ->
     exists w', startNewSession E w = Returned tt w' /\
                loadPreviousSession E w = Returned None w').
Proof.
  intros enabled lastId.
  destruct (loadPreviousSession_unfold E w) as (stored & Hrun & Hstart & Hunfold).
  fold enabled lastId in Hunfold.
  exists stored. split; [exact Hrun|]. split; [|split].
  - intros Hoff. by rewrite Hunfold, Hoff.
  - intros Hon s Hs Hne (c & Hc & Hid).
    rewrite Hunfold, Hon, Hs. apply truthy_Some in Hne. rewrite Hne.
    destruct (List.find (conversation_is s) stored) eqn:Hfind.
    + apply bind_ret_equiv.
    + apply find_conversation_None in Hfind. destruct Hfind.
      apply in_map_iff. by exists c.
  - intros Hon Hcases. exists (world_of (startNewSession E w)).
    split; [exact Hstart|]. rewrite Hunfold, Hon.
    destruct Hcases as [->|[->|(s & -> & Hnone)]]; [done|done|].
    destruct (truthy (Some s)); [|done].
    destruct (List.find (conversation_is s) stored) eqn:Hfind; [|done].
    apply find_conversation_Some in Hfind. destruct Hnone. by exists t.
Qed.

Lemma loadPreviousSession_cases_witness :
  outcome_equiv
    (loadPreviousSession example_env example_returning_visitor)
    (switchSession example_env "s-1"
       (set_conversations example_registry example_returning_visitor)).
Proof.
  destruct (loadPreviousSession_cases example_env example_returning_visitor)
    as (stored & Hrun & _ & Hresume & _).
  assert (Hstored : stored = example_registry).
  { destruct (getStoredConversations_run example_env example_returning_visitor)
      as (stored' & Hrun' & ->).
    rewrite Hrun' in Hrun. by injection Hrun as <-. }
  rewrite <- Hstored. apply Hresume.
  - reflexivity.
  - vm_compute; reflexivity.
  - discriminate.
  - rewrite Hstored. eexists. split; [left; reflexivity | reflexivity].
Defined.

Lemma example_send_rejected_reachable :
  reachable example_env (example_send_rejected, []).
Proof.
  assert (Hactive : activeSessionId example_first_session = Some "uuid-0")
    by (vm_compute; reflexivity).
  destruct (sendMessage_run example_env "hi" [] example_first_session "uuid-0" Hactive
              ltac:(discriminate)) as (k & Hk & Herr & _).
  pose proof (reachable_call example_env example_first_session [] (SendMessage "hi" [])
                example_first_session_reachable) as Hsent.
  unfold example_send_rejected, example_send_in_flight.
  cbn [run] in Hsent. rewrite Hk in Hsent |- *.
  cbn [world_of suspended rejected app] in Hsent |- *.
  apply (reachable_settle_send example_env _ [] _ k (Raise (Rejected "503"))) in Hsent.
  rewrite Herr in Hsent |- *. exact Hsent.
Qed.

(** C10, counterexample.  The backend rejects a [sendMessage] call, which
    leaves the flag set; [startNewSession] then completes normally, and the
    flag is still set. *)
Lemma flag_false_after_every_operation_fails :
  ~ flag_false_after_every_operation example_env.
Proof.
  intros H.
  specialize (H (example_send_rejected, []) StartNewSession
                (world_of (startNewSession example_env example_send_rejected))
                example_send_rejected_reachable).
  cbn [run fst] in H. rewrite startNewSession_run in H. cbn [world_of] in H.
  specialize (H (completes_returned _ _)). vm_compute in H. discriminate H.
Qed.

(** C10, as amended.  [sendMessage] with a non-empty active session sets
    [waitingForResponse] before it awaits the send, and has cleared it when
    it returns after the reply, on whatever store it is resumed; without
    such a session it returns at once and touches nothing.  [switchSession]
    on a session that is not in memory sets the flag before it awaits the
    history and clears it when the history arrives; on a session in memory
    it leaves the flag as it is.  Neither clears the flag when the backend
    rejects.  No operation awaits without having set the flag, returns from
    an await without having cleared it, or changes it when it awaits
    nothing.  So the flag is false after every operation when the
    operations are called one after the other and each completes
    normally. *)
Theorem waitingForResponse_set_for_the_call (E : Env) :
  (forall text files w a,
      activeSessionId w = Some a -> a <> "" ->
      exists c w1 k,
        sendMessage E text files w = AwaitSend c w1 k /\
        waitingForResponse w1 = true /\
        (forall response w2,
            is_Some (activeSessionId w2) ->
            exists w3, k (Ok response) w2 = Returned tt w3 /\
                       waitingForResponse w3 = false) /\
        (forall e w2, k (Raise e) w2 = Thrown e w2)) /\
  (forall text files w,
      truthy (activeSessionId w) = false ->
      sendMessage E text files w = Returned tt w) /\
  (forall sessionId w,
      sessions w !! sessionId = None ->
      exists c w1 k,
        switchSession E sessionId w = AwaitHistory c w1 k /\
        waitingForResponse w1 = true /\
        (forall response w2,
            exists w3, k (Ok response) w2 = Returned (Some sessionId) w3 /\
                       waitingForResponse w3 = false) /\
        (forall e w2, k (Raise e) w2 = Thrown e w2)) /\
  (forall sessionId w,
      is_Some (sessions w !! sessionId) ->
      exists w', switchSession E sessionId w = Returned None w' /\
                 waitingForResponse w' = waitingForResponse w) /\
  (forall op w, flag_discipline w (run E op w)) /\
  (forall w, reachable_in_sequence E w -> waitingForResponse w = false).
Proof.
  split; [|split; [|split; [|split; [|split]]]].
  - intros text files w a Hactive Hnonempty.
    destruct (sendMessage_run E text files w a Hactive Hnonempty)
      as (k & Hk & Herr & _ & Hok).
    eexists _, _, k. split; [exact Hk|]. split; [reflexivity|].
    split; [|exact Herr].
    intros response w2 [s2 Hs2].
    pose proof (Hok response w2 s2 Hs2) as Hw3. cbv zeta in Hw3.
    eexists. split; [exact Hw3 | reflexivity].
  - intros text files w. apply sendMessage_inactive.
  - intros sessionId w Hmiss.
    destruct (switchSession_miss E sessionId w Hmiss) as (k & Hk & Herr & Hok).
    eexists _, _, k. split; [exact Hk|]. split; [reflexivity|].
    split; [|exact Herr].
    intros response w2. eexists. split; [apply Hok | reflexivity].
  - intros sessionId w Hhit. eexists. split; [by apply switchSession_hit|].
    by destruct w.
  - apply flag_discipline_run.
  - induction 1 as [storage|w op w' _ IH Hcompletes].
    + destruct (install_run E storage) as (stored & ->). reflexivity.
    + by eapply flag_discipline_completes.
Qed.

Lemma waitingForResponse_set_for_the_call_witness :
  activeSessionId example_first_session = Some "uuid-0" /\ "uuid-0" <> "" /\
  exists c w1 k,
    sendMessage example_env "hi" [] example_first_session = AwaitSend c w1 k /\
    waitingForResponse w1 = true /\
    (exists w3, k (Ok (example_reply "hello")) w1 = Returned tt w3 /\
                waitingForResponse w3 = false) /\
    k (Raise (Rejected "503")) w1 = Thrown (Rejected "503") w1.
Proof.
  assert (Hactive : activeSessionId example_first_session = Some "uuid-0")
    by (vm_compute; reflexivity).
  assert (Hnonempty : "uuid-0" <> "") by discriminate.
  split; [exact Hactive|]. split; [exact Hnonempty|].
  destruct (sendMessage_run example_env "hi" [] example_first_session "uuid-0"
              Hactive Hnonempty) as (k0 & Hk0 & _).
  destruct (proj1 (waitingForResponse_set_for_the_call example_env)
              "hi" [] example_first_session "uuid-0" Hactive Hnonempty)
    as (c & w1 & k & Hk & Hset & Hok & Herr).
  exists c, w1, k. split; [exact Hk|]. split; [exact Hset|].
  assert (Hw1 : is_Some (activeSessionId w1)).
  { rewrite Hk0 in Hk. injection Hk as _ <- _. by exists "uuid-0". }
  split; [exact (Hok (example_reply "hello") w1 Hw1) | apply Herr].
Defined.

(** ** Conversation registry *)

Lemma update_first_In {A} (p : A -> bool) (f : A -> A) l c :
  List.find p l = Some c -> In (f c) (update_first p f l).
Proof.
  induction l as [|x r IH]; simpl; [done|].
  destruct (p x).
  - intros [= ->]. by left.
  - intros H. right. by apply IH.
Qed.

Lemma registry_after_exchange_has_summary E sessionId stats cc registry :
  exists c, In c (registry_after_exchange E sessionId stats cc registry)
            /\ ConversationMeta.id c = sessionId.
Proof.
  unfold registry_after_exchange.
  destruct (List.find (conversation_is sessionId) registry) as [c|] eqn:Hfind.
  - eexists. split.
    + apply sort_In. apply update_first_In. exact Hfind.
    + simpl. by apply find_conversation_Some in Hfind as [_ ?].
  - eexists. split.
    + apply sort_In, in_app_iff. right. by left.
    + done.
Qed.

Lemma example_history_loaded_reachable :
  reachable example_env (example_history_loaded, []).
Proof.
  apply in_sequence_reachable.
  apply (in_sequence_answered_history example_env example_installed
           (SwitchSession "s-9") example_history); [apply in_sequence_installed|].
  vm_compute; reflexivity.
Qed.

(** C3, counterexample.  A first-time visitor opens session ["s-9"], whose
    history on the backend holds a message of the user and one of the bot:
    the list in memory then has both senders and the registry is empty. *)
Lemma summary_iff_exchange_fails : ~ summary_iff_exchange example_env.
Proof.
  intros H.
  destruct (H _ example_history_loaded_reachable "s-9") as [_ Hsummary].
  destruct Hsummary as (c & Hc & _); [|vm_compute in Hc; done].
  exists [ChatMessage.mk "0" "hey" user None 1000;
          ChatMessage.mk "1" "hello" bot None 1000].
  split; [vm_compute; reflexivity|].
  split.
  - eexists. split; [left; reflexivity | reflexivity].
  - eexists. split; [right; left; reflexivity | reflexivity].
Qed.

(** The other direction fails as well, without any call: the registry of a
    returning visitor is loaded from [localStorage] when the plugin is
    installed, while the session map is empty. *)
Lemma summary_without_session :
  reachable example_env (world_of (install example_env example_returning_visitor), [])
  /\ has_summary (world_of (install example_env example_returning_visitor)) "s-1"
  /\ ~ has_exchange (world_of (install example_env example_returning_visitor)) "s-1".
Proof.
  split; [apply reachable_installed|]. split.
  - exists (ConversationMeta.mk "s-1" "Jan 1, 2025, 9:00 AM" 500
                                (ConversationMeta.mkCount 1 1)).
    split; [vm_compute; auto | reflexivity].
  - intros (l & Hl & _). vm_compute in Hl. discriminate Hl.
Qed.

(** C3, as amended.  Summaries are created by [sendMessage], and by nothing
    else: when a call of [sendMessage] returns, the registry has a summary
    of the session that is active then, and the in-memory list of that
    session holds a message of each sender; [switchSession] and
    [startNewSession] never change the registry, so that a history loaded
    by [switchSession] gets no summary whatever it holds, and
    [loadConversation] neither adds nor removes a summary. *)
Theorem summary_created_by_sendMessage_only (E : Env) :
  (forall text files w a,
      activeSessionId w = Some a -> a <> "" ->
      exists c w1 k,
        sendMessage E text files w = AwaitSend c w1 k /\
        forall response w2 s2,
          activeSessionId w2 = Some s2 ->
          exists w3,
            k (Ok response) w2 = Returned tt w3 /\
            has_summary w3 s2 /\ has_exchange w3 s2) /\
  (forall sessionId w,
      segments (fun a b => conversations b = conversations a)
               w (switchSession E sessionId w)) /\
  (forall w, exists w',
      startNewSession E w = Returned tt w' /\ conversations w' = conversations w) /\
  (forall conversationId w,
      segments (fun a b => map ConversationMeta.id (conversations b)
                           = map ConversationMeta.id (conversations a))
               w (loadConversation E conversationId w)).
Proof.
  split; [|split; [|split]].
  - intros text files w a Hactive Hnonempty.
    destruct (sendMessage_run E text files w a Hactive Hnonempty)
      as (k & Hk & _ & _ & Hok).
    eexists _, _, k. split; [exact Hk|].
    intros response w2 s2 Hs2.
    pose proof (Hok response w2 s2 Hs2) as Hw3. cbv zeta in Hw3.
    eexists. split; [exact Hw3|].
    split.
    + apply registry_after_exchange_has_summary.
    + eexists. split; [apply lookup_insert_eq|]. split.
      * eexists.
        split; [apply in_app_iff; left; apply in_app_iff; right; left; reflexivity|].
        reflexivity.
      * eexists. split; [apply in_app_iff; right; left; reflexivity|]. reflexivity.
  - apply switchSession_registry.
  - intros w. eexists. split; [apply startNewSession_run|]. reflexivity.
  - apply loadConversation_registry_ids.
Qed.

Lemma summary_created_by_sendMessage_only_witness :
  activeSessionId example_first_session = Some "uuid-0" /\ "uuid-0" <> "" /\
  exists c w1 k,
    sendMessage example_env "hi" [] example_first_session = AwaitSend c w1 k /\
    exists w3,
      k (Ok (example_reply "hello")) example_first_session = Returned tt w3 /\
      has_summary w3 "uuid-0" /\ has_exchange w3 "uuid-0".
Proof.
  assert (Hactive : activeSessionId example_first_session = Some "uuid-0")
    by (vm_compute; reflexivity).
  assert (Hnonempty : "uuid-0" <> "") by discriminate.
  split; [exact Hactive|]. split; [exact Hnonempty|].
  destruct (proj1 (summary_created_by_sendMessage_only example_env)
              "hi" [] example_first_session "uuid-0" Hactive Hnonempty)
    as (c & w1 & k & Hk & Hresume).
  exists c, w1, k. split; [exact Hk|].
  exact (Hresume (example_reply "hello") example_first_session "uuid-0" Hactive).
Defined.

(** ** Starting a session *)

(** Whether the seeds are stamped in each call depends on what Vue does
    with the cached value of [initialMessages]: in an environment whose
    [computed] never runs the getter again, the second of two calls of
    [startNewSession] in a row seeds its session with the messages of the
    first call. *)
Lemma seeds_stamped_in_each_call_fails : ~ seeds_stamped_in_each_call example_env.
Proof.
  intros H.
  destruct (H _ example_first_session_reachable example_second_session "uuid-3"
              [ChatMessage.mk "uuid-1" "Hi there!" bot None 1000;
               ChatMessage.mk "uuid-2" "How can I help?" bot None 2000])
    with (m := ChatMessage.mk "uuid-1" "Hi there!" bot None 1000)
    as [_ (j & Hj & _)].
  - vm_compute; reflexivity.
  - vm_compute; reflexivity.
  - vm_compute; reflexivity.
  - left; reflexivity.
  - vm_compute in Hj. lia.
Qed.



(** *** The ids of the store are ids a caller can hold *)

Section KnownIds.

Variable E : Env.
Hypothesis Hkeys : localStorageSessionIdKey E <> localStorageSessionConversationKeys E.

#[local] Instance keeps_ids_known_preorder n : PreOrder (keeps_ids_known E n).
Proof.
  split; unfold keeps_ids_known.
  - intros x _ Hx. by split.
  - intros x y z Hxy Hyz Hn Hx. destruct (Hxy Hn Hx) as [Hy Hle].
    destruct (Hyz ltac:(lia) Hy) as [Hz Hle']. split; [done | lia].
Qed.














End KnownIds.




(** ** Sending a message *)

(** Where the reply goes: the continuation of [sendMessage] appends the
    reply to the list it captured before the call, and stores the result
    under the session that is active when the reply arrives. *)
Lemma sendMessage_reply_destination (E : Env) text files w a :
  activeSessionId w = Some a -> a <> "" ->
  exists c w1 k updatedMessages,
    sendMessage E text files w = AwaitSend c w1 k /\
    send_sessionId c = a /\
    sessions w1 !! a = Some updatedMessages /\
    forall response w2 s2,
      activeSessionId w2 = Some s2 ->
      exists w3 reply,
        k (Ok response) w2 = Returned tt w3 /\
        ChatMessage.sender reply = bot /\
        ChatMessage.text reply = reply_text E response /\
        sessions w3 = <[s2 := updatedMessages ++ [reply]]> (sessions w2).
Proof.
  intros Hactive Hnonempty.
  destruct (sendMessage_run E text files w a Hactive Hnonempty) as (k & Hk & _ & _ & Hok).
  eexists _, _, k, _. split; [exact Hk|]. split; [reflexivity|].
  split; [destruct w; apply lookup_insert_eq|].
  intros response w2 s2 Hs2.
  pose proof (Hok response w2 s2 Hs2) as Hw3. cbv zeta in Hw3.
  eexists _, (ChatMessage.mk (uuid_of E (uuid_count w2)) (reply_text E response) bot None
                             (clock_of E (clock_count w2))).
  split; [exact Hw3|].
  split; [reflexivity|]. split; reflexivity.
Qed.

Lemma example_late_reply_reachable : reachable example_env (example_late_reply, []).
Proof.
  assert (Hactive : activeSessionId example_first_session = Some "uuid-0")
    by (vm_compute; reflexivity).
  destruct (sendMessage_run example_env "hi" [] example_first_session "uuid-0" Hactive
              ltac:(discriminate)) as (k & Hk & _ & _ & Hok).
  pose proof (reachable_call example_env example_first_session [] (SendMessage "hi" [])
                example_first_session_reachable) as Hsent.
  unfold example_late_reply, example_navigated_away, example_send_in_flight.
  cbn [run] in Hsent. rewrite Hk in Hsent |- *.
  cbn [world_of suspended resume_send app] in Hsent |- *.
  match type of Hsent with reachable _ (?x, _) => set (w1 := x) in * end.
  pose proof (reachable_call example_env w1 _ StartNewSession Hsent) as Hnew.
  cbn [run] in Hnew.
  assert (Hsusp : suspended (startNewSession example_env w1) = [])
    by (by rewrite startNewSession_run).
  rewrite Hsusp in Hnew. cbn [app] in Hnew.
  set (wB := world_of (startNewSession example_env w1)) in *.
  assert (HactiveB : is_Some (activeSessionId wB)).
  { unfold wB. rewrite startNewSession_run. simpl. by eexists. }
  destruct HactiveB as [sB HsB].
  pose proof (reachable_settle_send example_env wB [] _ k (Ok (example_reply "hello")) Hnew)
    as Hsettled.
  pose proof (Hok (example_reply "hello") wB sB HsB) as Hret. cbv zeta in Hret.
  rewrite Hret in Hsettled |- *. exact Hsettled.
Qed.

(** C1, the code at the failing input.  [sendMessage("hi")] starts while
    session ["uuid-0"] is active; while its backend call is in flight
    [startNewSession] makes ["uuid-4"] the active session; then the reply
    ["hello"] arrives.  It is not appended to the list of ["uuid-0"]: the
    list of ["uuid-4"] is replaced by the messages of ["uuid-0"] followed by
    the reply. *)
Theorem sendMessage_late_reply_lands_elsewhere :
  reachable example_env (example_late_reply, []) /\
  activeSessionId example_first_session = Some "uuid-0" /\
  activeSessionId example_navigated_away = Some "uuid-4" /\
  map ChatMessage.text <$> sessions example_late_reply !! "uuid-0"
  = Some ["Hi there!"; "How can I help?"; "hi"] /\
  map ChatMessage.text <$> sessions example_late_reply !! "uuid-4"
  = Some ["Hi there!"; "How can I help?"; "hi"; "hello"].
Proof.
  split; [exact example_late_reply_reachable|].
  repeat split; vm_compute; reflexivity.
Qed.

(** ** Order and uniqueness in the registry *)

Lemma registry_after_exchange_unique_ids E sessionId stats cc registry :
  unique_ids registry ->
  unique_ids (registry_after_exchange E sessionId stats cc registry).
Proof.
  intros Hunique. unfold registry_after_exchange. apply sort_unique_ids.
  unfold unique_ids in *.
  destruct (List.find (conversation_is sessionId) registry) eqn:Hfind.
  - by rewrite update_first_ids.
  - apply find_conversation_None in Hfind.
    rewrite map_app. simpl. apply NoDup_app. split; [done|]. split.
    + intros x Hx [->|[]%elem_of_nil]%elem_of_cons. by apply Hfind, list_elem_of_In.
    + apply NoDup_singleton.
Qed.

(** What the claim says of [sendMessage] holds: when it returns, the
    registry is sorted by recency, and it has no two summaries of one
    session unless it had before. *)
Lemma sendMessage_registry_sorted (E : Env) text files w a :
  activeSessionId w = Some a -> a <> "" ->
  exists c w1 k,
    sendMessage E text files w = AwaitSend c w1 k /\
    forall response w2 s2,
      activeSessionId w2 = Some s2 ->
      exists w3,
        k (Ok response) w2 = Returned tt w3 /\
        recency_sorted (conversations w3) /\
        (unique_ids (conversations w2) -> unique_ids (conversations w3)) /\
        localStorage w3 !! localStorageSessionConversationKeys E
        = Some (JSON_stringify E (conversations w3)).
Proof.
  intros Hactive Hnonempty.
  destruct (sendMessage_run E text files w a Hactive Hnonempty) as (k & Hk & _ & _ & Hok).
  eexists _, _, k. split; [exact Hk|].
  intros response w2 s2 Hs2.
  pose proof (Hok response w2 s2 Hs2) as Hw3. cbv zeta in Hw3.
  eexists. split; [exact Hw3|]. simpl.
  split; [apply sort_recency_sorted|].
  split; [apply registry_after_exchange_unique_ids|].
  apply lookup_insert_eq.
Qed.

(** [loadConversation] keeps the summaries apart, too. *)
Lemma loadConversation_unique_ids (E : Env) conversationId w :
  segments (fun a b => unique_ids (conversations a) -> unique_ids (conversations b))
           w (loadConversation E conversationId w).
Proof.
  eapply segments_mono; [|apply loadConversation_registry_ids].
  unfold unique_ids. intros a b ->. done.
Qed.

Lemma example_second_exchange_in_sequence :
  reachable_in_sequence example_env example_second_exchange.
Proof.
  apply (in_sequence_answered_send example_env
           (world_of (startNewSession example_env example_first_exchange))
           (SendMessage "yo" []) (example_reply "hey")); [|vm_compute; reflexivity].
  apply (in_sequence_returned example_env example_first_exchange StartNewSession);
    [exact example_first_exchange_in_sequence | vm_compute; reflexivity].
Qed.

(** C2, the code at the failing input.  Two sessions have had one exchange
    each, ["uuid-0"] before ["uuid-5"], and the registry is sorted.  The
    user reopens the older one: [loadConversation("uuid-0")] gives its
    summary the most recent [lastUpdated] of all and leaves it in second
    place, so the registry it stores is not sorted by recency. *)
Theorem loadConversation_leaves_registry_unsorted :
  reachable_in_sequence example_env example_second_exchange /\
  recency_sorted (conversations example_second_exchange) /\
  completes (run example_env (LoadConversation "uuid-0") example_second_exchange)
            tt example_first_reopened /\
  map (fun c => (ConversationMeta.id c, ConversationMeta.lastUpdated c))
      (conversations example_first_reopened)
  = [("uuid-5", 10000); ("uuid-0", 11000)] /\
  ~ recency_sorted (conversations example_first_reopened).
Proof.
  assert (Hregistry :
    map (fun c => (ConversationMeta.id c, ConversationMeta.lastUpdated c))
        (conversations example_first_reopened)
    = [("uuid-5", 10000); ("uuid-0", 11000)]) by (vm_compute; reflexivity).
  split; [exact example_second_exchange_in_sequence|].
  split; [|split; [|split; [exact Hregistry|]]].
  - assert (Hbefore :
      map ConversationMeta.lastUpdated (conversations example_second_exchange)
      = [10000; 6000]) by (vm_compute; reflexivity).
    destruct (conversations example_second_exchange) as [|c1 [|c2 [|c3 r]]];
      try discriminate Hbefore.
    injection Hbefore as H1 H2.
    unfold recency_sorted. repeat constructor. lia.
  - assert (Hrun : run example_env (LoadConversation "uuid-0") example_second_exchange
                   = Returned tt example_first_reopened) by (vm_compute; reflexivity).
    rewrite Hrun. constructor.
  - destruct (conversations example_first_reopened) as [|c1 [|c2 [|c3 r]]];
      try discriminate Hregistry.
    injection Hregistry as _ H1 _ H2.
    unfold recency_sorted. intros Hsorted.
    apply StronglySorted_inv in Hsorted as [_ Hfirst].
    apply Forall_cons in Hfirst as [Hle _]. lia.
Qed.

(** * Further properties of the store *)

(** ** What holds along every run *)

(** The same frame lemmas for relations that tolerate only the writes the
    operations make: counters that go up by one, an entry put into the
    session map or into [localStorage], pointers set to an id. *)
Section Writes.

Variable E : Env.
Context (R : World -> World -> Prop) `{!PreOrder R}.

Hypothesis R_uuidv4 : forall w, R w (set_uuid_count (S (uuid_count w)) w).
Hypothesis R_new_Date : forall w, R w (set_clock_count (S (clock_count w)) w).
Hypothesis R_sessions_set :
  forall k v w, R w (set_sessions (<[k := v]> (sessions w)) w).
Hypothesis R_waitingForResponse : forall v w, R w (set_waitingForResponse v w).
Hypothesis R_setItem :
  forall k v w, R w (set_localStorage (<[k := v]> (localStorage w)) w).
Hypothesis R_currentSessionId : forall s w, R w (set_currentSessionId (Some s) w).
Hypothesis R_activeSessionId : forall s w, R w (set_activeSessionId (Some s) w).
Hypothesis R_conversations : forall v w, R w (set_conversations v w).
Hypothesis R_startNewSession : forall w, segments R w (startNewSession E w).

Lemma writes_getStoredConversations w :
  segments R w (getStoredConversations E w).
Proof. unfold getStoredConversations. repeat segments_step; auto. Qed.

Lemma writes_switchSession sessionId w :
  segments R w (switchSession E sessionId w).
Proof. unfold switchSession. repeat segments_step; auto. Qed.

Lemma writes_sendMessage text files w :
  segments R w (sendMessage E text files w).
Proof. unfold sendMessage. repeat segments_step; auto. Qed.

Lemma writes_loadConversation conversationId w :
  segments R w (loadConversation E conversationId w).
Proof.
  unfold loadConversation.
  apply (segments_bind R); [apply writes_switchSession|]. intros _ w'.
  repeat segments_step; auto.
Qed.

Lemma writes_loadPreviousSession w :
  segments R w (loadPreviousSession E w).
Proof.
  unfold loadPreviousSession.
  repeat first [ apply writes_getStoredConversations
               | apply writes_switchSession
               | apply R_startNewSession
               | segments_step ]; auto.
Qed.

Lemma writes_run op w : segments R w (run E op w).
Proof.
  destruct op as [text files|sessionId|conversationId| |]; simpl.
  - apply writes_sendMessage.
  - apply (segments_bind R); [apply writes_switchSession|].
    intros _ w'. apply (segments_ret R).
  - apply writes_loadConversation.
  - apply (segments_bind R); [apply writes_loadPreviousSession|].
    intros _ w'. apply (segments_ret R).
  - apply R_startNewSession.
Qed.

End Writes.

(** A preorder kept by every stretch of every operation relates every
    reachable store to every store the event loop can reach from it. *)
Section Along.

Variable E : Env.
Context (R : World -> World -> Prop) `{!PreOrder R}.
Hypothesis R_run : forall op w, segments R w (run E op w).

Lemma step_keeps cfg cfg' :
  Forall (pending_keeps R) cfg.2 -> step E cfg cfg' ->
  R cfg.1 cfg'.1 /\ Forall (pending_keeps R) cfg'.2.
Proof.
  intros Hps Hstep.
  destruct Hstep as [w ps op|w ps i c k r Hi|w ps i c k r Hi]; simpl in *.
  - pose proof (R_run op w) as Hseg. split.
    + by apply (segments_world_of R).
    + apply Forall_app. split; [by eapply segments_suspended | done].
  - assert (Hk : pending_keeps R (PendingSend c k))
      by (eapply Forall_lookup_1 in Hps; eauto).
    simpl in Hk. specialize (Hk r w). split.
    + by apply (segments_world_of R).
    + apply Forall_app. split;
        [by eapply segments_suspended | by apply Forall_delete_list].
  - assert (Hk : pending_keeps R (PendingHistory c k))
      by (eapply Forall_lookup_1 in Hps; eauto).
    simpl in Hk. specialize (Hk r w). split.
    + by apply (segments_world_of R).
    + apply Forall_app. split;
        [by eapply segments_suspended | by apply Forall_delete_list].
Qed.

Lemma reachable_pending_keeps cfg :
  reachable E cfg -> Forall (pending_keeps R) cfg.2.
Proof.
  induction 1 as [storage|cfg cfg' _ IH Hstep].
  - constructor.
  - by apply (step_keeps cfg cfg').
Qed.

Lemma along_the_run cfg cfg' :
  reachable E cfg -> rtc (step E) cfg cfg' -> R cfg.1 cfg'.1.
Proof.
  intros Hreach Hsteps. apply reachable_pending_keeps in Hreach.
  induction Hsteps as [cfg|cfg cfg1 cfg2 Hstep _ IH].
  - reflexivity.
  - destruct (step_keeps cfg cfg1 Hreach Hstep) as [HR Hps].
    etransitivity; [exact HR | by apply IH].
Qed.

End Along.

(** X1.  A session that is in memory stays in memory: whatever operations
    run and however they overlap, no session is ever removed from the
    session map, so that [switchSession] on it makes no backend call. *)
Theorem sessions_never_deleted (E : Env) (cfg cfg' : Config) (sessionId : string)
        (Hreach : reachable E cfg)
        (Hsteps : rtc (step E) cfg cfg')
        (Hloaded : is_Some (sessions cfg.1 !! sessionId)) :
  is_Some (sessions cfg'.1 !! sessionId) /\
  exists w', switchSession E sessionId cfg'.1 = Returned None w'.
Proof.
  set (R := fun a b : World =>
              forall sid, is_Some (sessions a !! sid) -> is_Some (sessions b !! sid)).
  assert (HR : PreOrder R) by (split; unfold R; [intros x; auto | intros x y z; auto]).
  assert (Hkept : R cfg.1 cfg'.1).
  { apply (along_the_run E R); [|done|done].
    intros op w. apply (writes_run E R); unfold R; try (by intros; destruct w).
    - intros k v [] sid Hsid. simpl in *. apply lookup_insert_is_Some.
      destruct (decide (k = sid)); auto.
    - intros w'. rewrite startNewSession_run. simpl. intros sid Hsid.
      apply lookup_insert_is_Some.
      destruct (decide (uuid_of E (uuid_count w') = sid)); auto. }
  split; [by apply Hkept|].
  eexists. apply switchSession_hit. by apply Hkept.
Qed.

Lemma sessions_never_deleted_witness :
  reachable example_env (example_first_session, []) /\
  rtc (step example_env) (example_first_session, [])
      (world_of (run example_env (SwitchSession "s-9") example_first_session),
       suspended (run example_env (SwitchSession "s-9") example_first_session) ++ []) /\
  is_Some (sessions example_first_session !! "uuid-0") /\
  is_Some (sessions (world_of (run example_env (SwitchSession "s-9")
                                   example_first_session)) !! "uuid-0").
Proof.
  assert (Hsteps : rtc (step example_env) (example_first_session, [])
      (world_of (run example_env (SwitchSession "s-9") example_first_session),
       suspended (run example_env (SwitchSession "s-9") example_first_session) ++ []))
    by (apply rtc_once; constructor).
  assert (Hloaded : is_Some (sessions example_first_session !! "uuid-0"))
    by (vm_compute; eauto).
  split; [exact example_first_session_reachable|].
  split; [exact Hsteps|]. split; [exact Hloaded|].
  exact (proj1 (sessions_never_deleted example_env _ _ "uuid-0"
                  example_first_session_reachable Hsteps Hloaded)).
Defined.

(** X2.  Once a session is active there is one ever after: from any
    reachable store, whatever operations run and however they overlap, the
    active session pointer is never set back to [null]. *)
Theorem activeSessionId_never_cleared (E : Env) (cfg cfg' : Config)
        (Hreach : reachable E cfg)
        (Hsteps : rtc (step E) cfg cfg')
        (Hset : is_Some (activeSessionId cfg.1)) :
  is_Some (activeSessionId cfg'.1).
Proof.
  set (R := fun a b : World => is_Some (activeSessionId a) -> is_Some (activeSessionId b)).
  assert (HR : PreOrder R) by (split; unfold R; [intros x; tauto | intros x y z; tauto]).
  exact (along_the_run E R (active_never_cleared E) cfg cfg' Hreach Hsteps Hset).
Qed.

Lemma activeSessionId_never_cleared_witness :
  reachable example_env (example_first_session, []) /\
  rtc (step example_env) (example_first_session, [])
      (world_of (run example_env (SwitchSession "s-9") example_first_session),
       suspended (run example_env (SwitchSession "s-9") example_first_session) ++ []) /\
  is_Some (activeSessionId example_first_session) /\
  is_Some (activeSessionId (world_of (run example_env (SwitchSession "s-9")
                                          example_first_session))).
Proof.
  assert (Hsteps : rtc (step example_env) (example_first_session, [])
      (world_of (run example_env (SwitchSession "s-9") example_first_session),
       suspended (run example_env (SwitchSession "s-9") example_first_session) ++ []))
    by (apply rtc_once; constructor).
  assert (Hset : is_Some (activeSessionId example_first_session))
    by (vm_compute; eauto).
  split; [exact example_first_session_reachable|].
  split; [exact Hsteps|]. split; [exact Hset|].
  exact (activeSessionId_never_cleared example_env (example_first_session, [])
           (world_of (run example_env (SwitchSession "s-9") example_first_session),
            suspended (run example_env (SwitchSession "s-9") example_first_session) ++ [])
           example_first_session_reachable Hsteps Hset).
Defined.

(** ** The two session pointers *)

Lemma refreshed_pointers E conversationId w :
  currentSessionId (refreshed E conversationId w) = currentSessionId w /\
  activeSessionId (refreshed E conversationId w) = activeSessionId w.
Proof. unfold refreshed. by destruct (List.find _ _), w. Qed.

Section Pointers.

Variable E : Env.

Let agree (w : World) : Prop := currentSessionId w = activeSessionId w.
Let R (a b : World) : Prop := agree a -> agree b.

Local Instance R_preorder : PreOrder R.
Proof. split; unfold R; [intros x; tauto | intros x y z; tauto]. Qed.

Ltac agree_tac w := unfold R, agree; destruct w; simpl; congruence.

Lemma pointers_switchSession sessionId w :
  segments R w (switchSession E sessionId w).
Proof.
  destruct (sessions w !! sessionId) as [l|] eqn:Hl.
  - rewrite switchSession_hit by (by rewrite Hl). agree_tac w.
  - destruct (switchSession_miss E sessionId w Hl) as (k & -> & Herr & Hok).
    split; [agree_tac w|]. intros [response|e] w'.
    + rewrite Hok. agree_tac w'.
    + rewrite Herr. simpl. reflexivity.
Qed.

Lemma pointers_run op w : segments R w (run E op w).
Proof.
  destruct op as [text files|sessionId|conversationId| |]; simpl.
  - set (R' := fun a b : World => currentSessionId b = currentSessionId a
                                  /\ activeSessionId b = activeSessionId a).
    assert (HR' : PreOrder R').
    { split; unfold R'; [intros x; done | intros x y z [-> ->] [-> ->]; done]. }
    apply (segments_mono R'); [unfold R', R, agree; intros a b [-> ->]; done|].
    apply (writes_sendMessage E R'); unfold R'; try (by intros; destruct w).
  - apply (segments_bind R); [apply pointers_switchSession|].
    intros _ w'. apply (segments_ret R).
  - destruct (sessions w !! conversationId) as [l|] eqn:Hl.
    + rewrite loadConversation_hit by (by rewrite Hl). simpl.
      unfold R, agree. destruct (refreshed_pointers E conversationId
        (set_currentSessionId (Some conversationId)
           (set_activeSessionId (Some conversationId) w))) as [-> ->].
      agree_tac w.
    + destruct (loadConversation_miss E conversationId w Hl) as (k & -> & Herr & Hok).
      split; [agree_tac w|]. intros [response|e] w'.
      * rewrite Hok. simpl. unfold R, agree.
        match goal with |- _ -> currentSessionId (refreshed _ _ ?x) = _ =>
          destruct (refreshed_pointers E conversationId x) as [-> ->] end.
        agree_tac w'.
      * rewrite Herr. simpl. reflexivity.
  - apply (segments_bind R); [|intros _ w'; apply (segments_ret R)].
    destruct (loadPreviousSession_unfold E w) as (stored & _ & _ & ->).
    assert (Hnew : segments R w
                     (Returned (@None string) (world_of (startNewSession E w))))
      by (rewrite startNewSession_run; agree_tac w).
    destruct (default false (ChatOptions.loadPreviousSession (options E)));
      [|simpl; reflexivity].
    destruct (localStorage w !! localStorageSessionIdKey E) as [s|]; [|exact Hnew].
    destruct (truthy (Some s)); [|exact Hnew].
    destruct (List.find (conversation_is s) stored); [|exact Hnew].
    apply (segments_bind_outcome R); [|intros r w'; apply (segments_ret R)].
    apply (segments_start R _ (set_conversations stored w)); [agree_tac w|].
    apply pointers_switchSession.
  - rewrite startNewSession_run. agree_tac w.
Qed.

End Pointers.

(** X4.  The two session pointers never part: in every reachable
    configuration [currentSessionId] equals [activeSessionId], so that
    [getCurrentSessionId()] is the session the next [sendMessage] writes to,
    and the item the switcher highlights is the conversation whose messages
    are shown. *)
Theorem current_is_active (E : Env) (cfg : Config) (Hreach : reachable E cfg) :
  getCurrentSessionId cfg.1 = activeSessionId cfg.1 /\
  forall conv,
    item_active cfg.1 conv = true <->
    activeSessionId cfg.1 = Some (ConversationMeta.id conv).
Proof.
  assert (Hagree : currentSessionId cfg.1 = activeSessionId cfg.1).
  { apply (reachable_invariant E
             (fun w => currentSessionId w = activeSessionId w)); [|apply pointers_run|done].
    intros storage. destruct (install_run E storage) as (stored & ->). reflexivity. }
  split; [exact Hagree|].
  intros conv. unfold item_active. rewrite Hagree.
  destruct (activeSessionId cfg.1) as [s|]; [|split; discriminate].
  rewrite String.eqb_eq. split; [by intros -> | by intros [= ->]].
Qed.

Lemma current_is_active_witness :
  reachable example_env (example_late_reply, []) /\
  getCurrentSessionId example_late_reply = activeSessionId example_late_reply.
Proof.
  split; [exact example_late_reply_reachable|].
  exact (proj1 (current_is_active example_env (example_late_reply, [])
                  example_late_reply_reachable)).
Defined.

(** ** What [sendMessage] leaves behind *)

Lemma count_senders_total l :
  (ConversationMeta.user (count_senders l) + ConversationMeta.bot (count_senders l))%nat
  = length l.
Proof.
  unfold count_senders. simpl. induction l as [|m l IH]; simpl; [done|].
  assert (Hm : is_sender user m = negb (is_sender bot m))
    by (unfold is_sender; by destruct (ChatMessage.sender m)).
  rewrite Hm. destruct (is_sender bot m); simpl; lia.
Qed.

Lemma update_first_cases {A} (p : A -> bool) (f : A -> A) l y :
  In y (update_first p f l) ->
  In y l \/ exists c, In c l /\ p c = true /\ y = f c.
Proof.
  induction l as [|x r IH]; simpl; [done|].
  destruct (p x) eqn:Hx; simpl.
  - intros [<-|Hy]; [right; exists x; auto | left; auto].
  - intros [<-|Hy]; [left; auto|].
    destruct (IH Hy) as [?|(c & ? & ? & ?)]; [left; auto | right; exists c; auto].
Qed.

Lemma update_first_keeps {A} (p : A -> bool) (f : A -> A) l c :
  In c l -> In c (update_first p f l) \/ In (f c) (update_first p f l).
Proof.
  induction l as [|x r IH]; simpl; [done|].
  destruct (p x); simpl.
  - intros [<-|Hc]; [right; auto | left; auto].
  - intros [<-|Hc]; [left; auto|]. destruct (IH Hc); auto.
Qed.

Lemma update_first_unique sessionId (f : ConversationMeta.t -> ConversationMeta.t) l y :
  (forall c, ConversationMeta.id (f c) = ConversationMeta.id c) ->
  unique_ids l ->
  In y (update_first (conversation_is sessionId) f l) ->
  ConversationMeta.id y = sessionId ->
  exists c, In c l /\ y = f c.
Proof.
  intros Hf. unfold unique_ids.
  induction l as [|x r IH]; simpl; [done|].
  intros [Hx Hr]%NoDup_cons. unfold conversation_is at 1.
  destruct (String.eqb_spec (ConversationMeta.id x) sessionId) as [Heq|Hne]; simpl.
  - intros [<-|Hy] Hid; [exists x; auto|].
    destruct Hx. rewrite Heq, <- Hid. apply list_elem_of_In, in_map, Hy.
  - intros [<-|Hy] Hid; [done|].
    destruct (IH Hr Hy Hid) as (c & Hc & ->). exists c. auto.
Qed.

(** X5.  When [sendMessage] returns, the list that [messages] shows is the
    list of the session the call started in, followed by the message sent
    and the reply: this holds on whatever store the call is resumed, the
    active session being named by a non-empty id. *)
Theorem sendMessage_shows_exchange (E : Env) (text : string) (files : list File)
        (w : World) (a : string)
        (Hactive : activeSessionId w = Some a) (Hnonempty : a <> "") :
  exists c w1 k sent,
    sendMessage E text files w = AwaitSend c w1 k /\
    ChatMessage.text sent = text /\
    ChatMessage.sender sent = user /\
    ChatMessage.files sent = Some files /\
    messages w1 = messages w ++ [sent] /\
    forall response w2 s2,
      activeSessionId w2 = Some s2 -> s2 <> "" ->
      exists w3 reply,
        k (Ok response) w2 = Returned tt w3 /\
        ChatMessage.sender reply = bot /\
        messages w3 = messages w ++ [sent; reply].
Proof.
  destruct (sendMessage_run E text files w a Hactive Hnonempty) as (k & Hk & _ & _ & Hok).
  assert (Hmessages : messages w = default [] (sessions w !! a)).
  { unfold messages. rewrite Hactive.
    apply truthy_Some in Hnonempty. by rewrite Hnonempty. }
  eexists _, _, k, (ChatMessage.mk (uuid_of E (uuid_count w)) text user (Some files)
                                   (clock_of E (clock_count w))).
  split; [exact Hk|].
  split; [reflexivity|]. split; [reflexivity|]. split; [reflexivity|]. split.
  - rewrite Hmessages. apply truthy_Some in Hnonempty.
    destruct w. cbn [activeSessionId sessions] in *. subst.
    unfold messages. cbn [activeSessionId sessions set_waitingForResponse set_sessions
                          set_clock_count set_uuid_count].
    rewrite Hnonempty. by rewrite lookup_insert_eq.
  - intros response w2 s2 Hs2 Hne2.
    pose proof (Hok response w2 s2 Hs2) as Hw3. cbv zeta in Hw3.
    eexists _, (ChatMessage.mk (uuid_of E (uuid_count w2)) (reply_text E response)
                               bot None (clock_of E (clock_count w2))).
    split; [exact Hw3|]. split; [reflexivity|].
    unfold messages at 1. cbn [activeSessionId sessions]. apply truthy_Some in Hne2.
    rewrite Hne2, lookup_insert_eq. cbn [default]. rewrite Hmessages.
    by rewrite <- app_assoc.
Qed.

Lemma sendMessage_shows_exchange_witness :
  activeSessionId example_first_session = Some "uuid-0" /\ "uuid-0" <> "" /\
  exists c w1 k sent,
    sendMessage example_env "hi" [] example_first_session = AwaitSend c w1 k /\
    ChatMessage.text sent = "hi" /\
    exists w3 reply,
      k (Ok (example_reply "hello")) example_first_session = Returned tt w3 /\
      ChatMessage.sender reply = bot /\
      messages w3 = messages example_first_session ++ [sent; reply].
Proof.
  assert (Hactive : activeSessionId example_first_session = Some "uuid-0")
    by (vm_compute; reflexivity).
  assert (Hnonempty : "uuid-0" <> "") by discriminate.
  split; [exact Hactive|]. split; [exact Hnonempty|].
  destruct (sendMessage_shows_exchange example_env "hi" [] example_first_session
              "uuid-0" Hactive Hnonempty)
    as (c & w1 & k & sent & Hk & Htext & _ & _ & _ & Hresume).
  exists c, w1, k, sent. split; [exact Hk|]. split; [exact Htext|].
  exact (Hresume (example_reply "hello") example_first_session "uuid-0"
                 Hactive Hnonempty).
Defined.

Lemma sendMessage_registry (E : Env) text files w a :
  activeSessionId w = Some a -> a <> "" ->
  exists c w1 k,
    sendMessage E text files w = AwaitSend c w1 k /\
    forall response w2 s2,
      activeSessionId w2 = Some s2 ->
      exists w3 final,
        k (Ok response) w2 = Returned tt w3 /\
        sessions w3 !! s2 = Some final /\
        conversations w3
        = registry_after_exchange E s2 (count_senders final) (S (clock_count w2))
                                  (conversations w2) /\
        localStorage w3
        = <[localStorageSessionConversationKeys E := JSON_stringify E (conversations w3)]>
            (localStorage w2).
Proof.
  intros Hactive Hnonempty.
  destruct (sendMessage_run E text files w a Hactive Hnonempty) as (k & Hk & _ & _ & Hok).
  eexists _, _, k. split; [exact Hk|].
  intros response w2 s2 Hs2.
  pose proof (Hok response w2 s2 Hs2) as Hw3. cbv zeta in Hw3.
  eexists _, _. split; [exact Hw3|]. cbn [sessions conversations localStorage].
  split; [apply lookup_insert_eq|]. split; reflexivity.
Qed.

Lemma registry_after_exchange_members E sessionId stats cc registry y :
  In y (registry_after_exchange E sessionId stats cc registry) ->
  In y registry \/
  (ConversationMeta.id y = sessionId /\ ConversationMeta.messageCount y = stats
   /\ exists n, (cc <= n)%nat /\ ConversationMeta.lastUpdated y = clock_of E n).
Proof.
  unfold registry_after_exchange. rewrite sort_In.
  destruct (List.find (conversation_is sessionId) registry).
  - intros [Hy|(c & Hc & Hp & ->)]%update_first_cases; [by left|]. right.
    split; [by apply String.eqb_eq in Hp|]. split; [done|]. by exists cc.
  - intros [Hy|[<-|[]]]%in_app_iff; [by left|]. right.
    split; [done|]. split; [done|]. exists (S cc). split; [lia | done].
Qed.

Lemma registry_after_exchange_fresh E sessionId stats cc registry :
  exists y n,
    In y (registry_after_exchange E sessionId stats cc registry) /\
    ConversationMeta.id y = sessionId /\ ConversationMeta.messageCount y = stats /\
    (cc <= n)%nat /\ ConversationMeta.lastUpdated y = clock_of E n.
Proof.
  unfold registry_after_exchange.
  destruct (List.find (conversation_is sessionId) registry) as [c|] eqn:Hfind.
  - eexists _, cc. split; [apply sort_In, update_first_In; exact Hfind|].
    apply find_conversation_Some in Hfind as [_ Hid]. simpl. auto.
  - eexists _, (S cc). split; [apply sort_In, in_app_iff; right; left; reflexivity|].
    simpl. repeat split; auto.
Qed.

Lemma registry_after_exchange_first E sessionId stats cc registry :
  (forall c, In c registry ->
             forall n, (cc <= n)%nat -> ConversationMeta.lastUpdated c < clock_of E n) ->
  exists first rest,
    registry_after_exchange E sessionId stats cc registry = first :: rest /\
    ConversationMeta.id first = sessionId.
Proof.
  intros Holder.
  destruct (registry_after_exchange_fresh E sessionId stats cc registry)
    as (y & n & Hy & Hid & _ & Hn & Htime).
  pose proof (registry_after_exchange_members E sessionId stats cc registry) as Hmembers.
  assert (Hsorted : recency_sorted (registry_after_exchange E sessionId stats cc registry))
    by apply sort_recency_sorted.
  destruct (registry_after_exchange E sessionId stats cc registry) as [|first rest];
    [done|].
  exists first, rest. split; [done|].
  destruct (Hmembers first (or_introl eq_refl)) as [Hold|[Hfirst _]]; [|done].
  destruct Hy as [->|Hy]; [done|].
  apply StronglySorted_inv in Hsorted as [_ Hall].
  rewrite Forall_forall in Hall. apply list_elem_of_In, Hall in Hy.
  specialize (Holder first Hold n Hn). lia.
Qed.

(** X6.  The conversation written to comes first: when [sendMessage]
    returns and every summary of the registry was last updated before the
    clock readings of the call, the first summary of the registry is the one
    of the session that is active then. *)
Theorem sendMessage_puts_conversation_first (E : Env) (text : string) (files : list File)
        (w : World) (a : string)
        (Hactive : activeSessionId w = Some a) (Hnonempty : a <> "") :
  exists c w1 k,
    sendMessage E text files w = AwaitSend c w1 k /\
    forall response w2 s2,
      activeSessionId w2 = Some s2 ->
      (forall conv, In conv (conversations w2) ->
                    forall n, (clock_count w2 < n)%nat ->
                              ConversationMeta.lastUpdated conv < clock_of E n) ->
      exists w3 first rest,
        k (Ok response) w2 = Returned tt w3 /\
        conversations w3 = first :: rest /\
        ConversationMeta.id first = s2.
Proof.
  destruct (sendMessage_registry E text files w a Hactive Hnonempty)
    as (c & w1 & k & Hk & Hresume).
  exists c, w1, k. split; [exact Hk|].
  intros response w2 s2 Hs2 Holder.
  destruct (Hresume response w2 s2 Hs2) as (w3 & final & Hw3 & _ & Hregistry & _).
  destruct (registry_after_exchange_first E s2 (count_senders final)
              (S (clock_count w2)) (conversations w2)) as (first & rest & Heq & Hid).
  { intros conv Hconv n Hn. apply Holder; [done | lia]. }
  exists w3, first, rest. split; [exact Hw3|]. split; [congruence | exact Hid].
Qed.

Lemma sendMessage_puts_conversation_first_witness :
  activeSessionId example_second_started = Some "uuid-5" /\ "uuid-5" <> "" /\
  (forall conv, In conv (conversations example_second_started) ->
                forall n, (clock_count example_second_started < n)%nat ->
                          ConversationMeta.lastUpdated conv < clock_of example_env n) /\
  exists c w1 k,
    sendMessage example_env "yo" [] example_second_started = AwaitSend c w1 k /\
    exists w3 first rest,
      k (Ok (example_reply "hey")) example_second_started = Returned tt w3 /\
      conversations w3 = first :: rest /\
      ConversationMeta.id first = "uuid-5".
Proof.
  assert (Hactive : activeSessionId example_second_started = Some "uuid-5")
    by (vm_compute; reflexivity).
  assert (Hnonempty : "uuid-5" <> "") by discriminate.
  assert (Holder : forall conv, In conv (conversations example_second_started) ->
                forall n, (clock_count example_second_started < n)%nat ->
                          ConversationMeta.lastUpdated conv < clock_of example_env n).
  { assert (Hregistry : conversations example_second_started
                        = [ConversationMeta.mk "uuid-0" "t=5000" 6000
                                               (ConversationMeta.mkCount 1 3)])
      by (vm_compute; reflexivity).
    assert (Hclock : clock_count example_second_started = 6%nat)
      by (vm_compute; reflexivity).
    rewrite Hregistry, Hclock. intros conv [<-|[]] n Hn. simpl. lia. }
  split; [exact Hactive|]. split; [exact Hnonempty|]. split; [exact Holder|].
  destruct (sendMessage_puts_conversation_first example_env "yo" []
              example_second_started "uuid-5" Hactive Hnonempty)
    as (c & w1 & k & Hk & Hresume).
  exists c, w1, k. split; [exact Hk|].
  exact (Hresume (example_reply "hey") example_second_started "uuid-5" Hactive Holder).
Defined.

Lemma update_first_other {A} (p : A -> bool) (f : A -> A) l c :
  In c l -> p c = false -> In c (update_first p f l).
Proof.
  induction l as [|x r IH]; simpl; [done|].
  destruct (p x) eqn:Hx; simpl.
  - intros [<-|Hc] Hp; [congruence | by right].
  - intros [<-|Hc] Hp; [by left | right; by apply IH].
Qed.

Lemma update_first_length {A} (p : A -> bool) (f : A -> A) l :
  length (update_first p f l) = length l.
Proof.
  induction l as [|x r IH]; simpl; [done|].
  destruct (p x); simpl; by rewrite ?IH.
Qed.

Lemma registry_after_exchange_keeps E sessionId stats cc registry conv :
  In conv registry ->
  (ConversationMeta.id conv <> sessionId ->
   In conv (registry_after_exchange E sessionId stats cc registry)) /\
  exists conv',
    In conv' (registry_after_exchange E sessionId stats cc registry) /\
    ConversationMeta.id conv' = ConversationMeta.id conv /\
    ConversationMeta.name conv' = ConversationMeta.name conv.
Proof.
  intros Hconv. unfold registry_after_exchange. split.
  - intros Hother. apply sort_In.
    destruct (List.find (conversation_is sessionId) registry).
    + apply update_first_other; [done|]. by apply String.eqb_neq.
    + apply in_app_iff. by left.
  - destruct (List.find (conversation_is sessionId) registry).
    + destruct (update_first_keeps (conversation_is sessionId)
                  (fun c => ConversationMeta.mk (ConversationMeta.id c)
                              (ConversationMeta.name c) (clock_of E cc) stats)
                  registry conv Hconv) as [H|H].
      * exists conv. by rewrite sort_In.
      * eexists. rewrite sort_In. split; [exact H|]. done.
    + exists conv. rewrite sort_In, in_app_iff. auto.
Qed.

Lemma registry_after_exchange_length E sessionId stats cc registry :
  (length registry <= length (registry_after_exchange E sessionId stats cc registry)
   <= S (length registry))%nat.
Proof.
  unfold registry_after_exchange.
  rewrite (Permutation_length (sort_Permutation _ _)).
  destruct (List.find (conversation_is sessionId) registry).
  - rewrite update_first_length. lia.
  - rewrite length_app. simpl. lia.
Qed.

Lemma registry_after_exchange_counts E sessionId stats cc registry conv :
  unique_ids registry ->
  In conv (registry_after_exchange E sessionId stats cc registry) ->
  ConversationMeta.id conv = sessionId ->
  ConversationMeta.messageCount conv = stats.
Proof.
  intros Hunique. unfold registry_after_exchange. rewrite sort_In.
  destruct (List.find (conversation_is sessionId) registry) eqn:Hfind.
  - intros Hconv Hid.
    eapply update_first_unique in Hconv as (c & _ & ->); done.
  - intros [Hconv|[<-|[]]]%in_app_iff Hid; [|done].
    apply find_conversation_None in Hfind. destruct Hfind.
    rewrite <- Hid. by apply in_map.
Qed.

(** X7.  [sendMessage] removes and renames nothing in the registry: when it
    returns, the summaries of the other sessions are the ones that were there
    when the reply arrived, every summary is still there under its id and its
    name, and at most one summary has been added. *)
Theorem sendMessage_keeps_summaries (E : Env) (text : string) (files : list File)
        (w : World) (a : string)
        (Hactive : activeSessionId w = Some a) (Hnonempty : a <> "") :
  exists c w1 k,
    sendMessage E text files w = AwaitSend c w1 k /\
    forall response w2 s2,
      activeSessionId w2 = Some s2 ->
      exists w3,
        k (Ok response) w2 = Returned tt w3 /\
        (forall conv, In conv (conversations w2) -> ConversationMeta.id conv <> s2 ->
                      In conv (conversations w3)) /\
        (forall conv, In conv (conversations w2) ->
                      exists conv', In conv' (conversations w3) /\
                                    ConversationMeta.id conv' = ConversationMeta.id conv /\
                                    ConversationMeta.name conv' = ConversationMeta.name conv) /\
        (length (conversations w2) <= length (conversations w3)
         <= S (length (conversations w2)))%nat.
Proof.
  destruct (sendMessage_registry E text files w a Hactive Hnonempty)
    as (c & w1 & k & Hk & Hresume).
  exists c, w1, k. split; [exact Hk|].
  intros response w2 s2 Hs2.
  destruct (Hresume response w2 s2 Hs2) as (w3 & final & Hw3 & _ & Hregistry & _).
  exists w3. split; [exact Hw3|]. rewrite Hregistry.
  split; [|split].
  - intros conv Hconv. by apply registry_after_exchange_keeps.
  - intros conv Hconv. by apply registry_after_exchange_keeps.
  - apply registry_after_exchange_length.
Qed.

Lemma sendMessage_keeps_summaries_witness :
  activeSessionId example_second_started = Some "uuid-5" /\ "uuid-5" <> "" /\
  exists c w1 k,
    sendMessage example_env "yo" [] example_second_started = AwaitSend c w1 k /\
    exists w3,
      k (Ok (example_reply "hey")) example_second_started = Returned tt w3 /\
      (forall conv, In conv (conversations example_second_started) ->
                    ConversationMeta.id conv <> "uuid-5" -> In conv (conversations w3)) /\
      (forall conv, In conv (conversations example_second_started) ->
                    exists conv', In conv' (conversations w3) /\
                                  ConversationMeta.id conv' = ConversationMeta.id conv /\
                                  ConversationMeta.name conv' = ConversationMeta.name conv) /\
      (length (conversations example_second_started) <= length (conversations w3)
       <= S (length (conversations example_second_started)))%nat.
Proof.
  assert (Hactive : activeSessionId example_second_started = Some "uuid-5")
    by (vm_compute; reflexivity).
  assert (Hnonempty : "uuid-5" <> "") by discriminate.
  split; [exact Hactive|]. split; [exact Hnonempty|].
  destruct (sendMessage_keeps_summaries example_env "yo" []
              example_second_started "uuid-5" Hactive Hnonempty)
    as (c & w1 & k & Hk & Hresume).
  exists c, w1, k. split; [exact Hk|].
  exact (Hresume (example_reply "hey") example_second_started "uuid-5" Hactive).
Defined.

(** X8.  The label of a conversation counts its messages: when
    [sendMessage] returns and the registry had no two summaries of one
    session, every summary of the session written to carries the numbers of
    user and bot messages of the session's list, and the switcher shows the
    length of that list. *)
Theorem sendMessage_counts_messages (E : Env) (text : string) (files : list File)
        (w : World) (a : string)
        (Hactive : activeSessionId w = Some a) (Hnonempty : a <> "") :
  exists c w1 k,
    sendMessage E text files w = AwaitSend c w1 k /\
    forall response w2 s2,
      activeSessionId w2 = Some s2 ->
      unique_ids (conversations w2) ->
      exists w3 final,
        k (Ok response) w2 = Returned tt w3 /\
        sessions w3 !! s2 = Some final /\
        forall conv, In conv (conversations w3) -> ConversationMeta.id conv = s2 ->
                     ConversationMeta.messageCount conv = count_senders final /\
                     item_count conv = length final.
Proof.
  destruct (sendMessage_registry E text files w a Hactive Hnonempty)
    as (c & w1 & k & Hk & Hresume).
  exists c, w1, k. split; [exact Hk|].
  intros response w2 s2 Hs2 Hunique.
  destruct (Hresume response w2 s2 Hs2) as (w3 & final & Hw3 & Hfinal & Hregistry & _).
  exists w3, final. split; [exact Hw3|]. split; [exact Hfinal|].
  intros conv Hconv Hid. rewrite Hregistry in Hconv.
  apply registry_after_exchange_counts in Hconv; [|done..].
  split; [done|]. unfold item_count. rewrite Hconv. apply count_senders_total.
Qed.

Lemma sendMessage_counts_messages_witness :
  activeSessionId example_first_exchange = Some "uuid-0" /\ "uuid-0" <> "" /\
  unique_ids (conversations example_first_exchange) /\
  exists c w1 k,
    sendMessage example_env "more" [] example_first_exchange = AwaitSend c w1 k /\
    exists w3 final,
      k (Ok (example_reply "sure")) example_first_exchange = Returned tt w3 /\
      sessions w3 !! "uuid-0" = Some final /\
      forall conv, In conv (conversations w3) -> ConversationMeta.id conv = "uuid-0" ->
                   ConversationMeta.messageCount conv = count_senders final /\
                   item_count conv = length final.
Proof.
  assert (Hactive : activeSessionId example_first_exchange = Some "uuid-0")
    by (vm_compute; reflexivity).
  assert (Hnonempty : "uuid-0" <> "") by discriminate.
  assert (Hunique : unique_ids (conversations example_first_exchange)).
  { assert (Hregistry : conversations example_first_exchange
                        = [ConversationMeta.mk "uuid-0" "t=5000" 6000
                                               (ConversationMeta.mkCount 1 3)])
      by (vm_compute; reflexivity).
    rewrite Hregistry. apply NoDup_singleton. }
  split; [exact Hactive|]. split; [exact Hnonempty|]. split; [exact Hunique|].
  destruct (sendMessage_counts_messages example_env "more" []
              example_first_exchange "uuid-0" Hactive Hnonempty)
    as (c & w1 & k & Hk & Hresume).
  exists c, w1, k. split; [exact Hk|].
  exact (Hresume (example_reply "sure") example_first_exchange "uuid-0" Hactive Hunique).
Defined.

(** ** The registry and its copy in [localStorage] *)

Lemma codec_parse_stringify l : codec_parse (codec_stringify l) = Ok l.
Proof.
  unfold codec_parse, codec_stringify, String.append. lazy beta iota.
  by rewrite DecimalString.NilEmpty.usu, DecimalPos.Unsigned.of_to, decode_encode.
Qed.

Section Sync.

Variable E : Env.
Hypothesis Hkeys : localStorageSessionIdKey E <> localStorageSessionConversationKeys E.
Hypothesis Hparse : forall l, JSON_parse E (JSON_stringify E l) = Ok l.
Hypothesis Htext : forall l, JSON_stringify E l <> "".

Let R (a b : World) : Prop := stored_in_sync E a -> stored_in_sync E b.

#[local] Instance sync_preorder : PreOrder R.
Proof. split; unfold R; [intros x; tauto | intros x y z; tauto]. Qed.

Lemma sync_frame w w' :
  conversations w' = conversations w -> localStorage w' = localStorage w -> R w w'.
Proof.
  unfold R, stored_in_sync. intros Hc Hl.
  destruct (getStoredConversations_run E w) as (stored & -> & Hs).
  destruct (getStoredConversations_run E w') as (stored' & -> & Hs').
  rewrite Hl, <- Hs in Hs'. subst stored'. intros [= ->]. by rewrite Hc.
Qed.

Lemma sync_written w :
  localStorage w !! localStorageSessionConversationKeys E
  = Some (JSON_stringify E (conversations w)) ->
  stored_in_sync E w.
Proof.
  unfold stored_in_sync. intros Hl.
  destruct (getStoredConversations_run E w) as (stored & -> & Hs).
  rewrite Hl, Hparse in Hs.
  destruct (String.eqb_spec (JSON_stringify E (conversations w)) "") as [H|_].
  - by apply Htext in H.
  - by subst.
Qed.

Lemma sync_other_key w w' v :
  conversations w' = conversations w ->
  localStorage w' = <[localStorageSessionIdKey E := v]> (localStorage w) ->
  R w w'.
Proof.
  unfold R, stored_in_sync. intros Hc Hl.
  destruct (getStoredConversations_run E w) as (stored & -> & Hs).
  destruct (getStoredConversations_run E w') as (stored' & -> & Hs').
  rewrite Hl, lookup_insert_ne, <- Hs in Hs' by done.
  subst stored'. intros [= ->]. by rewrite Hc.
Qed.

Lemma sync_loaded w :
  exists stored, getStoredConversations E w = Returned stored w /\
                 stored_in_sync E (set_conversations stored w).
Proof.
  destruct (getStoredConversations_run E w) as (stored & Hrun & Hs).
  exists stored. split; [done|]. unfold stored_in_sync.
  destruct (getStoredConversations_run E (set_conversations stored w)) as (stored' & -> & Hs').
  destruct w. simpl in *. by subst.
Qed.

Lemma sync_refreshed conversationId w : R w (refreshed E conversationId w).
Proof.
  unfold refreshed.
  destruct (List.find (conversation_is conversationId) (conversations w)); [|reflexivity].
  intros _. apply sync_written. destruct w. simpl. apply lookup_insert_eq.
Qed.

Lemma sync_sendMessage text files w : segments R w (sendMessage E text files w).
Proof.
  destruct (truthy (activeSessionId w)) eqn:Ht.
  - destruct (activeSessionId w) as [a|] eqn:Ha; [|done]. apply truthy_Some in Ht.
    destruct (sendMessage_run E text files w a Ha Ht) as (k & Hk & Herr & _ & Hok).
    pose proof (sendMessage_resumed_null E text files w a _ _ k Ha Ht Hk) as Hnull.
    rewrite Hk. simpl. split.
    + apply sync_frame; by destruct w.
    + intros [response|e] w'.
      * destruct (activeSessionId w') as [s2|] eqn:Hs2.
        -- rewrite (Hok response w' s2 Hs2). simpl. intros _.
           apply sync_written. simpl. apply lookup_insert_eq.
        -- destruct (Hnull response w' Hs2) as (w3 & -> & Hc & Hl & _). simpl.
           by apply sync_frame.
      * rewrite Herr. simpl. reflexivity.
  - rewrite sendMessage_inactive by done. simpl. reflexivity.
Qed.

Lemma sync_switchSession sessionId w : segments R w (switchSession E sessionId w).
Proof.
  destruct (sessions w !! sessionId) as [l|] eqn:Hl.
  - rewrite switchSession_hit by (by rewrite Hl). simpl. apply sync_frame; by destruct w.
  - destruct (switchSession_miss E sessionId w Hl) as (k & -> & Herr & Hok). simpl. split.
    + apply sync_frame; by destruct w.
    + intros [response|e] w'.
      * rewrite Hok. simpl. apply sync_frame; by destruct w'.
      * rewrite Herr. simpl. reflexivity.
Qed.

Lemma sync_loadConversation conversationId w :
  segments R w (loadConversation E conversationId w).
Proof.
  destruct (sessions w !! conversationId) as [l|] eqn:Hl.
  - rewrite loadConversation_hit by (by rewrite Hl). simpl.
    etransitivity; [|apply sync_refreshed]. apply sync_frame; by destruct w.
  - destruct (loadConversation_miss E conversationId w Hl) as (k & -> & Herr & Hok).
    simpl. split.
    + apply sync_frame; by destruct w.
    + intros [response|e] w'.
      * rewrite Hok. simpl.
        etransitivity; [|apply sync_refreshed]. apply sync_frame; by destruct w'.
      * rewrite Herr. simpl. reflexivity.
Qed.

Lemma sync_startNewSession w : segments R w (startNewSession E w).
Proof.
  rewrite startNewSession_run. simpl.
  eapply sync_other_key; simpl; reflexivity.
Qed.

Lemma sync_loadPreviousSession w : segments R w (loadPreviousSession E w).
Proof.
  destruct (loadPreviousSession_unfold E w) as (stored & Hrun & _ & ->).
  pose proof (sync_startNewSession w) as Hstart.
  assert (Hnew : segments R w (Returned (@None string) (world_of (startNewSession E w)))).
  { simpl. by apply (segments_world_of R). }
  destruct (default false _); [|simpl; reflexivity].
  destruct (localStorage w !! localStorageSessionIdKey E) as [s|]; [|exact Hnew].
  destruct (truthy (Some s)); [|exact Hnew].
  destruct (List.find (conversation_is s) stored); [|exact Hnew].
  apply (segments_bind_outcome R).
  - apply (segments_start R _ (set_conversations stored w)); [|apply sync_switchSession].
    intros _. destruct (sync_loaded w) as (stored' & Hrun' & Hsync).
    rewrite Hrun in Hrun'. by injection Hrun' as ->.
  - intros r w'. simpl. reflexivity.
Qed.

Lemma sync_run op w : segments R w (run E op w).
Proof.
  destruct op as [text files|sessionId|conversationId| |]; simpl.
  - apply sync_sendMessage.
  - apply (segments_bind R); [apply sync_switchSession|].
    intros _ w'. simpl. reflexivity.
  - apply sync_loadConversation.
  - apply (segments_bind R); [apply sync_loadPreviousSession|].
    intros _ w'. simpl. reflexivity.
  - apply sync_startNewSession.
Qed.

Lemma sync_reachable cfg : reachable E cfg -> stored_in_sync E cfg.1.
Proof.
  apply (reachable_invariant E (stored_in_sync E)).
  - intros storage. destruct (sync_loaded (fresh_refs storage)) as (stored & Hrun & Hsync).
    unfold install, bind. rewrite Hrun. exact Hsync.
  - apply sync_run.
Qed.

End Sync.

(** X9.  A reload loses nothing of the registry: when [JSON.parse] inverts
    [JSON.stringify] on registries, [JSON.stringify] never yields the empty
    text and the two storage keys differ, then in every reachable store,
    however the operations have overlapped, [getStoredConversations] reads
    the registry that is in memory, and so does [install] on a fresh page
    over the same [localStorage]. *)
Theorem registry_in_storage_is_registry_in_memory (E : Env) (cfg : Config)
        (Hkeys : localStorageSessionIdKey E <> localStorageSessionConversationKeys E)
        (Hparse : forall l, JSON_parse E (JSON_stringify E l) = Ok l)
        (Htext : forall l, JSON_stringify E l <> "")
        (Hreach : reachable E cfg) :
  getStoredConversations E cfg.1 = Returned (conversations cfg.1) cfg.1 /\
  install E (fresh_refs (localStorage cfg.1))
  = Returned tt (set_conversations (conversations cfg.1) (fresh_refs (localStorage cfg.1))).
Proof.
  pose proof (sync_reachable E Hkeys Hparse Htext cfg Hreach) as Hsync.
  split; [exact Hsync|].
  unfold stored_in_sync in Hsync.
  destruct (getStoredConversations_run E cfg.1) as (stored & Hrun & Hs).
  destruct (getStoredConversations_run E (fresh_refs (localStorage cfg.1)))
    as (stored' & Hrun' & Hs').
  rewrite Hrun in Hsync. injection Hsync as Hsync.
  cbn [fresh_refs localStorage] in Hs'. rewrite <- Hs in Hs'.
  unfold install, bind. rewrite Hrun'. simpl. unfold modify. congruence.
Qed.

Lemma registry_in_storage_is_registry_in_memory_witness :
  localStorageSessionIdKey codec_env <> localStorageSessionConversationKeys codec_env /\
  (forall l, JSON_parse codec_env (JSON_stringify codec_env l) = Ok l) /\
  (forall l, JSON_stringify codec_env l <> "") /\
  reachable codec_env codec_send_in_flight /\
  getStoredConversations codec_env codec_send_in_flight.1
  = Returned (conversations codec_send_in_flight.1) codec_send_in_flight.1 /\
  install codec_env (fresh_refs (localStorage codec_send_in_flight.1))
  = Returned tt (set_conversations (conversations codec_send_in_flight.1)
                                   (fresh_refs (localStorage codec_send_in_flight.1))).
Proof.
  assert (Hkeys : localStorageSessionIdKey codec_env
                  <> localStorageSessionConversationKeys codec_env) by discriminate.
  assert (Hparse : forall l, JSON_parse codec_env (JSON_stringify codec_env l) = Ok l)
    by exact codec_parse_stringify.
  assert (Htext : forall l, JSON_stringify codec_env l <> "") by discriminate.
  assert (Hreach : reachable codec_env codec_send_in_flight).
  { apply reachable_step with (cfg := (codec_started, [])).
    - apply reachable_step with (cfg := (codec_installed, [])).
      + exact (reachable_installed codec_env ∅).
      + exact (step_call codec_env codec_installed [] StartNewSession).
    - exact (step_call codec_env codec_started [] (SendMessage "hi" [])). }
  split; [exact Hkeys|]. split; [exact Hparse|]. split; [exact Htext|].
  split; [exact Hreach|].
  exact (registry_in_storage_is_registry_in_memory codec_env codec_send_in_flight
           Hkeys Hparse Htext Hreach).
Defined.

(** ** When the backend rejects *)

Lemma switchSession_rejected (E : Env) sessionId w e w' :
  sessions w !! sessionId = None ->
  rejected (switchSession E sessionId w) e w' = Thrown e w' /\
  suspended (run E (SwitchSession sessionId) w) <> [] /\
  sessions (world_of (switchSession E sessionId w)) !! sessionId = Some [].
Proof.
  intros Hmiss. destruct (switchSession_miss E sessionId w Hmiss) as (k & Hk & Herr & _).
  cbn [run]. unfold bind. rewrite Hk. cbn [rejected bind_outcome suspended world_of].
  split; [apply Herr|]. split; [done|].
  destruct w. simpl. apply lookup_insert_eq.
Qed.

Lemma rejected_bind_outcome {A B} (o : Outcome A) (f : A -> Async B) e w' :
  rejected o e w' = Thrown e w' ->
  rejected (bind_outcome o f) e w' = Thrown e w'.
Proof.
  destruct o; simpl; intros H;
    [discriminate H | by injection H as -> -> | by rewrite H | by rewrite H].
Qed.

(** X10.  No operation catches a rejection of the backend: an operation
    that awaits a backend call has set [waitingForResponse], and when the
    call is rejected the operation throws that error without writing to the
    store, so that the flag stays set. *)
Theorem backend_rejection_propagates (E : Env) (op : Operation) (w : World)
        (e : Error) (w' : World)
        (Hawaits : suspended (run E op w) <> []) :
  rejected (run E op w) e w' = Thrown e w' /\
  waitingForResponse (world_of (run E op w)) = true.
Proof.
  split.
  - destruct op as [text files|sessionId|conversationId| |]; cbn [run] in *.
    + destruct (truthy (activeSessionId w)) eqn:Ht.
      * destruct (activeSessionId w) as [a|] eqn:Ha; [|done]. apply truthy_Some in Ht.
        destruct (sendMessage_run E text files w a Ha Ht) as (k & -> & Herr & _).
        apply Herr.
      * rewrite sendMessage_inactive in Hawaits by done. done.
    + unfold bind in *. destruct (sessions w !! sessionId) as [l|] eqn:Hl.
      * rewrite switchSession_hit in Hawaits by (by rewrite Hl). done.
      * apply rejected_bind_outcome. by apply switchSession_rejected.
    + destruct (sessions w !! conversationId) as [l|] eqn:Hl.
      * rewrite loadConversation_hit in Hawaits by (by rewrite Hl). done.
      * destruct (loadConversation_miss E conversationId w Hl) as (k & -> & Herr & _).
        apply Herr.
    + unfold bind in *.
      destruct (loadPreviousSession_unfold E w) as (stored & _ & _ & Hunfold).
      rewrite Hunfold in *. clear Hunfold.
      destruct (default false _); [|done].
      destruct (localStorage w !! localStorageSessionIdKey E) as [s|]; [|done].
      destruct (truthy (Some s)); [|done].
      destruct (List.find (conversation_is s) stored); [|done].
      destruct (sessions (set_conversations stored w) !! s) as [l|] eqn:Hl.
      * rewrite switchSession_hit in Hawaits by (by rewrite Hl). done.
      * do 2 apply rejected_bind_outcome. by apply switchSession_rejected.
    + rewrite startNewSession_run in Hawaits. done.
  - pose proof (flag_discipline_run E op w) as Hd.
    destruct (run E op w); simpl in *; try done; apply Hd.
Qed.

Lemma backend_rejection_propagates_witness :
  suspended (run example_env (SendMessage "hi" []) example_first_session) <> [] /\
  rejected (run example_env (SendMessage "hi" []) example_first_session)
           TypeError example_first_session
  = Thrown TypeError example_first_session /\
  waitingForResponse (world_of (run example_env (SendMessage "hi" [])
                                    example_first_session)) = true.
Proof.
  assert (Hawaits : suspended (run example_env (SendMessage "hi" [])
                                   example_first_session) <> []).
  { assert (Hactive : activeSessionId example_first_session = Some "uuid-0")
      by (vm_compute; reflexivity).
    assert (Hnonempty : "uuid-0" <> "") by discriminate.
    destruct (sendMessage_run example_env "hi" [] example_first_session "uuid-0"
                Hactive Hnonempty) as (k & Hk & _).
    cbn [run]. rewrite Hk. discriminate. }
  split; [exact Hawaits|].
  exact (backend_rejection_propagates example_env (SendMessage "hi" [])
           example_first_session TypeError example_first_session Hawaits).
Defined.

Lemma sessions_kept_run (E : Env) op w :
  segments (fun a b => forall sid, is_Some (sessions a !! sid) -> is_Some (sessions b !! sid))
           w (run E op w).
Proof.
  set (R := fun a b : World =>
              forall sid, is_Some (sessions a !! sid) -> is_Some (sessions b !! sid)).
  assert (HR : PreOrder R) by (split; unfold R; [intros x; auto | intros x y z; auto]).
  apply (writes_run E R); unfold R; try (by intros; destruct w).
  - intros k v [] sid Hsid. simpl in *. apply lookup_insert_is_Some.
    destruct (decide (k = sid)); auto.
  - intros w'. rewrite startNewSession_run. simpl. intros sid Hsid.
    apply lookup_insert_is_Some.
    destruct (decide (uuid_of E (uuid_count w') = sid)); auto.
Qed.

(** X11.  A history is fetched at most once: [switchSession] on a session
    that is not in memory puts the empty list in the session map before it
    awaits the backend, and if the fetch is rejected, at whatever point of
    the run, the entry is still there, so that every later [switchSession]
    on the same id returns [undefined] without a backend call and leaves the
    session map as it is. *)
Theorem switchSession_fetches_once (E : Env) (cfg cfg' : Config) (sessionId : string)
        (Hreach : reachable E cfg)
        (Hmiss : sessions cfg.1 !! sessionId = None)
        (Hsteps : rtc (step E)
                      (world_of (run E (SwitchSession sessionId) cfg.1),
                       suspended (run E (SwitchSession sessionId) cfg.1) ++ cfg.2)
                      cfg') :
  sessions (world_of (run E (SwitchSession sessionId) cfg.1)) !! sessionId = Some [] /\
  (forall e, rejected (run E (SwitchSession sessionId) cfg.1) e cfg'.1 = Thrown e cfg'.1) /\
  exists w', switchSession E sessionId cfg'.1 = Returned None w' /\
             sessions w' = sessions cfg'.1.
Proof.
  assert (Hentry : sessions (world_of (run E (SwitchSession sessionId) cfg.1)) !! sessionId
                   = Some []).
  { destruct (switchSession_miss E sessionId cfg.1 Hmiss) as (k & Hk & _).
    cbn [run]. unfold bind. rewrite Hk. cbn [bind_outcome world_of].
    destruct cfg as [[] ?]. simpl. apply lookup_insert_eq. }
  split; [exact Hentry|]. split.
  - intros e. cbn [run]. unfold bind. apply rejected_bind_outcome.
    by apply switchSession_rejected.
  - set (R := fun a b : World =>
                forall sid, is_Some (sessions a !! sid) -> is_Some (sessions b !! sid)).
    assert (HR : PreOrder R) by (split; unfold R; [intros x; auto | intros x y z; auto]).
    assert (Hkept : is_Some (sessions cfg'.1 !! sessionId)).
    { apply (along_the_run E R (sessions_kept_run E) _ _
               (reachable_call E cfg.1 cfg.2 (SwitchSession sessionId)
                  ltac:(by destruct cfg)) Hsteps).
      cbn [fst]. by rewrite Hentry. }
    rewrite (switchSession_hit E sessionId cfg'.1 Hkept).
    eexists. split; [reflexivity|]. by destruct cfg' as [[] ?].
Qed.

Lemma switchSession_fetches_once_witness :
  reachable example_env (example_first_session, []) /\
  sessions example_first_session !! "s-9" = None /\
  sessions (world_of (run example_env (SwitchSession "s-9") example_first_session)) !! "s-9"
  = Some [] /\
  exists w',
    switchSession example_env "s-9"
      (world_of (run example_env (SwitchSession "s-9") example_first_session))
    = Returned None w'.
Proof.
  assert (Hmiss : sessions example_first_session !! "s-9" = None)
    by (vm_compute; reflexivity).
  split; [exact example_first_session_reachable|]. split; [exact Hmiss|].
  destruct (switchSession_fetches_once example_env (example_first_session, [])
              (world_of (run example_env (SwitchSession "s-9") example_first_session),
               suspended (run example_env (SwitchSession "s-9") example_first_session) ++ [])
              "s-9" example_first_session_reachable Hmiss (rtc_refl _ _))
    as (Hentry & _ & w' & Hhit & _).
  split; [exact Hentry|]. exists w'. exact Hhit.
Defined.

(** ** Greetings, sessions without id, histories *)

Lemma count_senders_bots l :
  Forall (fun m => ChatMessage.sender m = bot) l ->
  count_senders l = ConversationMeta.mkCount 0 (length l).
Proof.
  intros Hl. unfold count_senders.
  f_equal; induction Hl as [|m l Hm _ IH]; simpl; try done;
    unfold is_sender at 1; rewrite Hm; simpl; by rewrite ?IH.
Qed.

Lemma stamped_bots E uc cc texts :
  Forall (fun m => ChatMessage.sender m = bot) (stamped E uc cc texts) /\
  length (stamped E uc cc texts) = length texts.
Proof.
  unfold stamped. split; [|apply length_imap].
  apply Forall_forall. intros m (i & text & -> & _)%elem_of_lookup_imap. done.
Qed.

Lemma count_senders_after_exchange l sent received :
  ChatMessage.sender sent = user -> ChatMessage.sender received = bot ->
  Forall (fun m => ChatMessage.sender m = bot) l ->
  count_senders ((l ++ [sent]) ++ [received]) = ConversationMeta.mkCount 1 (S (length l)).
Proof.
  intros Hs Hr Hl. apply count_senders_bots in Hl.
  unfold count_senders in *. injection Hl as Hu Hb.
  rewrite !List.filter_app, !length_app, Hu, Hb.
  cbn [List.filter]. unfold is_sender. rewrite Hs, Hr. simpl. f_equal. lia.
Qed.

(** X12.  The greetings count as messages of the bot: when a session is
    started and its first message is answered, the registry holds a summary
    of the session that counts one user message and one bot message more
    than there are configured initial messages. *)
Theorem first_exchange_counts_greetings (E : Env) (cfg : Config)
        (text : string) (files : list File) (response : SendMessageResponse.t)
        (Hreach : reachable E cfg)
        (Hid : uuid_of E (uuid_count cfg.1) <> "") :
  exists w3 conv,
    answered_send (sendMessage E text files (world_of (startNewSession E cfg.1))) response
    = Returned tt w3 /\
    In conv (conversations w3) /\
    ConversationMeta.id conv = uuid_of E (uuid_count cfg.1) /\
    ConversationMeta.messageCount conv
    = ConversationMeta.mkCount
        1 (S (length (default [] (ChatOptions.initialMessages (options E))))) /\
    item_count conv
    = (2 + length (default [] (ChatOptions.initialMessages (options E))))%nat.
Proof.
  set (s := uuid_of E (uuid_count cfg.1)) in *.
  set (texts := default [] (ChatOptions.initialMessages (options E))).
  pose proof (initialMessages_cache_stamped E cfg Hreach) as Hcache.
  pose proof (startNewSession_run E cfg.1) as Hstart. cbv zeta in Hstart.
  fold s texts in Hstart.
  set (seed := match reused_seed E cfg.1 with
               | Some ms => ms
               | None => stamped E (S (uuid_count cfg.1)) (clock_count cfg.1) texts
               end) in *.
  assert (Hseed : Forall (fun m => ChatMessage.sender m = bot) seed
                  /\ length seed = length texts).
  { unfold seed. destruct (reused_seed E cfg.1) as [ms|] eqn:Hreused.
    - apply reused_seed_cached in Hreused.
      destruct (Hcache ms Hreused) as (uc & cc & ->). apply stamped_bots.
    - apply stamped_bots. }
  destruct Hseed as [Hbots Hlength].
  rewrite Hstart. cbn [world_of].
  match goal with |- context [sendMessage E text files ?x] => set (w := x) end.
  assert (Hactive : activeSessionId w = Some s) by reflexivity.
  destruct (sendMessage_run E text files w s Hactive Hid) as (k & Hk & _ & _ & Hok).
  rewrite Hk. unfold answered_send. cbn [world_of resume_send].
  match goal with |- context [k (Ok response) ?x] => set (w1 := x) in * end.
  pose proof (Hok response w1 s eq_refl) as Hw3. cbv zeta in Hw3.
  assert (Hlist : default [] (sessions w !! s) = seed).
  { unfold w. cbn [sessions]. by rewrite lookup_insert_eq. }
  rewrite Hlist in Hw3.
  rewrite count_senders_after_exchange in Hw3 by done.
  rewrite Hlength in Hw3.
  destruct (registry_after_exchange_fresh E s (ConversationMeta.mkCount 1 (S (length texts)))
              (S (clock_count w1)) (conversations w1))
    as (conv & n & Hconv & Hconv_id & Hcount & _).
  eexists _, conv. split; [exact Hw3|]. cbn [conversations].
  split; [exact Hconv|]. split; [exact Hconv_id|]. split; [exact Hcount|].
  unfold item_count. rewrite Hcount. simpl. lia.
Qed.

Lemma first_exchange_counts_greetings_witness :
  reachable example_env (example_installed, []) /\
  uuid_of example_env (uuid_count (example_installed, @nil Pending).1) <> "" /\
  exists w3 conv,
    answered_send (sendMessage example_env "hi" []
                     (world_of (startNewSession example_env
                                  (example_installed, @nil Pending).1)))
                  (example_reply "hello")
    = Returned tt w3 /\
    In conv (conversations w3) /\
    ConversationMeta.messageCount conv = ConversationMeta.mkCount 1 3.
Proof.
  assert (Hreach : reachable example_env (example_installed, []))
    by exact (reachable_installed example_env ∅).
  assert (Hid : uuid_of example_env (uuid_count (example_installed, @nil Pending).1) <> "")
    by (vm_compute; discriminate).
  split; [exact Hreach|]. split; [exact Hid|].
  destruct (first_exchange_counts_greetings example_env (example_installed, [])
              "hi" [] (example_reply "hello") Hreach Hid)
    as (w3 & conv & Hw3 & Hconv & _ & Hcount & _).
  exists w3, conv. split; [exact Hw3|]. split; [exact Hconv|]. exact Hcount.
Defined.

(** X13.  The session with the empty id cannot be used: once
    [switchSession('')] has completed, the session is active and has an
    entry in the session map, and yet [messages] is empty, the switcher
    shows "New Chat" and [sendMessage] returns at once without a backend
    call and without touching the store. *)
Theorem empty_id_session_is_mute (E : Env) (w w2 : World)
        (text : string) (files : list File)
        (Hdone : completes (run E (SwitchSession "") w) tt w2) :
  activeSessionId w2 = Some "" /\
  is_Some (sessions w2 !! "") /\
  messages w2 = [] /\
  currentConversationName w2 = "New Chat" /\
  sendMessage E text files w2 = Returned tt w2.
Proof.
  assert (Hw2 : activeSessionId w2 = Some "" /\ currentSessionId w2 = Some ""
                /\ is_Some (sessions w2 !! "")).
  { cbn [run] in Hdone. unfold bind in Hdone.
    destruct (sessions w !! "") as [l|] eqn:Hl.
    - rewrite switchSession_hit in Hdone by (by rewrite Hl).
      inversion Hdone; subst. destruct w. simpl in *. rewrite Hl. eauto.
    - destruct (switchSession_miss E "" w Hl) as (k & Hk & _ & Hok).
      rewrite Hk in Hdone. cbn [bind_outcome] in Hdone.
      inversion Hdone as [| |? ? ? r ? ? Hresumed]; subst.
      rewrite Hok in Hresumed. inversion Hresumed; subst.
      destruct w. simpl. rewrite lookup_insert_eq. eauto. }
  destruct Hw2 as (Hactive & Hcurrent & Hentry).
  split; [exact Hactive|]. split; [exact Hentry|].
  split; [by unfold messages; rewrite Hactive|].
  split; [by unfold currentConversationName; rewrite Hcurrent|].
  apply sendMessage_inactive. by rewrite Hactive.
Qed.

Lemma empty_id_session_is_mute_witness :
  completes (run example_env (SwitchSession "") example_installed) tt
            (world_of (answered_history
                         (run example_env (SwitchSession "") example_installed)
                         example_history)) /\
  sessions (world_of (answered_history
                        (run example_env (SwitchSession "") example_installed)
                        example_history)) !! "" <> Some [] /\
  messages (world_of (answered_history
                        (run example_env (SwitchSession "") example_installed)
                        example_history)) = [].
Proof.
  assert (Hdone : completes (run example_env (SwitchSession "") example_installed) tt
            (world_of (answered_history
                         (run example_env (SwitchSession "") example_installed)
                         example_history))).
  { apply completes_answered_history with (r := example_history).
    vm_compute; reflexivity. }
  split; [exact Hdone|]. split; [vm_compute; discriminate|].
  exact (proj1 (proj2 (proj2 (empty_id_session_is_mute example_env _ _ "hi" [] Hdone)))).
Defined.

(** X14.  The messages [switchSession] builds from a fetched history are as
    many as the records, each has its position in the history as id and the
    one timestamp taken after the fetch, and no two of them share an id. *)
Theorem history_messages_positions
        (response : option LoadPreviousSessionResponse.t) (timestamp : Timestamp) :
  length (history_messages response timestamp)
  = length (default [] (response ≫= LoadPreviousSessionResponse.data)) /\
  (forall i m, history_messages response timestamp !! i = Some m ->
               ChatMessage.id m = pretty i /\ ChatMessage.createdAt m = timestamp) /\
  NoDup (map ChatMessage.id (history_messages response timestamp)).
Proof.
  unfold history_messages.
  set (data := default [] (response ≫= LoadPreviousSessionResponse.data)).
  split; [apply length_imap|].
  assert (Hat : forall i m,
    imap (fun index message =>
            ChatMessage.mk (pretty index)
              (LoadedMessage.content (LoadedMessage.kwargs message))
              (if includes "HumanMessage" (LoadedMessage.id message) then user else bot)
              None timestamp) data !! i = Some m ->
    ChatMessage.id m = pretty i /\ ChatMessage.createdAt m = timestamp).
  { intros i m. rewrite list_lookup_imap.
    destruct (data !! i); simpl; [|done]. by intros [= <-]. }
  split; [exact Hat|].
  apply NoDup_alt. intros i j x.
  change (map ChatMessage.id ?l) with (ChatMessage.id <$> l).
  rewrite !list_lookup_fmap.
  destruct (imap _ data !! i) as [mi|] eqn:Hi; [|done].
  destruct (imap _ data !! j) as [mj|] eqn:Hj; [|done].
  apply Hat in Hi as [Hi _]. apply Hat in Hj as [Hj _].
  simpl. intros [= <-] [= Hx]. rewrite Hi, Hj in Hx. by apply (inj pretty) in Hx.
Qed.

(** ** The conversation switcher *)

Lemma find_update_first {A} (p : A -> bool) (f : A -> A) l :
  (forall c, p (f c) = p c) ->
  List.find p (update_first p f l) = option_map f (List.find p l).
Proof.
  intros Hf. induction l as [|x r IH]; simpl; [done|].
  destruct (p x) eqn:Hx; simpl; [by rewrite Hf, Hx | by rewrite Hx].
Qed.

Lemma find_conversation_fresh sessionId l :
  ~ In sessionId (map ConversationMeta.id l) ->
  List.find (conversation_is sessionId) l = None.
Proof.
  intros Hfresh. destruct (List.find _ l) as [c|] eqn:Hfind; [|done].
  apply find_conversation_Some in Hfind as [Hc Hid].
  destruct Hfresh. rewrite <- Hid. by apply in_map.
Qed.

Lemma refreshed_label E conversationId w conv :
  conversationId <> "" ->
  currentSessionId w = Some conversationId ->
  List.find (conversation_is conversationId) (conversations w) = Some conv ->
  currentConversationName (refreshed E conversationId w) = ConversationMeta.name conv /\
  currentSessionId (refreshed E conversationId w) = Some conversationId.
Proof.
  intros Hne Hcurrent Hfind.
  destruct (refreshed_pointers E conversationId w) as [Hpointer _].
  split; [|congruence].
  unfold currentConversationName. rewrite Hpointer, Hcurrent.
  apply truthy_Some in Hne. rewrite Hne.
  unfold refreshed. rewrite Hfind. destruct w. simpl in *.
  rewrite find_update_first by done. by rewrite Hfind.
Qed.

Lemma loadConversation_completes E conversationId w w' :
  completes (loadConversation E conversationId w) tt w' ->
  exists w0, w' = refreshed E conversationId w0 /\
             currentSessionId w0 = Some conversationId /\
             conversations w0 = conversations w /\
             localStorage w0 = localStorage w.
Proof.
  intros Hdone. destruct (sessions w !! conversationId) as [l|] eqn:Hl.
  - rewrite loadConversation_hit in Hdone by (by rewrite Hl).
    inversion Hdone; subst. eexists. split; [reflexivity|]. by destruct w.
  - destruct (loadConversation_miss E conversationId w Hl) as (k & Hk & _ & Hok).
    rewrite Hk in Hdone. inversion Hdone as [| |? ? ? r ? ? Hresumed]; subst.
    rewrite Hok in Hresumed. inversion Hresumed; subst.
    eexists. split; [reflexivity|]. by destruct w.
Qed.

(** X15.  Picking a conversation in the switcher: when
    [handleLoadConversation] is called with the non-empty id of a listed
    conversation and [loadConversation] completes, the dropdown is closed,
    the button shows the name of the first summary with that id, and the
    items marked active are those with that id. *)
Theorem handleLoadConversation_shows_conversation (E : Env) (sw : Switcher)
        (conversationId : string) (w w' : World) (conv : ConversationMeta.t)
        (Hnonempty : conversationId <> "")
        (Hlisted : List.find (conversation_is conversationId) (conversations w) = Some conv)
        (Hdone : completes ((handleLoadConversation E conversationId sw).2 w) tt w') :
  isOpen (handleLoadConversation E conversationId sw).1 = false /\
  currentConversationName w' = ConversationMeta.name conv /\
  forall c, item_active w' c = true <-> ConversationMeta.id c = conversationId.
Proof.
  split; [reflexivity|]. cbn [handleLoadConversation snd] in Hdone.
  destruct (loadConversation_completes E conversationId w w' Hdone)
    as (w0 & -> & Hcurrent & Hregistry & _).
  rewrite <- Hregistry in Hlisted.
  destruct (refreshed_label E conversationId w0 conv Hnonempty Hcurrent Hlisted)
    as [Hlabel Hpointer].
  split; [exact Hlabel|].
  intros c. unfold item_active. rewrite Hpointer. apply String.eqb_eq.
Qed.

Lemma handleLoadConversation_shows_conversation_witness :
  "uuid-0" <> "" /\
  List.find (conversation_is "uuid-0") (conversations example_second_exchange)
  = Some (ConversationMeta.mk "uuid-0" "t=5000" 6000 (ConversationMeta.mkCount 1 3)) /\
  completes ((handleLoadConversation example_env "uuid-0" (mkSwitcher true)).2
               example_second_exchange) tt example_first_reopened /\
  currentConversationName example_first_reopened = "t=5000".
Proof.
  assert (Hnonempty : "uuid-0" <> "") by discriminate.
  assert (Hlisted :
    List.find (conversation_is "uuid-0") (conversations example_second_exchange)
    = Some (ConversationMeta.mk "uuid-0" "t=5000" 6000 (ConversationMeta.mkCount 1 3)))
    by (vm_compute; reflexivity).
  assert (Hrun : loadConversation example_env "uuid-0" example_second_exchange
                 = Returned tt example_first_reopened) by (vm_compute; reflexivity).
  assert (Hdone : completes ((handleLoadConversation example_env "uuid-0"
                                (mkSwitcher true)).2 example_second_exchange)
                            tt example_first_reopened).
  { cbn [handleLoadConversation snd]. rewrite Hrun. constructor. }
  split; [exact Hnonempty|]. split; [exact Hlisted|]. split; [exact Hdone|].
  exact (proj1 (proj2 (handleLoadConversation_shows_conversation example_env
                         (mkSwitcher true) "uuid-0" example_second_exchange
                         example_first_reopened
                         (ConversationMeta.mk "uuid-0" "t=5000" 6000
                                              (ConversationMeta.mkCount 1 3))
                         Hnonempty Hlisted Hdone))).
Defined.

(** X16.  The "New Chat" button: [handleNewChat] closes the dropdown and
    returns without a backend call; when no summary carries the generated
    id, the registry is unchanged, the button shows "New Chat" and no item
    of the list is marked active. *)
Theorem handleNewChat_shows_new_chat (E : Env) (sw : Switcher) (w : World)
        (Hfresh : ~ In (uuid_of E (uuid_count w))
                       (map ConversationMeta.id (conversations w))) :
  exists w',
    (handleNewChat E sw).2 w = Returned tt w' /\
    isOpen (handleNewChat E sw).1 = false /\
    conversations w' = conversations w /\
    currentConversationName w' = "New Chat" /\
    forall conv, In conv (conversations w') -> item_active w' conv = false.
Proof.
  cbn [handleNewChat fst snd]. rewrite startNewSession_run. cbv zeta.
  eexists. split; [reflexivity|]. split; [reflexivity|]. split; [reflexivity|].
  split.
  - unfold currentConversationName. simpl.
    rewrite (find_conversation_fresh _ _ Hfresh). by destruct (negb _).
  - intros conv Hconv. unfold item_active. simpl in *.
    apply String.eqb_neq. intros Hid. destruct Hfresh. rewrite <- Hid. by apply in_map.
Qed.

Lemma handleNewChat_shows_new_chat_witness :
  ~ In (uuid_of example_env (uuid_count example_first_exchange))
       (map ConversationMeta.id (conversations example_first_exchange)) /\
  exists w',
    (handleNewChat example_env (mkSwitcher true)).2 example_first_exchange
    = Returned tt w' /\
    currentConversationName w' = "New Chat".
Proof.
  assert (Hfresh : ~ In (uuid_of example_env (uuid_count example_first_exchange))
                        (map ConversationMeta.id (conversations example_first_exchange))).
  { vm_compute. intros [H|[]]. discriminate H. }
  split; [exact Hfresh|].
  destruct (handleNewChat_shows_new_chat example_env (mkSwitcher true)
              example_first_exchange Hfresh) as (w' & Hrun & _ & _ & Hlabel & _).
  exists w'. split; [exact Hrun | exact Hlabel].
Defined.

(** ** What [loadConversation] and [startNewSession] write *)

Lemma update_first_map {A B} (p : A -> bool) (f : A -> A) (g : A -> B) l :
  (forall c, g (f c) = g c) -> map g (update_first p f l) = map g l.
Proof.
  intros Hf. induction l as [|x r IH]; simpl; [done|].
  destruct (p x); simpl; [by rewrite Hf | by rewrite IH].
Qed.

Lemma update_first_absent {A} (p : A -> bool) (f : A -> A) l :
  List.find p l = None -> update_first p f l = l.
Proof.
  induction l as [|x r IH]; simpl; [done|].
  destruct (p x); [done|]. intros H. by rewrite IH.
Qed.

(** X17.  [loadConversation] changes nothing but a timestamp: when it
    completes, the registry lists the same ids, names and message counts in
    the same order, the summaries of the other sessions are untouched, and
    when no summary has the given id neither the registry nor
    [localStorage] has changed. *)
Theorem loadConversation_touches_timestamp_only (E : Env) (conversationId : string)
        (w w' : World)
        (Hdone : completes (loadConversation E conversationId w) tt w') :
  map (fun c => (ConversationMeta.id c, ConversationMeta.name c,
                 ConversationMeta.messageCount c)) (conversations w')
  = map (fun c => (ConversationMeta.id c, ConversationMeta.name c,
                   ConversationMeta.messageCount c)) (conversations w) /\
  (forall conv, In conv (conversations w) ->
                ConversationMeta.id conv <> conversationId -> In conv (conversations w')) /\
  (List.find (conversation_is conversationId) (conversations w) = None ->
   conversations w' = conversations w /\ localStorage w' = localStorage w).
Proof.
  destruct (loadConversation_completes E conversationId w w' Hdone)
    as (w0 & -> & _ & Hregistry & Hstorage).
  rewrite <- Hregistry, <- Hstorage. unfold refreshed.
  destruct (List.find (conversation_is conversationId) (conversations w0)) eqn:Hfind.
  - destruct w0. simpl in *. split; [by apply update_first_map|]. split; [|done].
    intros conv Hconv Hother. apply update_first_other; [done|].
    by apply String.eqb_neq.
  - done.
Qed.

Lemma loadConversation_touches_timestamp_only_witness :
  completes (loadConversation example_env "uuid-0" example_second_exchange) tt
            example_first_reopened /\
  map (fun c => (ConversationMeta.id c, ConversationMeta.name c,
                 ConversationMeta.messageCount c)) (conversations example_first_reopened)
  = map (fun c => (ConversationMeta.id c, ConversationMeta.name c,
                   ConversationMeta.messageCount c)) (conversations example_second_exchange).
Proof.
  assert (Hrun : loadConversation example_env "uuid-0" example_second_exchange
                 = Returned tt example_first_reopened) by (vm_compute; reflexivity).
  assert (Hdone : completes (loadConversation example_env "uuid-0" example_second_exchange)
                            tt example_first_reopened)
    by (rewrite Hrun; constructor).
  split; [exact Hdone|].
  exact (proj1 (loadConversation_touches_timestamp_only example_env "uuid-0"
                  example_second_exchange example_first_reopened Hdone)).
Defined.

Ltac last_session_tac :=
  try done;
  try (match goal with
       | |- localStorage (_ _ ?x) !! _ = _ =>
           destruct x; simpl; rewrite ?lookup_insert_ne by done; done
       end).

Lemma last_session_run (E : Env) op w :
  localStorageSessionIdKey E <> localStorageSessionConversationKeys E ->
  op <> StartNewSession -> op <> LoadPreviousSession ->
  segments (fun a b => localStorage b !! localStorageSessionIdKey E
                       = localStorage a !! localStorageSessionIdKey E)
           w (run E op w).
Proof.
  intros Hkeys Hstart Hprevious.
  set (R := fun a b : World => localStorage b !! localStorageSessionIdKey E
                               = localStorage a !! localStorageSessionIdKey E).
  assert (HR : PreOrder R) by (split; unfold R; [intros x; done | intros x y z; congruence]).
  assert (Hswitch : forall sessionId w, segments R w (switchSession E sessionId w)).
  { intros sessionId w0. unfold switchSession.
    repeat segments_step; unfold R; last_session_tac. }
  destruct op as [text files|sessionId|conversationId| |]; cbn [run]; try done.
  - unfold sendMessage. repeat segments_step; unfold R; last_session_tac.
  - apply (segments_bind R); [apply Hswitch|]. intros _ w'. apply (segments_ret R).
  - unfold loadConversation. apply (segments_bind R); [apply Hswitch|]. intros _ w'.
    repeat segments_step; unfold R; last_session_tac.
Qed.

Lemma segments_completes {A} (R : World -> World -> Prop) `{!PreOrder R}
      w (o : Outcome A) a w' :
  segments R w o -> completes o a w' -> R w w'.
Proof.
  intros Hsegments Hdone. revert w Hsegments.
  induction Hdone as [a w1|c w1 k r a w' _ IH|c w1 k r a w' _ IH];
    intros w Hsegments; simpl in Hsegments.
  - exact Hsegments.
  - destruct Hsegments as [Hfirst Hrest]. etransitivity; [exact Hfirst|]. apply IH, Hrest.
  - destruct Hsegments as [Hfirst Hrest]. etransitivity; [exact Hfirst|]. apply IH, Hrest.
Qed.

(** X18.  Only starting a session records it as the last one: when the two
    storage keys differ, [sendMessage], [switchSession] and
    [loadConversation] leave the last-session key of [localStorage] as it
    is, across each of their stretches whatever the backend answers, and so
    from call to completion. *)
Theorem last_session_is_last_started (E : Env) (op : Operation) (w : World)
        (Hkeys : localStorageSessionIdKey E <> localStorageSessionConversationKeys E)
        (Hstart : op <> StartNewSession) (Hprevious : op <> LoadPreviousSession) :
  segments (fun a b => localStorage b !! localStorageSessionIdKey E
                       = localStorage a !! localStorageSessionIdKey E)
           w (run E op w) /\
  forall w', completes (run E op w) tt w' ->
             localStorage w' !! localStorageSessionIdKey E
             = localStorage w !! localStorageSessionIdKey E.
Proof.
  pose proof (last_session_run E op w Hkeys Hstart Hprevious) as Hsegments.
  split; [exact Hsegments|].
  intros w' Hdone.
  set (R := fun a b : World => localStorage b !! localStorageSessionIdKey E
                               = localStorage a !! localStorageSessionIdKey E) in *.
  assert (HR : PreOrder R) by (split; unfold R; [intros x; done | intros x y z; congruence]).
  exact (segments_completes R w _ tt w' Hsegments Hdone).
Qed.

Lemma last_session_is_last_started_witness :
  localStorageSessionIdKey example_env <> localStorageSessionConversationKeys example_env /\
  LoadConversation "uuid-0" <> StartNewSession /\
  LoadConversation "uuid-0" <> LoadPreviousSession /\
  completes (run example_env (LoadConversation "uuid-0") example_second_exchange) tt
            example_first_reopened /\
  localStorage example_first_reopened !! localStorageSessionIdKey example_env
  = localStorage example_second_exchange !! localStorageSessionIdKey example_env.
Proof.
  assert (Hkeys : localStorageSessionIdKey example_env
                  <> localStorageSessionConversationKeys example_env) by discriminate.
  assert (Hstart : LoadConversation "uuid-0" <> StartNewSession) by discriminate.
  assert (Hprevious : LoadConversation "uuid-0" <> LoadPreviousSession) by discriminate.
  assert (Hrun : loadConversation example_env "uuid-0" example_second_exchange
                 = Returned tt example_first_reopened) by (vm_compute; reflexivity).
  assert (Hdone : completes (run example_env (LoadConversation "uuid-0")
                                 example_second_exchange) tt example_first_reopened)
    by (cbn [run]; rewrite Hrun; constructor).
  split; [exact Hkeys|]. split; [exact Hstart|]. split; [exact Hprevious|].
  split; [exact Hdone|].
  exact (proj2 (last_session_is_last_started example_env (LoadConversation "uuid-0")
                  example_second_exchange Hkeys Hstart Hprevious)
               example_first_reopened Hdone).
Defined.

(** X19.  A session in which nothing was sent is not resumed: after
    [startNewSession], a reload of the page finds the id of the session
    under the last-session key, and when the stored registry has no summary
    with that id, [loadPreviousSession] starts another session and returns
    [undefined]. *)
Theorem unused_session_is_not_resumed (E : Env) (w : World)
        (stored : list ConversationMeta.t)
        (Hkeys : localStorageSessionIdKey E <> localStorageSessionConversationKeys E)
        (Hoption : ChatOptions.loadPreviousSession (options E) = Some true)
        (Hstored : getStoredConversations E w = Returned stored w)
        (Hfresh : ~ In (uuid_of E (uuid_count w)) (map ConversationMeta.id stored)) :
  localStorage (reloaded E (world_of (startNewSession E w))) !! localStorageSessionIdKey E
  = Some (uuid_of E (uuid_count w)) /\
  conversations (reloaded E (world_of (startNewSession E w))) = stored /\
  loadPreviousSession E (reloaded E (world_of (startNewSession E w)))
  = Returned None
      (world_of (startNewSession E (reloaded E (world_of (startNewSession E w))))).
Proof.
  rewrite startNewSession_run. cbv zeta. cbn [world_of]. unfold reloaded.
  cbn [localStorage].
  set (storage := <[localStorageSessionIdKey E := uuid_of E (uuid_count w)]>
                    (localStorage w)).
  assert (Hregistry : forall w0, localStorage w0 = storage ->
                                 getStoredConversations E w0 = Returned stored w0).
  { intros w0 Hw0.
    destruct (getStoredConversations_run E w) as (l & Hl & Heq).
    destruct (getStoredConversations_run E w0) as (l0 & Hl0 & Heq0).
    rewrite Hl in Hstored. injection Hstored as <-.
    rewrite Hw0 in Heq0. unfold storage in Heq0.
    rewrite lookup_insert_ne in Heq0 by done. congruence. }
  assert (Hpage : install E (fresh_refs storage)
                  = Returned tt (set_conversations stored (fresh_refs storage))).
  { unfold install, bind. by rewrite (Hregistry (fresh_refs storage) eq_refl). }
  rewrite Hpage. cbn [world_of].
  set (page := set_conversations stored (fresh_refs storage)).
  assert (Hkey : localStorage page !! localStorageSessionIdKey E
                 = Some (uuid_of E (uuid_count w)))
    by apply lookup_insert_eq.
  split; [exact Hkey|]. split; [reflexivity|].
  destruct (loadPreviousSession_unfold E page) as (stored' & Hrun & _ & ->).
  rewrite (Hregistry page eq_refl) in Hrun. injection Hrun as <-.
  rewrite Hoption, Hkey. cbn [default].
  rewrite (find_conversation_fresh _ _ Hfresh). by destruct (truthy _).
Qed.

Lemma unused_session_is_not_resumed_witness :
  localStorageSessionIdKey example_env <> localStorageSessionConversationKeys example_env /\
  ChatOptions.loadPreviousSession (options example_env) = Some true /\
  getStoredConversations example_env example_installed = Returned [] example_installed /\
  ~ In (uuid_of example_env (uuid_count example_installed))
       (map ConversationMeta.id (@nil ConversationMeta.t)) /\
  loadPreviousSession example_env
    (reloaded example_env (world_of (startNewSession example_env example_installed)))
  = Returned None
      (world_of (startNewSession example_env
                   (reloaded example_env
                      (world_of (startNewSession example_env example_installed))))).
Proof.
  assert (Hkeys : localStorageSessionIdKey example_env
                  <> localStorageSessionConversationKeys example_env) by discriminate.
  assert (Hoption : ChatOptions.loadPreviousSession (options example_env) = Some true)
    by reflexivity.
  assert (Hstored : getStoredConversations example_env example_installed
                    = Returned [] example_installed) by (vm_compute; reflexivity).
  assert (Hfresh : ~ In (uuid_of example_env (uuid_count example_installed))
                        (map ConversationMeta.id (@nil ConversationMeta.t)))
    by (intros []).
  split; [exact Hkeys|]. split; [exact Hoption|]. split; [exact Hstored|].
  split; [exact Hfresh|].
  exact (proj2 (proj2 (unused_session_is_not_resumed example_env example_installed []
                         Hkeys Hoption Hstored Hfresh))).
Defined.

(** X20.  Before a session is opened: on the store [install] creates, over
    any [localStorage], [sendMessage] returns at once and writes nothing,
    [messages] is empty, nothing is awaited, the switcher shows "New Chat"
    and marks no item active. *)
Theorem nothing_to_send_to_before_a_session (E : Env) (storage : gmap string string)
        (text : string) (files : list File) :
  sendMessage E text files (world_of (install E (fresh_refs storage)))
  = Returned tt (world_of (install E (fresh_refs storage))) /\
  messages (world_of (install E (fresh_refs storage))) = [] /\
  waitingForResponse (world_of (install E (fresh_refs storage))) = false /\
  currentConversationName (world_of (install E (fresh_refs storage))) = "New Chat" /\
  forall conv, item_active (world_of (install E (fresh_refs storage))) conv = false.
Proof.
  destruct (install_run E storage) as (stored & ->). cbn [world_of].
  split; [by apply sendMessage_inactive|]. done.
Qed.
